(** * RocketMan tunnel service: supervisor, health monitor and control API

    A verification model of [src/windows/main.py].  The Python methods are
    embedded as programs of a small free monad over atomic actions on a
    [World]: the fields of the [TunnelManager] and [AppMonitor] objects, the
    operating system's view of the spawned processes, the answers the
    environment gives to each system call, and a ghost trace of the
    observable effects.  A program is run either to completion ([run], one
    caller) or interleaved with other threads by a schedule ([exec]). *)

From Stdlib Require Import ZArith Lia Ascii String.
From stdpp Require Import base list strings gmap.

Open Scope Z_scope.
Open Scope string_scope.
Open Scope list_scope.

(** ** Python values *)

(** The values that occur in the dictionaries the service returns. *)
Inductive pyval :=
| VNone
| VStr (s : string)
| VInt (n : Z).

(** A dictionary literal, keys in the order the source writes them. *)
Abbreviation dict := (list (string * pyval)).

(** [str | None] attributes rendered into a dictionary. *)
Definition opt_str (o : option string) : pyval :=
  match o with Some s => VStr s | None => VNone end.

(** Exceptions.  Every class below derives from [Exception], so a clause
    [except Exception] catches each of them. *)
Inductive exn_class :=
| OSError
| PermissionError
| FileNotFoundError
| AttributeError
| IndexError
| URLError
| HTTPError
| SocketTimeout
| UnicodeDecodeError
| TypeError
| ValueError.

(** An exception object; [exn_str] is what [str(e)] returns. *)
Record exn := Exn { exn_cls : exn_class; exn_str : string }.

(** ** The operating system and the environment *)

(** One [subprocess.Popen] object: its [pid], its [returncode] attribute
    ([None] until [poll] or [wait] observe the exit) and the text that
    reading its [stderr] pipe and decoding it with
    [decode('utf-8', errors='ignore')] yields, held as its UTF-8 encoding
    ([None] when it has no pipe). *)
Record Proc := mkProc {
  pid : Z;
  returncode : option Z;
  stderr : option string
}.

(** What [subprocess.Popen(...)] does when it is called. *)
Inductive popen_answer :=
| PopenRaises (e : exn)
| PopenSpawns (child_pid : Z) (err : string).

(** The environment's answers, one queue per system call, consumed in the
    order of the calls.  An exhausted queue answers with a default: a polled
    process is still running, [Popen] raises, [terminate] and [kill] return,
    [wait] reaps exit code [1], the HTTP probe raises. *)
Record Oracle := mkOracle {
  popen_q : list popen_answer;
  poll_q : list (option Z);
  terminate_q : list (option exn);
  kill_q : list (option exn);
  wait_q : list (exn + Z);
  probe_q : list (exn + string)
}.

(** The two supervisor operations that take the lock. *)
Inductive call :=
| CallStart (username appname : string)
| CallStop.

Inductive log_level := LInfo | LWarning | LError.

(** The messages handed to [servicemanager.Log*Msg]. *)
Inductive log_msg :=
| MsgMonitorStarted
| MsgMonitorStopped
| MsgReconnected
| MsgNotResponding (checks : Z)
| MsgTunnelStopped (result : dict)
| MsgMonitorError (e : exn).

(** Ghost trace of observable effects, oldest first. *)
Inductive event :=
| EvEnter (c : call)
| EvSpawn (h : nat) (argv : list string)
| EvTerminate (h : nat)
| EvKill (h : nat)
| EvProbe (url : string)
| EvLog (lvl : log_level) (msg : log_msg)
| EvThreadStart (name : string)
| EvRespond (code : Z) (body : dict).

(** The whole state.  [process] .. [config_path] are the attributes of the
    [TunnelManager] (a handle is an index into [procs]); the next two are the
    attributes of the [AppMonitor]; [files] are the paths for which
    [os.path.exists] is true. *)
Record World := mkWorld {
  process : option nat;
  lock : bool;
  singbox_path : option string;
  config_path : option string;
  consecutive_failures : Z;
  monitor_is_running : bool;
  files : list string;
  procs : list Proc;
  oracle : Oracle;
  trace : list event
}.

Definition set_process (v : option nat) (w : World) : World :=
  mkWorld v (lock w) (singbox_path w) (config_path w) (consecutive_failures w)
    (monitor_is_running w) (files w) (procs w) (oracle w) (trace w).

Definition set_lock (v : bool) (w : World) : World :=
  mkWorld (process w) v (singbox_path w) (config_path w) (consecutive_failures w)
    (monitor_is_running w) (files w) (procs w) (oracle w) (trace w).

Definition set_singbox_path (v : option string) (w : World) : World :=
  mkWorld (process w) (lock w) v (config_path w) (consecutive_failures w)
    (monitor_is_running w) (files w) (procs w) (oracle w) (trace w).

Definition set_config_path (v : option string) (w : World) : World :=
  mkWorld (process w) (lock w) (singbox_path w) v (consecutive_failures w)
    (monitor_is_running w) (files w) (procs w) (oracle w) (trace w).

Definition set_consecutive_failures (v : Z) (w : World) : World :=
  mkWorld (process w) (lock w) (singbox_path w) (config_path w) v
    (monitor_is_running w) (files w) (procs w) (oracle w) (trace w).

Definition set_monitor_is_running (v : bool) (w : World) : World :=
  mkWorld (process w) (lock w) (singbox_path w) (config_path w) (consecutive_failures w)
    v (files w) (procs w) (oracle w) (trace w).

Definition set_procs (v : list Proc) (w : World) : World :=
  mkWorld (process w) (lock w) (singbox_path w) (config_path w) (consecutive_failures w)
    (monitor_is_running w) (files w) v (oracle w) (trace w).

Definition set_oracle (v : Oracle) (w : World) : World :=
  mkWorld (process w) (lock w) (singbox_path w) (config_path w) (consecutive_failures w)
    (monitor_is_running w) (files w) (procs w) v (trace w).

Definition emit (e : event) (w : World) : World :=
  mkWorld (process w) (lock w) (singbox_path w) (config_path w) (consecutive_failures w)
    (monitor_is_running w) (files w) (procs w) (oracle w) (trace w ++ [e]).

Definition set_popen_q (v : list popen_answer) (o : Oracle) : Oracle :=
  mkOracle v (poll_q o) (terminate_q o) (kill_q o) (wait_q o) (probe_q o).

Definition set_poll_q (v : list (option Z)) (o : Oracle) : Oracle :=
  mkOracle (popen_q o) v (terminate_q o) (kill_q o) (wait_q o) (probe_q o).

Definition set_terminate_q (v : list (option exn)) (o : Oracle) : Oracle :=
  mkOracle (popen_q o) (poll_q o) v (kill_q o) (wait_q o) (probe_q o).

Definition set_kill_q (v : list (option exn)) (o : Oracle) : Oracle :=
  mkOracle (popen_q o) (poll_q o) (terminate_q o) v (wait_q o) (probe_q o).

Definition set_wait_q (v : list (exn + Z)) (o : Oracle) : Oracle :=
  mkOracle (popen_q o) (poll_q o) (terminate_q o) (kill_q o) v (probe_q o).

Definition set_probe_q (v : list (exn + string)) (o : Oracle) : Oracle :=
  mkOracle (popen_q o) (poll_q o) (terminate_q o) (kill_q o) (wait_q o) v.

(** Records [c] as the exit code of the process behind handle [h]. *)
Definition reap (h : nat) (c : Z) (w : World) : World :=
  match procs w !! h with
  | Some p => set_procs (<[h := mkProc (pid p) (Some c) (stderr p)]> (procs w)) w
  | None => w
  end.

(** [Popen.poll()] on handle [h]: the exit code once the exit has been
    observed, else what the environment answers now.  A handle outside the
    table stands for a process that is gone. *)
Definition poll (h : nat) (w : World) : option Z * World :=
  match procs w !! h with
  | None => (Some 0, w)
  | Some p =>
      match returncode p with
      | Some c => (Some c, w)
      | None =>
          match poll_q (oracle w) with
          | [] => (None, w)
          | None :: q => (None, set_oracle (set_poll_q q (oracle w)) w)
          | Some c :: q => (Some c, reap h c (set_oracle (set_poll_q q (oracle w)) w))
          end
      end
  end.

(** ** Atomic actions *)

(** One constructor per attribute access or system call of the source; the
    index is the type of the value the action returns.  An action that may
    raise returns the exception as a value, and the program re-raises it.

    [Popen], [terminate], [kill], [wait] and the HTTP request may raise,
    as the environment decides.  [poll], reading the stderr pipe,
    [time.sleep] and logging always return.  [Respond] records a response
    written in full; a write that fails is the business of
    [send_json_response] below.
    [Enter] is a ghost action: it records in the trace that the body of
    [start] or [stop] has begun.  [HttpGet] stands for the request, [read]
    and [decode('utf-8')] of the probe together: it yields the decoded
    body, or the exception one of the three raised ([HTTPError] for an
    error status).  A [str] is held as its UTF-8 encoding, one 8-bit
    character per byte. *)
Inductive action : Type -> Type :=
| Acquire : action unit
| Release : action unit
| Enter (c : call) : action unit
| GetProcess : action (option nat)
| SetProcess (v : option nat) : action unit
| GetSingboxPath : action (option string)
| SetSingboxPath (v : string) : action unit
| GetConfigPath : action (option string)
| SetConfigPath (v : string) : action unit
| PathExists (p : string) : action bool
| Popen (argv : list string) : action (exn + nat)
| Sleep (ms : Z) : action unit
| Poll (h : nat) : action (option Z)
| Pid (h : nat) : action Z
| ReadStderr (h : nat) : action (option string)
| Terminate (h : nat) : action (option exn)
| Kill (h : nat) : action (option exn)
| Wait (h : nat) : action (exn + Z)
| HttpGet (url : string) : action (exn + string)
| GetFailures : action Z
| SetFailures (v : Z) : action unit
| GetMonitorRunning : action bool
| SetMonitorRunning (v : bool) : action unit
| Log (lvl : log_level) (msg : log_msg) : action unit
| ThreadStart (name : string) : action unit
| Respond (code : Z) (body : dict) : action unit.

Definition spawn_failed : exn := Exn OSError "spawn failed".
Definition unreachable : exn := Exn URLError "connection refused".

(** The effect of one action: [None] when the action cannot proceed now
    (only [Acquire] on a held lock), else the returned value and the next
    world. *)
Definition perform {X : Type} (a : action X) (w : World) : option (X * World) :=
  match a in action T return option (T * World) with
  | Acquire => if lock w then None else Some (tt, set_lock true w)
  | Release => Some (tt, set_lock false w)
  | Enter c => Some (tt, emit (EvEnter c) w)
  | GetProcess => Some (process w, w)
  | SetProcess v => Some (tt, set_process v w)
  | GetSingboxPath => Some (singbox_path w, w)
  | SetSingboxPath v => Some (tt, set_singbox_path (Some v) w)
  | GetConfigPath => Some (config_path w, w)
  | SetConfigPath v => Some (tt, set_config_path (Some v) w)
  | PathExists p => Some (bool_decide (p ∈ files w), w)
  | Popen argv =>
      match popen_q (oracle w) with
      | [] => Some (inl spawn_failed, w)
      | PopenRaises e :: q => Some (inl e, set_oracle (set_popen_q q (oracle w)) w)
      | PopenSpawns p err :: q =>
          let h := length (procs w) in
          Some (inr h,
                emit (EvSpawn h argv)
                  (set_procs (procs w ++ [mkProc p None (Some err)])
                     (set_oracle (set_popen_q q (oracle w)) w)))
      end
  | Sleep _ => Some (tt, w)
  | Poll h => Some (poll h w)
  | Pid h => Some (from_option pid 0 (procs w !! h), w)
  | ReadStderr h => Some (from_option stderr None (procs w !! h), w)
  | Terminate h =>
      match terminate_q (oracle w) with
      | [] => Some (None, emit (EvTerminate h) w)
      | r :: q =>
          Some (r, emit (EvTerminate h) (set_oracle (set_terminate_q q (oracle w)) w))
      end
  | Kill h =>
      match kill_q (oracle w) with
      | [] => Some (None, emit (EvKill h) w)
      | r :: q => Some (r, emit (EvKill h) (set_oracle (set_kill_q q (oracle w)) w))
      end
  | Wait h =>
      match from_option returncode (Some 0) (procs w !! h) with
      | Some c => Some (inr c, w)
      | None =>
          match wait_q (oracle w) with
          | [] => Some (inr 1, reap h 1 w)
          | inl e :: q => Some (inl e, set_oracle (set_wait_q q (oracle w)) w)
          | inr c :: q => Some (inr c, reap h c (set_oracle (set_wait_q q (oracle w)) w))
          end
      end
  | HttpGet url =>
      match probe_q (oracle w) with
      | [] => Some (inl unreachable, emit (EvProbe url) w)
      | r :: q => Some (r, emit (EvProbe url) (set_oracle (set_probe_q q (oracle w)) w))
      end
  | GetFailures => Some (consecutive_failures w, w)
  | SetFailures v => Some (tt, set_consecutive_failures v w)
  | GetMonitorRunning => Some (monitor_is_running w, w)
  | SetMonitorRunning v => Some (tt, set_monitor_is_running v w)
  | Log lvl msg => Some (tt, emit (EvLog lvl msg) w)
  | ThreadStart name => Some (tt, emit (EvThreadStart name) w)
  | Respond code body => Some (tt, emit (EvRespond code body) w)
  end.

(** ** Programs *)

(** A Python method body: it returns, raises, or performs an atomic action
    and continues with the value the action returned. *)
Inductive prog (R : Type) : Type :=
| Ret (r : R)
| Raise (e : exn)
| Act (X : Type) (a : action X) (k : X -> prog R).

Arguments Ret {R} r.
Arguments Raise {R} e.
Arguments Act {R X} a k.

Fixpoint bind {A B : Type} (p : prog A) (f : A -> prog B) : prog B :=
  match p with
  | Ret r => f r
  | Raise e => Raise e
  | Act a k => Act a (fun x => bind (k x) f)
  end.

Notation "'let*' x ':=' c 'in' k" := (bind c (fun x => k))
  (at level 10, x name, c at level 100, k at level 200).

(** An action whose result is returned as is. *)
Definition act {X : Type} (a : action X) : prog X := Act a Ret.

(** An action that may raise, with results [exn + X]. *)
Definition act_or_raise {X : Type} (a : action (exn + X)) : prog X :=
  Act a (fun r => match r with inl e => Raise e | inr x => Ret x end).

(** An action that returns nothing or raises, with results [option exn]. *)
Definition act_or_raise_unit (a : action (option exn)) : prog unit :=
  Act a (fun r => match r with Some e => Raise e | None => Ret tt end).

(** [try: p  except Exception as e: h e]. *)
Fixpoint try_except {R : Type} (p : prog R) (h : exn -> prog R) : prog R :=
  match p with
  | Ret r => Ret r
  | Raise e => h e
  | Act a k => Act a (fun x => try_except (k x) h)
  end.

(** The body of a [with self.lock:] block after the lock is taken: the lock
    is released when the body returns and when it raises. *)
Fixpoint release_after {R : Type} (p : prog R) : prog R :=
  match p with
  | Ret r => Act Release (fun _ => Ret r)
  | Raise e => Act Release (fun _ => Raise e)
  | Act a k => Act a (fun x => release_after (k x))
  end.

(** [with self.lock: p]. *)
Definition with_lock {R : Type} (p : prog R) : prog R :=
  Act Acquire (fun _ => release_after p).

(** How a call ends for its caller. *)
Inductive outcome (R : Type) : Type :=
| Done (r : R)
| Raised (e : exn)
| Blocked.

Arguments Done {R} r.
Arguments Raised {R} e.
Arguments Blocked {R}.

(** Runs a program to its end with no other thread interfering. *)
Fixpoint run {R : Type} (p : prog R) (w : World) : outcome R * World :=
  match p with
  | Ret r => (Done r, w)
  | Raise e => (Raised e, w)
  | Act a k =>
      match perform a w with
      | Some (x, w') => run (k x) w'
      | None => (Blocked, w)
      end
  end.

(** ** Threads *)

(** A thread is the rest of the call it executes, with a ghost flag that
    tells whether it holds the supervisor's lock. *)
Record thread := Thread { code : prog dict; holding : bool }.

Definition config : Type := World * list thread.

Definition is_lock_action {X : Type} (a : action X) : bool :=
  match a with
  | Acquire | Release => true
  | _ => false
  end.

Definition holds_after {X : Type} (a : action X) (held : bool) : bool :=
  match a with
  | Acquire => true
  | Release => false
  | _ => held
  end.

(** Thread [i] performs its next atomic action, if it has one that can
    proceed; otherwise nothing changes. *)
Definition tstep (i : nat) (c : config) : config :=
  match c.2 !! i with
  | Some (Thread (Act a k) held) =>
      match perform a c.1 with
      | Some (x, w') => (w', <[i := Thread (k x) (holds_after a held)]> c.2)
      | None => c
      end
  | _ => c
  end.

(** Runs the threads in the order a schedule names them. *)
Definition exec (sched : list nat) (c : config) : config :=
  foldl (fun c i => tstep i c) c sched.

(** A thread that has not begun the call [p]. *)
Definition spawn (p : prog dict) : thread := Thread p false.

Definition finished (t : thread) : bool :=
  match code t with
  | Act _ _ => false
  | _ => true
  end.




(** A program all of whose actions satisfy [ok]. *)
Inductive uses (ok : forall X : Type, action X -> bool) {R : Type} : prog R -> Prop :=
| uses_ret r : uses ok (Ret r)
| uses_raise e : uses ok (Raise e)
| uses_act X (a : action X) k :
    ok X a = true ->
    (forall x, uses ok (k x)) ->
    uses ok (Act a k).

(** A program that never touches the lock. *)
Definition lock_free {R : Type} (p : prog R) : Prop :=
  uses (fun X a => negb (is_lock_action a)) p.

(** Runs calls one after the other. *)
Fixpoint run_all {R : Type} (ps : list (prog R)) (w : World)
  : list (outcome R) * World :=
  match ps with
  | [] => ([], w)
  | p :: ps' =>
      let r := run p w in
      let rs := run_all ps' r.2 in
      (r.1 :: rs.1, rs.2)
  end.

(** The outcome a finished thread reports to its caller. *)
Definition thread_outcome (t : thread) : outcome dict :=
  match code t with
  | Ret r => Done r
  | Raise e => Raised e
  | Act _ _ => Blocked
  end.

(** Handles of spawned processes whose exit has not been observed. *)
Definition live (p : Proc) : Prop := returncode p = None.

Definition live_count (w : World) : nat :=
  length (filter live (procs w)).

(** ** Strings *)

(** A Python [str] is held as its UTF-8 encoding, one [ascii] per byte.  A
    byte [10xxxxxx] continues the code point that the bytes before it
    began; every other byte begins one. *)
Definition is_continuation (c : ascii) : bool :=
  (128 <=? N_of_ascii c)%N && (N_of_ascii c <? 192)%N.

(** [s[:n]]: the first [n] code points of [s], that is, the bytes before
    the one that begins code point [n+1]. *)
Fixpoint str_take (n : nat) (s : string) : string :=
  match s with
  | EmptyString => EmptyString
  | String c s' =>
      if is_continuation c then String c (str_take n s')
      else
        match n with
        | O => EmptyString
        | S n' => String c (str_take n' s')
        end
  end.

(** The UTF-8 encoding of the code point [cp]: one to four bytes. *)
Definition utf8_encode (cp : N) : string :=
  if (cp <? 128)%N then String (ascii_of_N cp) ""
  else if (cp <? 2048)%N then
    String (ascii_of_N (192 + cp / 64))
      (String (ascii_of_N (128 + cp mod 64)) "")
  else if (cp <? 65536)%N then
    String (ascii_of_N (224 + cp / 4096))
      (String (ascii_of_N (128 + (cp / 64) mod 64))
         (String (ascii_of_N (128 + cp mod 64)) ""))
  else
    String (ascii_of_N (240 + cp / 262144))
      (String (ascii_of_N (128 + (cp / 4096) mod 64))
         (String (ascii_of_N (128 + (cp / 64) mod 64))
            (String (ascii_of_N (128 + cp mod 64)) ""))).

(** The [str] whose code points are [cps]. *)
Fixpoint utf8 (cps : list N) : string :=
  match cps with
  | [] => EmptyString
  | cp :: cps' => utf8_encode cp +:+ utf8 cps'
  end.

(** The code points of Unicode, [0 .. 0x10FFFF]. *)
Definition is_code_point (cp : N) : Prop := (cp < 1114112)%N.

Definition is_upper (c : ascii) : bool :=
  (65 <=? nat_of_ascii c)%nat && (nat_of_ascii c <=? 90)%nat.

Definition lower_char (c : ascii) : ascii :=
  if is_upper c then ascii_of_nat (nat_of_ascii c + 32) else c.

(** [s.lower()] on ASCII letters; other characters are kept.  On the UTF-8
    encoding this agrees with Python's [lower] wherever the letters
    [p], [o], [n], [g] are concerned: no character outside ASCII lowercases
    to one of them. *)
Fixpoint lower (s : string) : string :=
  match s with
  | EmptyString => EmptyString
  | String c s' => String (lower_char c) (lower s')
  end.

(** The characters [str.strip()] removes: tab, line feed, vertical tab,
    form feed, carriage return, the four separators 28..31 and space. *)
Definition is_space (c : ascii) : bool :=
  let n := nat_of_ascii c in
  ((9 <=? n)%nat && (n <=? 13)%nat) || ((28 <=? n)%nat && (n <=? 32)%nat).

Fixpoint lstrip (s : string) : string :=
  match s with
  | String c s' => if is_space c then lstrip s' else s
  | EmptyString => EmptyString
  end.

Fixpoint rstrip (s : string) : string :=
  match s with
  | EmptyString => EmptyString
  | String c s' =>
      match rstrip s' with
      | EmptyString => if is_space c then EmptyString else String c EmptyString
      | r => String c r
      end
  end.

(** [s.strip()]. *)
Definition strip (s : string) : string := rstrip (lstrip s).

Fixpoint starts_with (p s : string) : bool :=
  match p, s with
  | EmptyString, _ => true
  | String a p', String b s' => if Ascii.eqb a b then starts_with p' s' else false
  | String _ _, EmptyString => false
  end.

(** [p in s]. *)
Fixpoint contains (p s : string) : bool :=
  starts_with p s ||
  match s with
  | EmptyString => false
  | String _ s' => contains p s'
  end.

(** ** The service *)

Definition APP_PING_URL : string := "http://localhost:8081/ping".

(** [APP_CHECK_INTERVAL], in milliseconds. *)
Definition APP_CHECK_INTERVAL : Z := 2000.

(** [AppMonitor.max_failures], assigned once in [__init__]. *)
Definition max_failures : Z := 3.

(** Evaluates [self.process] as the receiver of attribute [attr]. *)
Definition self_process (attr : string) : prog nat :=
  let* p := act GetProcess in
  match p with
  | Some h => Ret h
  | None =>
      Raise (Exn AttributeError ("'NoneType' object has no attribute '" ++ attr ++ "'"))
  end.

(** A path attribute passed where a string is required. *)
Definition as_path (o : option string) : prog string :=
  match o with
  | Some s => Ret s
  | None => Raise (Exn TypeError "expected str, bytes or os.PathLike object, not NoneType")
  end.

(** A path attribute formatted into an f-string. *)
Definition fmt (o : option string) : string := default "None" o.

(** [TunnelManager.is_running]:
    [self.process is not None and self.process.poll() is None]. *)
Definition is_running : prog bool :=
  let* p := act GetProcess in
  match p with
  | None => Ret false
  | Some _ =>
      let* h := self_process "poll" in
      let* r := act (Poll h) in
      Ret (bool_decide (r = None))
  end.

(** [TunnelManager.get_status]; it does not take the lock. *)
Definition get_status : prog dict :=
  let* running := is_running in
  if running then
    let* h := self_process "pid" in
    let* p := act (Pid h) in
    let* sp := act GetSingboxPath in
    let* cp := act GetConfigPath in
    Ret [("status", VStr "running"); ("pid", VInt p);
         ("singbox_path", opt_str sp); ("config_path", opt_str cp)]
  else Ret [("status", VStr "stopped")].

(** The polling loop of [stop]: [for _ in range(n)], leaving at the first
    poll that sees the exit, sleeping 0.1s otherwise. *)
Fixpoint wait_for_exit (n : nat) : prog unit :=
  match n with
  | O => Ret tt
  | S n' =>
      let* h := self_process "poll" in
      let* r := act (Poll h) in
      match r with
      | Some _ => Ret tt
      | None => let* _ := act (Sleep 100) in wait_for_exit n'
      end
  end.

(** The [try] block of [stop]. *)
Definition stop_sequence : prog dict :=
  let* h := self_process "terminate" in
  let* _ := act_or_raise_unit (Terminate h) in
  let* _ := wait_for_exit 50 in
  let* h := self_process "poll" in
  let* r := act (Poll h) in
  let* _ :=
    match r with
    | None =>
        let* h := self_process "kill" in
        let* _ := act_or_raise_unit (Kill h) in
        let* h := self_process "wait" in
        let* _ := act_or_raise (Wait h) in
        Ret tt
    | Some _ => Ret tt
    end in
  let* _ := act (SetProcess None) in
  Ret [("status", VStr "stopped")].

(** The [except Exception as e] block of [stop]. *)
Definition stop_failed (e : exn) : prog dict :=
  let* _ := act (SetProcess None) in
  Ret [("status", VStr "error"); ("message", VStr (exn_str e))].

(** [stop] from its liveness check on. *)
Definition stop_checked : prog dict :=
  let* running := is_running in
  if negb running then Ret [("status", VStr "not_running")]
  else try_except stop_sequence stop_failed.

(** What [stop] does once it holds the lock: the call is recorded in the
    trace, then the body runs. *)
Definition stop_body : prog dict :=
  let* _ := act (Enter CallStop) in
  stop_checked.

(** [TunnelManager.stop]. *)
Definition stop : prog dict := with_lock stop_body.

(** [AppMonitor._check_app_alive]: the request, [read] and [decode] happen
    in the [try] block and any of them may raise. *)
Definition _check_app_alive : prog bool :=
  try_except
    (let* data := act_or_raise (HttpGet APP_PING_URL) in
     Ret (String.eqb (lower (strip data)) "pong" || contains "pong" (lower data)))
    (fun _ => Ret false).

(** One iteration of the [while] loop of [AppMonitor._monitor_loop]. *)
Definition monitor_cycle : prog unit :=
  try_except
    (let* running := is_running in
     let* _ :=
       if running then
         let* app_alive := _check_app_alive in
         if app_alive then
           let* c := act GetFailures in
           let* _ := if (0 <? c)%Z then act (Log LInfo MsgReconnected) else Ret tt in
           act (SetFailures 0)
         else
           let* c := act GetFailures in
           let* _ := act (SetFailures (c + 1)) in
           let* c := act GetFailures in
           if (max_failures <=? c)%Z then
             let* c := act GetFailures in
             let* _ := act (Log LWarning (MsgNotResponding c)) in
             let* result := stop in
             let* _ := act (Log LInfo (MsgTunnelStopped result)) in
             act (SetFailures 0)
           else Ret tt
       else Ret tt in
     act (Sleep APP_CHECK_INTERVAL))
    (fun e =>
       let* _ := act (Log LError (MsgMonitorError e)) in
       act (Sleep APP_CHECK_INTERVAL)).

(** The first [n] iterations of [AppMonitor._monitor_loop]. *)
Fixpoint _monitor_loop (n : nat) : prog unit :=
  match n with
  | O => Ret tt
  | S n' =>
      let* r := act GetMonitorRunning in
      if r then let* _ := monitor_cycle in _monitor_loop n' else Ret tt
  end.

(** [AppMonitor.start]. *)
Definition monitor_start : prog unit :=
  let* r := act GetMonitorRunning in
  if r then Ret tt
  else
    let* _ := act (SetMonitorRunning true) in
    let* _ := act (SetFailures 0) in
    let* _ := act (ThreadStart "AppMonitorThread") in
    act (Log LInfo MsgMonitorStarted).

(** [AppMonitor.stop]; the bounded [join] of the thread changes no
    attribute. *)
Definition monitor_stop : prog unit :=
  let* _ := act (SetMonitorRunning false) in
  act (Log LInfo MsgMonitorStopped).

(** [ControlHTTPHandler._send_json_response]. *)
Definition _send_json_response (code : Z) (data : dict) : prog unit :=
  act (Respond code data).

(** [_send_json_response] when the write may fail: [r] is what the write
    does, [None] when it succeeds and [Some e] when it raises [e].  A write
    that raises records no response: what reached the client is not
    known. *)
Definition send_json_response (r : option exn) (code : Z) (data : dict) : prog unit :=
  match r with
  | None => _send_json_response code data
  | Some e => Raise e
  end.

(** A call of a library function that returns or raises. *)
Definition raise_or_return {X : Type} (r : exn + X) : prog X :=
  match r with
  | inl e => Raise e
  | inr x => Ret x
  end.

(** [query_params.get(key, [None])]. *)
Definition query_get (query_params : gmap string (list string)) (key : string)
  : list (option string) :=
  match query_params !! key with
  | Some l => Some <$> l
  | None => [None]
  end.

(** [l[0]]. *)
Definition first_item {A : Type} (l : list A) : prog A :=
  match l with
  | x :: _ => Ret x
  | [] => Raise (Exn IndexError "list index out of range")
  end.

(** [not v] for [v : str | None]. *)
Definition falsy (v : option string) : bool :=
  match v with
  | None => true
  | Some s => String.eqb s ""
  end.

Definition missing_parameters : dict :=
  [("error", VStr "Missing required parameters: username, appname")].

Section Service.

(** [os.path.join(path, *paths)] of the platform. *)
Variable os_path_join : string -> list string -> string.

Definition base_path (username appname : string) : string :=
  os_path_join "C:\Users" [username; "AppData"; "Roaming"; appname; ".sing-box"].

(** The [try] block of [start]. *)
Definition start_sequence (username appname : string) : prog dict :=
  let* _ := act (SetSingboxPath (os_path_join (base_path username appname) ["sing-box.exe"])) in
  let* _ := act (SetConfigPath (os_path_join (base_path username appname) ["sing-box-auto.json"])) in
  let* sp := act GetSingboxPath in
  let* sp' := as_path sp in
  let* found := act (PathExists sp') in
  if negb found then
    let* sp := act GetSingboxPath in
    Ret [("status", VStr "error"); ("message", VStr ("sing-box not found: " ++ fmt sp))]
  else
    let* cp := act GetConfigPath in
    let* cp' := as_path cp in
    let* found := act (PathExists cp') in
    if negb found then
      let* cp := act GetConfigPath in
      Ret [("status", VStr "error"); ("message", VStr ("Config not found: " ++ fmt cp))]
    else
      let* sp := act GetSingboxPath in
      let* sp' := as_path sp in
      let* cp := act GetConfigPath in
      let* cp' := as_path cp in
      let* h := act_or_raise (Popen [sp'; "run"; "-c"; cp']) in
      let* _ := act (SetProcess (Some h)) in
      let* _ := act (Sleep 500) in
      let* h := self_process "poll" in
      let* r := act (Poll h) in
      match r with
      | Some _ =>
          let* h := self_process "stderr" in
          let* err := act (ReadStderr h) in
          Ret [("status", VStr "error");
               ("message",
                VStr ("Process exited immediately. Error: " ++ str_take 200 (default "" err)))]
      | None =>
          let* h := self_process "pid" in
          let* p := act (Pid h) in
          let* sp := act GetSingboxPath in
          let* cp := act GetConfigPath in
          Ret [("status", VStr "started"); ("pid", VInt p);
               ("singbox_path", opt_str sp); ("config_path", opt_str cp)]
      end.

(** The [except Exception as e] block of [start]. *)
Definition start_failed (e : exn) : prog dict :=
  Ret [("status", VStr "error"); ("message", VStr (exn_str e))].

(** [start] from its liveness check on. *)
Definition start_checked (username appname : string) : prog dict :=
  let* running := is_running in
  if running then
    let* h := self_process "pid" in
    let* p := act (Pid h) in
    Ret [("status", VStr "already_running"); ("pid", VInt p)]
  else try_except (start_sequence username appname) start_failed.

(** What [start] does once it holds the lock: the call is recorded in the
    trace, then the body runs. *)
Definition start_body (username appname : string) : prog dict :=
  let* _ := act (Enter (CallStart username appname)) in
  start_checked username appname.

(** [TunnelManager.start]. *)
Definition start (username appname : string) : prog dict :=
  with_lock (start_body username appname).

(** [ControlHTTPHandler.do_GET], from the parsed path and the dictionary
    that [parse_qs] returned on, when every write of a response succeeds;
    [do_GET_request] below is the handler as a whole. *)
Definition do_GET (path : string) (query_params : gmap string (list string))
  : prog unit :=
  try_except
    (if String.eqb path "/start" then
       let* username := first_item (query_get query_params "username") in
       let* appname := first_item (query_get query_params "appname") in
       if falsy username || falsy appname then
         _send_json_response 400 missing_parameters
       else
         let* result := start (default "" username) (default "" appname) in
         _send_json_response 200 result
     else if String.eqb path "/stop" then
       let* result := stop in
       _send_json_response 200 result
     else if String.eqb path "/status" then
       let* result := get_status in
       _send_json_response 200 result
     else if String.eqb path "/ping" then
       _send_json_response 200 [("status", VStr "ok")]
     else _send_json_response 404 [("error", VStr "Not found")])
    (fun e => _send_json_response 500 [("error", VStr (exn_str e))]).

(** [urlparse(self.path)]: the path and the query of the request target, or
    the exception [urlparse] raises ([ValueError] for a malformed target).
    [parse_qs(query)]: the dictionary of the parameters, or an exception. *)
Variable urlparse : string -> exn + (string * string).
Variable parse_qs : string -> exn + gmap string (list string).

(** The [if]/[elif] chain of [do_GET], when the write of the response does
    what [first] says. *)
Definition do_GET_routes (first : option exn) (path : string)
    (query_params : gmap string (list string)) : prog unit :=
  if String.eqb path "/start" then
    let* username := first_item (query_get query_params "username") in
    let* appname := first_item (query_get query_params "appname") in
    if falsy username || falsy appname then
      send_json_response first 400 missing_parameters
    else
      let* result := start (default "" username) (default "" appname) in
      send_json_response first 200 result
  else if String.eqb path "/stop" then
    let* result := stop in
    send_json_response first 200 result
  else if String.eqb path "/status" then
    let* result := get_status in
    send_json_response first 200 result
  else if String.eqb path "/ping" then
    send_json_response first 200 [("status", VStr "ok")]
  else send_json_response first 404 [("error", VStr "Not found")].

(** [ControlHTTPHandler.do_GET] as a whole, from the request target
    [self.path]: [urlparse] and [parse_qs] run inside the [try] block.
    [first] is what the write of the response in the [try] block does and
    [second] what the write in the [except] block does. *)
Definition do_GET_request (first second : option exn) (target : string)
  : prog unit :=
  try_except
    (let* parsed_url := raise_or_return (urlparse target) in
     let* query_params := raise_or_return (parse_qs parsed_url.2) in
     do_GET_routes first parsed_url.1 query_params)
    (fun e => send_json_response second 500 [("error", VStr (exn_str e))]).

End Service.

(** ** Vocabulary of the statements *)

(** The exit of the process behind [h] has been observed. *)
Definition reaped (h : nat) (w : World) : Prop :=
  match procs w !! h with
  | Some p => returncode p <> None
  | None => True
  end.

(** The supervisor holds no process, or one whose exit has been observed. *)
Definition idle (w : World) : Prop :=
  match process w with
  | Some h => reaped h w
  | None => True
  end.

(** The world as a call finds it once it holds the lock and is recorded. *)
Definition entered (c : call) (w : World) : World :=
  emit (EvEnter c) (set_lock true w).

(** The dictionaries [start], [stop] and [status] return. *)
Definition stopped_dict : dict := [("status", VStr "stopped")].
Definition not_running_dict : dict := [("status", VStr "not_running")].
Definition error_dict (message : string) : dict :=
  [("status", VStr "error"); ("message", VStr message)].
Definition already_running_dict (p : Z) : dict :=
  [("status", VStr "already_running"); ("pid", VInt p)].
Definition started_dict (p : Z) (sp cp : string) : dict :=
  [("status", VStr "started"); ("pid", VInt p);
   ("singbox_path", VStr sp); ("config_path", VStr cp)].

Section Paths.
Variable os_path_join : string -> list string -> string.

(** The executable path [start] derives. *)
Definition exe_path (username appname : string) : string :=
  os_path_join (base_path os_path_join username appname) ["sing-box.exe"].

(** The configuration path [start] derives. *)
Definition cfg_path (username appname : string) : string :=
  os_path_join (base_path os_path_join username appname) ["sing-box-auto.json"].

(** The world after [start] has stored the two derived paths. *)
Definition with_paths (username appname : string) (w : World) : World :=
  set_config_path (Some (cfg_path username appname))
    (set_singbox_path (Some (exe_path username appname)) w).

(** The world after [Popen] has spawned a child and [start] has stored its
    handle. *)
Definition spawned (username appname : string) (child : Z) (err : string)
    (q : list popen_answer) (w : World) : World :=
  set_process (Some (length (procs w)))
    (emit (EvSpawn (length (procs w))
             [exe_path username appname; "run"; "-c"; cfg_path username appname])
       (set_procs (procs w ++ [mkProc child None (Some err)])
          (set_oracle (set_popen_q q (oracle w)) (with_paths username appname w)))).
End Paths.

(** Some contiguous part of [data] is the token, letter case ignored. *)
Definition contains_token (token data : string) : Prop :=
  exists pre x suf, data = pre +:+ x +:+ suf /\ lower x = token.

(** [x] is one of the sixteen spellings of [pong] in upper and lower case
    letters. *)
Definition spells_pong (x : string) : Prop :=
  exists c1 c2 c3 c4 : ascii,
    x = String c1 (String c2 (String c3 (String c4 ""))) /\
    (c1 = "p" \/ c1 = "P")%char /\ (c2 = "o" \/ c2 = "O")%char /\
    (c3 = "n" \/ c3 = "N")%char /\ (c4 = "g" \/ c4 = "G")%char.

(** How many events of a trace satisfy [f]. *)
Definition count_events (f : event -> bool) (l : list event) : nat :=
  length (List.filter f l).

Definition is_stop_event (e : event) : bool :=
  match e with EvEnter CallStop => true | _ => false end.

Definition is_probe_event (e : event) : bool :=
  match e with EvProbe _ => true | _ => false end.

(** How often [stop] has been entered. *)
Definition stops (w : World) : nat := count_events is_stop_event (trace w).

(** How many health probes have been sent. *)
Definition probes (w : World) : nat := count_events is_probe_event (trace w).

Definition is_enter {X : Type} (a : action X) : bool :=
  match a with Enter _ => true | _ => false end.

Definition is_probe {X : Type} (a : action X) : bool :=
  match a with HttpGet _ => true | _ => false end.

Definition is_set_failures {X : Type} (a : action X) : bool :=
  match a with SetFailures _ => true | _ => false end.

(** Actions that leave the failure counter alone. *)
Definition keeps_failures (X : Type) (a : action X) : bool := negb (is_set_failures a).

(** What the probe of a monitor cycle begun in [w] reports; [None] when the
    cycle skips the probe because the tunnel is not running. *)
Definition probe_result (w : World) : option bool :=
  match run is_running w with
  | (Done true, w1) =>
      match run _check_app_alive w1 with
      | (Done b, _) => Some b
      | _ => None
      end
  | _ => None
  end.

(** The world after the liveness check and the probe of a monitor cycle
    begun in [w]. *)
Definition probed (w : World) : World :=
  (run _check_app_alive (run is_running w).2).2.

(** The world in which a monitor cycle begun in [w] calls [stop]: the probe
    has failed, the counter is incremented and the warning is logged. *)
Definition before_stop (w : World) : World :=
  emit (EvLog LWarning (MsgNotResponding (consecutive_failures w + 1)))
    (set_consecutive_failures (consecutive_failures w + 1) (probed w)).

(** Actions that enter no call, send no probe, leave the failure counter
    and the lock alone. *)
Definition quiet (X : Type) (a : action X) : bool :=
  negb (is_enter a) && negb (is_probe a) && negb (is_set_failures a)
  && negb (is_lock_action a).

(** The world after one iteration of the monitor loop. *)
Definition cycle (w : World) : World := (run monitor_cycle w).2.



(** ** Concrete worlds *)

(** A join that puts a backslash between the components, as
    [ntpath.join] does for relative components. *)
Definition win_join (path : string) (paths : list string) : string :=
  foldl (fun acc p => acc +:+ "\" +:+ p) path paths.

Definition quiet_oracle : Oracle := mkOracle [] [] [] [] [] [].

(** The service right after [TunnelManager.__init__] and
    [AppMonitor.__init__]. *)
Definition fresh (fs : list string) (o : Oracle) : World :=
  mkWorld None false None None 0 false fs [] o [].

(** The two files of user [bob] and application [app]. *)
Definition bob_files : list string :=
  [exe_path win_join "bob" "app"; cfg_path win_join "bob" "app"].

(** A tunnel is started and the application never answers the probe; the
    tunnel is stopped by hand after two failed probes and started again. *)
Definition carry0 : World :=
  fresh bob_files (mkOracle [PopenSpawns 101 ""; PopenSpawns 102 ""] [] [] [] [] []).
Definition carry1 : World := (run (start win_join "bob" "app") carry0).2.
Definition carry2 : World := cycle carry1.
Definition carry3 : World := cycle carry2.
Definition carry4 : World := (run stop carry3).2.
Definition carry5 : World := cycle carry4.
Definition carry6 : World := (run (start win_join "bob" "app") carry5).2.
Definition carry7 : World := cycle carry6.

(** ** Serial histories *)

(** The program a finished call is left with. *)
Definition code_of (o : outcome dict) : prog dict :=
  match o with
  | Done r => Ret r
  | Raised e => Raise e
  | Blocked => Raise (Exn OSError "blocked")
  end.

(** A history lists the calls that have completed, in the order in which
    they took the lock, each with its outcome. *)
Definition history : Type := list (nat * outcome dict).

Fixpoint hist_lookup (i : nat) (hist : history) : option (outcome dict) :=
  match hist with
  | [] => None
  | (k, o) :: hist' => if decide (k = i) then Some o else hist_lookup i hist'
  end.

(** The state of thread [i] when the calls of [hist] have completed and
    [cur] is the call in progress with what is left of its body. *)
Definition thread_at (bodies : list (prog dict)) (hist : history)
    (cur : option (nat * prog dict)) (i : nat) : option thread :=
  match bodies !! i with
  | None => None
  | Some b =>
      match hist_lookup i hist with
      | Some o => Some (Thread (code_of o) false)
      | None =>
          match cur with
          | Some (k, p) =>
              if decide (k = i) then Some (Thread (release_after p) true)
              else Some (Thread (with_lock b) false)
          | None => Some (Thread (with_lock b) false)
          end
      end
  end.

(** The calls of a history, as programs. *)
Definition replay (bodies : list (prog dict)) (hist : history) : list (prog dict) :=
  (fun io => with_lock (default (Ret []) (bodies !! io.1))) <$> hist.

(** A configuration reached from [w0] by threads that each run one locked
    call is the serial run of the completed calls, followed by a part of at
    most one more call. *)
Definition serial (w0 : World) (bodies : list (prog dict)) (c : config) : Prop :=
  exists (hist : history) (cur : option (nat * prog dict)) (ws : World),
    run_all (replay bodies hist) w0 = (hist.*2, ws) /\
    lock ws = false /\
    Forall (fun io => io.2 <> Blocked /\ io.1 < length bodies)%nat hist /\
    NoDup hist.*1 /\
    length c.2 = length bodies /\
    (forall i, c.2 !! i = thread_at bodies hist cur i) /\
    match cur with
    | None => c.1 = ws
    | Some (k, p) =>
        lock c.1 = true /\ lock_free p /\ hist_lookup k hist = None /\
        exists b, bodies !! k = Some b /\
                  run (release_after p) c.1 = run (with_lock b) ws
    end.

Section Calls.
Variable os_path_join : string -> list string -> string.

(** The program of a call. *)
Definition call_prog (c : call) : prog dict :=
  match c with
  | CallStart u a => start os_path_join u a
  | CallStop => stop
  end.

(** What the call does while it holds the lock. *)
Definition call_body (c : call) : prog dict :=
  match c with
  | CallStart u a => start_body os_path_join u a
  | CallStop => stop_body
  end.

(** One thread per call, none of them begun. *)
Definition threads (calls : list call) : list thread :=
  (fun c => spawn (call_prog c)) <$> calls.
End Calls.

#[global] Instance call_inhabited : Inhabited call := populate CallStop.
#[global] Instance thread_inhabited : Inhabited thread := populate (spawn (Ret [])).



(** One process, spawned with pid [child], is held and alive, and the
    environment never reports its exit. *)
Definition settled (child : Z) (w : World) : Prop :=
  lock w = false /\ process w = Some 0%nat /\
  poll_q (oracle w) = [] /\
  exists err, procs w = [mkProc child None (Some err)].

(** ** Concrete schedules *)

(** A [stop] and a [status] called at the same time on the running tunnel
    of [carry1]; the process exits at the first poll after [terminate]. *)
Definition race_world : World :=
  set_oracle (set_poll_q [None; None; Some 0] (oracle carry1)) carry1.

Definition race_threads : list thread := [spawn stop; spawn get_status].

(** [stop] takes the lock, [status] passes its liveness check, [stop] runs
    to its end, [status] reads the pid. *)
Definition race_schedule : list nat :=
  [0; 1; 1; 1]%nat ++ replicate 12 0%nat ++ [1%nat].


(** Two [start] calls for [bob], the second taking the lock first. *)
Definition two_starts : list call := [CallStart "bob" "app"; CallStart "bob" "app"].
Definition two_starts_schedule : list nat :=
  [1; 0; 1; 0]%nat ++ replicate 30 1%nat ++ replicate 30 0%nat.

(** The service as [start] finds it when the spawned process dies at once. *)
Definition dying_world : World :=
  fresh bob_files (mkOracle [PopenSpawns 77 "FATAL: bad config"] [Some 1] [] [] [] []).

(** The same when the stderr text is 250 times the letter U+044F, two bytes
    each. *)
Definition cyrillic_world : World :=
  fresh bob_files
    (mkOracle [PopenSpawns 78 (utf8 (replicate 250 1103%N))] [Some 1] [] [] [] []).

(** The application answers the probe with [body]. *)
Definition answering (body : string) : World :=
  fresh [] (mkOracle [] [] [] [] [] [inr body]).


(** ** Vocabulary of the further statements *)

(** The dictionary [status] returns for a running tunnel. *)
Definition running_dict (p : Z) (sp cp : option string) : dict :=
  [("status", VStr "running"); ("pid", VInt p);
   ("singbox_path", opt_str sp); ("config_path", opt_str cp)].

(** [d[key]], [None] when the key is missing. *)
Fixpoint dict_get (key : string) (d : dict) : option pyval :=
  match d with
  | [] => None
  | (k, v) :: d' => if String.eqb k key then Some v else dict_get key d'
  end.

Definition is_respond_event (e : event) : bool :=
  match e with EvRespond _ _ => true | _ => false end.

Definition is_kill_event (e : event) : bool :=
  match e with EvKill _ => true | _ => false end.

Definition is_terminate_event (e : event) : bool :=
  match e with EvTerminate _ => true | _ => false end.

Definition is_thread_start_event (e : event) : bool :=
  match e with EvThreadStart _ => true | _ => false end.

(** How many HTTP responses have been written. *)
Definition responses (w : World) : nat := count_events is_respond_event (trace w).

(** How often [kill] has been called. *)
Definition kills (w : World) : nat := count_events is_kill_event (trace w).

(** How often [terminate] has been called. *)
Definition terminates (w : World) : nat := count_events is_terminate_event (trace w).

(** How many monitor threads have been started. *)
Definition thread_starts (w : World) : nat :=
  count_events is_thread_start_event (trace w).

(** The world after the environment has answered [n] polls. *)
Definition drop_polls (n : nat) (w : World) : World :=
  set_oracle (set_poll_q (drop n (poll_q (oracle w))) (oracle w)) w.

(** The next [n] polls, as far as the environment has answers queued, find
    the process running. *)
Definition stays_alive (n : nat) (w : World) : Prop :=
  Forall (fun r => r = None) (take n (poll_q (oracle w))).

Definition is_respond {X : Type} (a : action X) : bool :=
  match a with Respond _ _ => true | _ => false end.

Definition is_set_flag {X : Type} (a : action X) : bool :=
  match a with SetMonitorRunning _ => true | _ => false end.

(** Actions that write no HTTP response. *)
Definition no_response (X : Type) (a : action X) : bool := negb (is_respond a).

(** Actions that only write an HTTP response. *)
Definition only_responds (X : Type) (a : action X) : bool := is_respond a.

Definition not_found : dict := [("error", VStr "Not found")].


(** What [urlparse] and [parse_qs] make of a request target: the path and
    the parameters, or the exception one of them raises. *)
Definition parsed (urlparse : string -> exn + (string * string))
    (parse_qs : string -> exn + gmap string (list string)) (target : string)
  : exn + (string * gmap string (list string)) :=
  match urlparse target with
  | inl e => inl e
  | inr parsed_url =>
      match parse_qs parsed_url.2 with
      | inl e => inl e
      | inr query_params => inr (parsed_url.1, query_params)
      end
  end.



Definition is_error_log_event (e : event) : bool :=
  match e with EvLog LError _ => true | _ => false end.

(** How many errors the monitor has logged. *)
Definition error_logs (w : World) : nat := count_events is_error_log_event (trace w).

Definition is_error_log {X : Type} (a : action X) : bool :=
  match a with Log LError _ => true | _ => false end.

(** Actions that log no error. *)
Definition no_error_log (X : Type) (a : action X) : bool := negb (is_error_log a).

(** The world after [terminate] has been called on handle [h]. *)
Definition after_terminate (h : nat) (w : World) : World :=
  emit (EvTerminate h)
    (set_oracle (set_terminate_q (tail (terminate_q (oracle w))) (oracle w)) w).

(** The world after [kill] has been called on handle [h]. *)
Definition after_kill (h : nat) (w : World) : World :=
  emit (EvKill h) (set_oracle (set_kill_q (tail (kill_q (oracle w))) (oracle w)) w).

(** The entry of the process table for a process whose exit with code [c]
    has been observed. *)
Definition exited (c : Z) (p : Proc) : Proc := mkProc (pid p) (Some c) (stderr p).

(** ** Further concrete worlds *)

(** The running tunnel of [carry1] when the process outlives the liveness
    check and one more poll, and is then seen to have exited. *)
Definition exiting_world : World :=
  set_oracle (set_poll_q [None; None; Some 0] (oracle carry1)) carry1.

(** [exiting_world] after the liveness check. *)
Definition exiting_world_checked : World :=
  set_oracle (set_poll_q [None; Some 0] (oracle carry1)) carry1.

Definition access_denied : exn := Exn PermissionError "[WinError 5] Access is denied".

(** The running tunnel of [carry1] when [terminate] is refused. *)
Definition denied_world : World :=
  set_oracle (set_terminate_q [Some access_denied] (oracle carry1)) carry1.

(** [carry1] with the monitor started. *)
Definition watched : World := (run monitor_start carry1).2.

(** The dictionary [parse_qs] returns for
    [/start?username=bob&appname=app&username=eve]. *)
Definition both_parameters : gmap string (list string) :=
  {[ "username" := ["bob"; "eve"]; "appname" := ["app"] ]}.

(** [urlparse] on a target that is a bare path, and [parse_qs] on the
    empty query. *)
Definition urlparse_path (target : string) : exn + (string * string) :=
  inr (target, "").
Definition parse_qs_empty (query : string) : exn + gmap string (list string) :=
  inr ∅.


(** A thread that handles one request; [do_GET] returns nothing. *)
Definition handler (p : prog unit) : thread := spawn (let* _ := p in Ret []).

(** [race_schedule] for a [stop] and a [/status] request: [stop] takes the
    lock, the request passes its liveness check, [stop] runs to its end,
    the request reads the pid and writes its response. *)
Definition status_race_schedule : list nat := race_schedule ++ [1; 1]%nat.

(** The thread that handles the request [GET /status]. *)
Definition status_request (os_path_join : string -> list string -> string) : thread :=
  handler (do_GET_request os_path_join urlparse_path parse_qs_empty None None "/status").

(** Two threads call [stop]: the first runs to its end, then the second. *)
Definition two_stops : list call := [CallStop; CallStop].
Definition two_stops_schedule : list nat := replicate 20 0%nat ++ replicate 10 1%nat.

(** ** Running programs *)

Lemma run_bind {A B : Type} (p : prog A) (f : A -> prog B) (w : World) :
  run (bind p f) w =
  match run p w with
  | (Done a, w') => run (f a) w'
  | (Raised e, w') => (Raised e, w')
  | (Blocked, w') => (Blocked, w')
  end.
Proof.
  revert w. induction p as [r|e|X a k IH]; intros w; simpl; try reflexivity.
  destruct (perform a w) as [[x w']|]; auto.
Qed.

Lemma run_try_except {R : Type} (p : prog R) (h : exn -> prog R) (w : World) :
  run (try_except p h) w =
  match run p w with
  | (Done a, w') => (Done a, w')
  | (Raised e, w') => run (h e) w'
  | (Blocked, w') => (Blocked, w')
  end.
Proof.
  revert w. induction p as [r|e|X a k IH]; intros w; simpl; try reflexivity.
  destruct (perform a w) as [[x w']|]; auto.
Qed.

Lemma run_release_after {R : Type} (p : prog R) (w : World) :
  run (release_after p) w =
  match run p w with
  | (Done a, w') => (Done a, set_lock false w')
  | (Raised e, w') => (Raised e, set_lock false w')
  | (Blocked, w') => (Blocked, w')
  end.
Proof.
  revert w. induction p as [r|e|X a k IH]; intros w; simpl; try reflexivity.
  destruct (perform a w) as [[x w']|]; auto.
Qed.

Lemma run_with_lock {R : Type} (p : prog R) (w : World) :
  lock w = false ->
  run (with_lock p) w = run (release_after p) (set_lock true w).
Proof. intros H. unfold with_lock. simpl. rewrite H. reflexivity. Qed.

(** A lock-free program never blocks and leaves the lock as it found it. *)
Lemma lock_free_perform {X : Type} (a : action X) (w : World) :
  is_lock_action a = false ->
  exists x w', perform a w = Some (x, w') /\ lock w' = lock w.
Proof.
  destruct a; simpl; intros H; try discriminate; eauto.
  - destruct (popen_q (oracle w)) as [|[e|p err] q]; eauto.
  - unfold poll, reap. destruct (procs w !! h) as [p|] eqn:E; eauto.
    destruct (returncode p); eauto.
    destruct (poll_q (oracle w)) as [|[c|] q]; simpl; eauto.
    rewrite E. eauto.
  - destruct (terminate_q (oracle w)); eauto.
  - destruct (kill_q (oracle w)); eauto.
  - unfold reap. destruct (procs w !! h) as [p|] eqn:E; simpl; eauto.
    destruct (returncode p); eauto.
    destruct (wait_q (oracle w)) as [|[e|c] q]; simpl; rewrite ?E; eauto.
  - destruct (probe_q (oracle w)); eauto.
Qed.

Lemma lock_free_run {R : Type} (p : prog R) (w : World) :
  lock_free p ->
  (run p w).1 <> Blocked /\ lock (run p w).2 = lock w.
Proof.
  intros H. revert w. induction H as [r|e|X a k Ha Hk IH]; intros w; simpl; auto.
  apply negb_true_iff in Ha.
  destruct (lock_free_perform a w Ha) as (x & w' & -> & Hl).
  rewrite <- Hl. apply IH.
Qed.


(** ** Programs built from a given set of actions *)

Lemma uses_bind (ok : forall X : Type, action X -> bool) {A B : Type} (p : prog A) (f : A -> prog B) :
  uses ok p -> (forall x, uses ok (f x)) -> uses ok (bind p f).
Proof.
  intros Hp Hf. induction Hp as [r|e|X a k Ha Hk IH]; simpl; auto.
  - constructor.
  - constructor; auto.
Qed.

Lemma uses_try_except (ok : forall X : Type, action X -> bool) {R : Type} (p : prog R) (h : exn -> prog R) :
  uses ok p -> (forall e, uses ok (h e)) -> uses ok (try_except p h).
Proof.
  intros Hp Hh. induction Hp as [r|e|X a k Ha Hk IH]; simpl; auto.
  - constructor.
  - constructor; auto.
Qed.

Lemma uses_wait_for_exit (ok : forall X : Type, action X -> bool) (n : nat) :
  ok _ GetProcess = true ->
  (forall h, ok _ (Poll h) = true) ->
  (forall ms, ok _ (Sleep ms) = true) ->
  uses ok (wait_for_exit n).
Proof.
  intros H1 H2 H3. induction n as [|n IH]; simpl.
  - constructor.
  - constructor; [assumption|]. intros [h|]; simpl; [|constructor].
    constructor; [apply H2|]. intros [c|]; simpl; [constructor|].
    constructor; [apply H3|]. intros _. exact IH.
Qed.

(** Whatever relation every permitted action respects, the whole run
    respects. *)
Lemma uses_run (ok : forall X : Type, action X -> bool) (Rel : World -> World -> Prop) :
  (forall w, Rel w w) ->
  (forall w1 w2 w3, Rel w1 w2 -> Rel w2 w3 -> Rel w1 w3) ->
  (forall X (a : action X) w x w',
      ok X a = true -> perform a w = Some (x, w') -> Rel w w') ->
  forall (R : Type) (p : prog R) (w : World), uses ok p -> Rel w (run p w).2.
Proof.
  intros Hrefl Htrans Hstep R p w Hp. revert w.
  induction Hp as [r|e|X a k Ha Hk IH]; intros w; simpl; auto.
  destruct (perform a w) as [[x w']|] eqn:E; simpl; auto.
  eapply Htrans; [eapply Hstep; eauto|apply IH].
Qed.

Lemma uses_release_after (ok : forall X : Type, action X -> bool) {R : Type} (p : prog R) :
  ok _ Release = true -> uses ok p -> uses ok (release_after p).
Proof.
  intros Hr Hp. induction Hp as [r|e|X a k Ha Hk IH]; simpl.
  - constructor; [assumption|]. intros _. constructor.
  - constructor; [assumption|]. intros _. constructor.
  - constructor; auto.
Qed.

Ltac uses_step :=
  match goal with
  | |- forall _, _ => intros
  | |- uses _ (Ret _) => apply uses_ret
  | |- uses _ (Raise _) => apply uses_raise
  | |- uses _ (Act _ _) => apply uses_act; [reflexivity|]
  | |- uses _ (bind _ _) => apply uses_bind
  | |- uses _ (try_except _ _) => apply uses_try_except
  | |- uses _ (release_after _) => apply uses_release_after; [reflexivity|]
  | |- uses _ (wait_for_exit _) => apply uses_wait_for_exit; try reflexivity
  | |- uses _ (match ?x with _ => _ end) => destruct x
  | |- uses _ _ =>
      progress unfold act, act_or_raise, act_or_raise_unit, self_process, as_path,
        first_item, is_running, get_status, stop_sequence, stop_failed, stop_body,
        _check_app_alive, _send_json_response, start_sequence, start_failed, start_body,
        stop_checked, start_checked, with_lock, start, stop
  end.

Ltac uses_tac := repeat uses_step.

Lemma is_running_lock_free : lock_free is_running.
Proof. unfold lock_free. uses_tac. Qed.

Lemma get_status_lock_free : lock_free get_status.
Proof. unfold lock_free. uses_tac. Qed.

Lemma stop_body_lock_free : lock_free stop_body.
Proof. unfold lock_free. uses_tac. Qed.

Lemma start_body_lock_free j u a : lock_free (start_body j u a).
Proof. unfold lock_free. uses_tac. Qed.

Lemma check_app_alive_lock_free : lock_free _check_app_alive.
Proof. unfold lock_free. uses_tac. Qed.


(** ** Polling *)

Lemma poll_reaped (h : nat) (w : World) :
  reaped h w -> exists c, poll h w = (Some c, w).
Proof.
  unfold reaped, poll. destruct (procs w !! h) as [p|]; [|eauto].
  destruct (returncode p); [eauto|congruence].
Qed.

Lemma reap_reaped (h : nat) (c : Z) (w : World) : reaped h (reap h c w).
Proof.
  unfold reaped, reap. destruct (procs w !! h) as [p|] eqn:E; simpl.
  - rewrite list_lookup_insert_eq by (eapply lookup_lt_Some; eauto). discriminate.
  - rewrite E. exact I.
Qed.

Lemma poll_exited (h : nat) (w : World) (c : Z) :
  (poll h w).1 = Some c -> reaped h (poll h w).2.
Proof.
  unfold poll. destruct (procs w !! h) as [p|] eqn:E; simpl.
  - destruct (returncode p) as [c'|] eqn:Ec; simpl.
    + intros _. unfold reaped. rewrite E. congruence.
    + destruct (poll_q (oracle w)) as [|[c'|] q]; simpl; try discriminate.
      intros _. apply reap_reaped.
  - intros _. unfold reaped. rewrite E. exact I.
Qed.

Lemma poll_alive (h : nat) (w : World) :
  (poll h w).1 = None ->
  procs (poll h w).2 = procs w /\ process (poll h w).2 = process w /\
  trace (poll h w).2 = trace w /\ lock (poll h w).2 = lock w /\
  exists p, procs w !! h = Some p /\ returncode p = None.
Proof.
  unfold poll. destruct (procs w !! h) as [p|] eqn:E; simpl; [|discriminate].
  destruct (returncode p) as [c'|] eqn:Ec; simpl; [discriminate|].
  destruct (poll_q (oracle w)) as [|[c'|] q]; simpl; try discriminate; eauto 10.
Qed.

(** Polling changes the process table and the oracle only. *)
Lemma poll_frame (h : nat) (w : World) :
  let w' := (poll h w).2 in
  process w' = process w /\ lock w' = lock w /\
  singbox_path w' = singbox_path w /\ config_path w' = config_path w /\
  consecutive_failures w' = consecutive_failures w /\
  monitor_is_running w' = monitor_is_running w /\
  files w' = files w /\ trace w' = trace w /\
  length (procs w') = length (procs w).
Proof.
  unfold poll, reap. destruct (procs w !! h) as [p|] eqn:E; simpl; [|tauto].
  destruct (returncode p); simpl; [tauto|].
  destruct (poll_q (oracle w)) as [|[c|] q]; simpl; rewrite ?E; simpl;
    rewrite ?length_insert; tauto.
Qed.

Lemma poll_set_lock (h : nat) (b : bool) (w : World) :
  poll h (set_lock b w) = ((poll h w).1, set_lock b (poll h w).2).
Proof.
  unfold poll, reap. simpl. destruct (procs w !! h) as [p|] eqn:E; simpl; [|reflexivity].
  destruct (returncode p); simpl; [reflexivity|].
  destruct (poll_q (oracle w)) as [|[c|] q]; simpl; rewrite ?E; reflexivity.
Qed.

Lemma poll_emit (h : nat) (e : event) (w : World) :
  poll h (emit e w) = ((poll h w).1, emit e (poll h w).2).
Proof.
  unfold poll, reap. simpl. destruct (procs w !! h) as [p|] eqn:E; simpl; [|reflexivity].
  destruct (returncode p); simpl; [reflexivity|].
  destruct (poll_q (oracle w)) as [|[c|] q]; simpl; rewrite ?E; reflexivity.
Qed.

(** ** [is_running] and [get_status] *)

Lemma run_is_running (w : World) :
  run is_running w =
  match process w with
  | None => (Done false, w)
  | Some h => (Done (bool_decide ((poll h w).1 = None)), (poll h w).2)
  end.
Proof.
  unfold is_running. simpl. destruct (process w) as [h|] eqn:E; simpl; [|reflexivity].
  rewrite E. simpl. destruct (poll h w); reflexivity.
Qed.

Lemma is_running_entered (c : call) (w : World) :
  run is_running (entered c w) =
  ((run is_running w).1, entered c (run is_running w).2).
Proof.
  rewrite !run_is_running. unfold entered. simpl.
  destruct (process w) as [h|]; [|reflexivity].
  rewrite poll_emit, poll_set_lock. reflexivity.
Qed.

Lemma is_running_true (w w1 : World) :
  run is_running w = (Done true, w1) ->
  exists h p,
    process w = Some h /\ procs w !! h = Some p /\ returncode p = None /\
    w1 = (poll h w).2 /\ (poll h w).1 = None.
Proof.
  rewrite run_is_running. destruct (process w) as [h|]; [|discriminate].
  intros H. injection H as Hb <-. apply bool_decide_eq_true in Hb.
  destruct (poll_alive h w Hb) as (_ & _ & _ & _ & p & Hp & Hr). eauto 10.
Qed.

Lemma is_running_false (w w1 : World) :
  run is_running w = (Done false, w1) -> idle w1 /\ process w1 = process w.
Proof.
  rewrite run_is_running. unfold idle. destruct (process w) as [h|] eqn:E.
  - intros H. injection H as Hb <-. apply bool_decide_eq_false in Hb.
    destruct (poll_frame h w) as (-> & _). rewrite E. split; [|reflexivity].
    destruct (poll h w).1 as [c|] eqn:Ec; [|congruence].
    eapply poll_exited; eauto.
  - intros H. injection H as <-. rewrite E. auto.
Qed.

Lemma is_running_idle (w : World) : idle w -> run is_running w = (Done false, w).
Proof.
  rewrite run_is_running. unfold idle. destruct (process w) as [h|]; [|reflexivity].
  intros H. destruct (poll_reaped h w H) as [c ->]. reflexivity.
Qed.

(** Once nothing runs, [status()] says so and changes nothing. *)
Lemma get_status_idle (w : World) :
  idle w -> run get_status w = (Done stopped_dict, w).
Proof.
  intros H. unfold get_status. rewrite run_bind, is_running_idle by assumption.
  reflexivity.
Qed.

Lemma idle_frame (w w' : World) :
  process w' = process w -> procs w' = procs w -> idle w -> idle w'.
Proof. unfold idle, reaped. intros -> ->. auto. Qed.


Arguments poll : simpl never.

Lemma poll_lookup (h : nat) (w : World) :
  (fun p => (pid p, stderr p)) <$> (procs (poll h w).2 !! h) =
  (fun p => (pid p, stderr p)) <$> (procs w !! h).
Proof.
  unfold poll, reap. destruct (procs w !! h) as [p|] eqn:E; simpl; [|rewrite E; reflexivity].
  destruct (returncode p); simpl; [rewrite E; reflexivity|].
  destruct (poll_q (oracle w)) as [|[c|] q]; simpl; rewrite ?E; simpl; rewrite ?E; try reflexivity.
  rewrite list_lookup_insert_eq by (eapply lookup_lt_Some; eauto). reflexivity.
Qed.

Lemma poll_pid (h : nat) (w : World) :
  from_option pid 0 (procs (poll h w).2 !! h) = from_option pid 0 (procs w !! h).
Proof.
  pose proof (poll_lookup h w) as H.
  destruct (procs (poll h w).2 !! h), (procs w !! h); simpl in *; congruence.
Qed.

Lemma poll_stderr (h : nat) (w : World) :
  from_option stderr None (procs (poll h w).2 !! h) = from_option stderr None (procs w !! h).
Proof.
  pose proof (poll_lookup h w) as H.
  destruct (procs (poll h w).2 !! h), (procs w !! h); simpl in *; congruence.
Qed.

Section StartSequence.
Variable j : string -> list string -> string.

(** Every path through the [try] block of [start]. *)
Lemma run_start_sequence (u a : string) (w : World) :
  run (start_sequence j u a) w =
  if negb (bool_decide (exe_path j u a ∈ files w)) then
    (Done (error_dict ("sing-box not found: " +:+ exe_path j u a)), with_paths j u a w)
  else if negb (bool_decide (cfg_path j u a ∈ files w)) then
    (Done (error_dict ("Config not found: " +:+ cfg_path j u a)), with_paths j u a w)
  else
    match popen_q (oracle w) with
    | [] => (Raised spawn_failed, with_paths j u a w)
    | PopenRaises e :: q =>
        (Raised e, set_oracle (set_popen_q q (oracle w)) (with_paths j u a w))
    | PopenSpawns child err :: q =>
        let r := poll (length (procs w)) (spawned j u a child err q w) in
        (Done (match r.1 with
               | Some _ =>
                   error_dict ("Process exited immediately. Error: " +:+ str_take 200 err)
               | None => started_dict child (exe_path j u a) (cfg_path j u a)
               end), r.2)
    end.
Proof.
  unfold start_sequence. simpl.
  fold (exe_path j u a) (cfg_path j u a).
  destruct (bool_decide (exe_path j u a ∈ files w)); simpl; [|reflexivity].
  destruct (bool_decide (cfg_path j u a ∈ files w)); simpl; [|reflexivity].
  destruct (popen_q (oracle w)) as [|[e|child err] q]; simpl; try reflexivity.
  fold (with_paths j u a w). fold (spawned j u a child err q w).
  set (w2 := spawned j u a child err q w).
  set (h := length (procs w)).
  assert (Hh : procs w2 !! h = Some (mkProc child None (Some err))).
  { unfold w2, spawned; simpl. apply list_lookup_middle. reflexivity. }
  assert (Hp : process (poll h w2).2 = Some h).
  { destruct (poll_frame h w2) as [-> _]. reflexivity. }
  assert (Hs : singbox_path (poll h w2).2 = Some (exe_path j u a)).
  { destruct (poll_frame h w2) as (_ & _ & -> & _). reflexivity. }
  assert (Hc : config_path (poll h w2).2 = Some (cfg_path j u a)).
  { destruct (poll_frame h w2) as (_ & _ & _ & -> & _). reflexivity. }
  pose proof (poll_pid h w2) as Hpid. pose proof (poll_stderr h w2) as Herr.
  rewrite Hh in Hpid, Herr. simpl in Hpid, Herr.
  destruct (poll h w2) as [[c|] w3]; simpl in *; rewrite Hp; simpl.
  - rewrite Herr. reflexivity.
  - rewrite Hpid, Hs, Hc. reflexivity.
Qed.

End StartSequence.


(** ** [start] and [stop], one caller *)

Lemma leave_entered (c : call) (w : World) :
  lock w = false -> set_lock false (entered c w) = emit (EvEnter c) w.
Proof. destruct w; simpl; intros ->; reflexivity. Qed.

Section Supervisor.
Variable j : string -> list string -> string.

Lemma start_when_running (u a : string) (w w1 : World) :
  lock w = false ->
  run is_running w = (Done true, w1) ->
  run (start j u a) w =
  (Done (already_running_dict (from_option pid 0 (process w ≫= fun h => procs w !! h))),
   emit (EvEnter (CallStart u a)) w1).
Proof.
  intros Hl Hr. unfold start. rewrite run_with_lock, run_release_after by assumption.
  unfold start_body. rewrite run_bind.
  change (run (act (Enter (CallStart u a))) (set_lock true w))
    with (Done tt, entered (CallStart u a) w).
  cbv beta iota. unfold start_checked, stop_checked. rewrite run_bind, is_running_entered, Hr. simpl.
  destruct (is_running_true _ _ Hr) as (h & p & Hp & Hh & Hc & -> & Hn).
  destruct (poll_alive h w Hn) as (Hprocs & Hproc & _ & Hlock & _).
  rewrite Hproc, Hp. simpl. rewrite Hprocs, Hh. simpl.
  fold (entered (CallStart u a) (poll h w).2).
  rewrite leave_entered by congruence. reflexivity.
Qed.

Lemma start_when_idle (u a : string) (w w1 : World) :
  lock w = false ->
  run is_running w = (Done false, w1) ->
  run (start j u a) w =
  match run (start_sequence j u a) (entered (CallStart u a) w1) with
  | (Done d, w2) => (Done d, set_lock false w2)
  | (Raised e, w2) => (Done (error_dict (exn_str e)), set_lock false w2)
  | (Blocked, w2) => (Blocked, w2)
  end.
Proof.
  intros Hl Hr. unfold start. rewrite run_with_lock, run_release_after by assumption.
  unfold start_body. rewrite run_bind.
  change (run (act (Enter (CallStart u a))) (set_lock true w))
    with (Done tt, entered (CallStart u a) w).
  cbv beta iota. unfold start_checked, stop_checked. rewrite run_bind, is_running_entered, Hr. cbv beta iota.
  unfold fst, snd. rewrite run_try_except.
  destruct (run (start_sequence j u a) (entered (CallStart u a) w1)) as [[d|e|] w2];
    reflexivity.
Qed.

(** [is_running] always answers. *)
Lemma is_running_total (w : World) :
  exists b w1, run is_running w = (Done b, w1).
Proof. rewrite run_is_running. destruct (process w); eauto. Qed.

(** A call that answers [started] leaves the handle of the process whose
    pid it reports. *)
Lemma start_started (u a : string) (w w' : World) (p0 : Z) (sp cp : string) :
  lock w = false ->
  run (start j u a) w = (Done (started_dict p0 sp cp), w') ->
  exists h p, process w' = Some h /\ procs w' !! h = Some p /\ pid p = p0.
Proof.
  intros Hl. destruct (is_running_total w) as ([|] & w1 & Hr).
  - rewrite (start_when_running u a w w1 Hl Hr). discriminate.
  - rewrite (start_when_idle u a w w1 Hl Hr), run_start_sequence.
    destruct (negb _); [discriminate|]. destruct (negb _); [discriminate|].
    destruct (popen_q _) as [|[e|child err] q]; try discriminate.
    set (v := spawned j u a child err q (entered (CallStart u a) w1)).
    set (h := length (procs (entered (CallStart u a) w1))).
    assert (Hh : procs v !! h = Some (mkProc child None (Some err))).
    { unfold v, spawned; simpl. apply list_lookup_middle. reflexivity. }
    pose proof (poll_lookup h v) as Hlk. rewrite Hh in Hlk. simpl in Hlk.
    destruct (poll_frame h v) as (Hproc & _).
    destruct (poll h v) as [[c|] v']; cbn [fst snd] in *; [discriminate|].
    intros H. injection H as <- _ _ <-.
    destruct (procs v' !! h) as [p|] eqn:Ep; [|discriminate].
    exists h, p. injection Hlk as Hpid _. auto.
Qed.

(** C3. A [start] made while the managed process runs (a handle is held and
    its liveness check passes) answers [already_running] with the pid of
    that process, spawns nothing and leaves every attribute of the supervisor
    and the process table as they were; the pid is the one a preceding
    [start] reported as [started]. *)
Theorem start_already_running (u a : string) (w w1 : World) :
  lock w = false ->
  run is_running w = (Done true, w1) ->
  exists h p w',
    process w = Some h /\ procs w !! h = Some p /\
    run (start j u a) w = (Done (already_running_dict (pid p)), w') /\
    process w' = process w /\ lock w' = false /\
    singbox_path w' = singbox_path w /\ config_path w' = config_path w /\
    procs w' = procs w /\
    trace w' = (trace w ++ [EvEnter (CallStart u a)])%list /\
    forall w0 u0 a0 p0 sp cp,
      lock w0 = false ->
      run (start j u0 a0) w0 = (Done (started_dict p0 sp cp), w) ->
      pid p = p0.
Proof.
  intros Hl Hr.
  destruct (is_running_true _ _ Hr) as (h & p & Hp & Hh & Hc & Hw1 & Hn).
  exists h, p, (emit (EvEnter (CallStart u a)) w1).
  rewrite (start_when_running u a w w1 Hl Hr), Hp. simpl. rewrite Hh. simpl.
  destruct (poll_frame h w) as (F1 & F2 & F3 & F4 & _).
  destruct (poll_alive h w Hn) as (Hprocs & _ & Htr & _).
  subst w1. rewrite F1, F2, F3, F4, Hprocs, Htr.
  repeat split; auto.
  intros w0 u0 a0 p0 sp cp Hl0 H0.
  destruct (start_started _ _ _ _ _ _ _ Hl0 H0) as (h' & p' & Hp' & Hh' & <-).
  congruence.
Qed.

End Supervisor.


Lemma stop_when_idle (w w1 : World) :
  lock w = false ->
  run is_running w = (Done false, w1) ->
  run stop w = (Done not_running_dict, emit (EvEnter CallStop) w1).
Proof.
  intros Hl Hr. unfold stop. rewrite run_with_lock, run_release_after by assumption.
  unfold stop_body. rewrite run_bind.
  change (run (act (Enter CallStop)) (set_lock true w)) with (Done tt, entered CallStop w).
  cbv beta iota. unfold start_checked, stop_checked. rewrite run_bind, is_running_entered, Hr. cbv beta iota.
  unfold fst, snd, negb. cbn [run].
  rewrite leave_entered; [reflexivity|].
  destruct (is_running_false _ _ Hr) as [_ Hp].
  rewrite run_is_running in Hr. destruct (process w) as [h|].
  - injection Hr as _ <-. destruct (poll_frame h w) as (_ & -> & _). assumption.
  - injection Hr as <-. assumption.
Qed.

Lemma stop_when_running (w w1 : World) :
  lock w = false ->
  run is_running w = (Done true, w1) ->
  run stop w =
  match run stop_sequence (entered CallStop w1) with
  | (Done d, w2) => (Done d, set_lock false w2)
  | (Raised e, w2) => (Done (error_dict (exn_str e)), set_lock false (set_process None w2))
  | (Blocked, w2) => (Blocked, w2)
  end.
Proof.
  intros Hl Hr. unfold stop. rewrite run_with_lock, run_release_after by assumption.
  unfold stop_body. rewrite run_bind.
  change (run (act (Enter CallStop)) (set_lock true w)) with (Done tt, entered CallStop w).
  cbv beta iota. unfold start_checked, stop_checked. rewrite run_bind, is_running_entered, Hr. cbv beta iota.
  unfold fst, snd, negb. rewrite run_try_except.
  destruct (run stop_sequence (entered CallStop w1)) as [[d|e|] w2]; reflexivity.
Qed.

(** When the termination sequence completes, the handle is cleared and the
    answer is [stopped]. *)
Lemma stop_sequence_done (w w' : World) (d : dict) :
  run stop_sequence w = (Done d, w') -> d = stopped_dict /\ process w' = None.
Proof.
  unfold stop_sequence.
  repeat (rewrite run_bind;
          match goal with
          | |- context [run ?p ?v] =>
              lazymatch p with
              | act (SetProcess None) => fail
              | _ => destruct (run p v) as [[?|?|] ?]; try discriminate
              end
          end).
  cbn. intros H. injection H as <- <-. auto.
Qed.

Lemma stop_sequence_not_blocked (w : World) : (run stop_sequence w).1 <> Blocked.
Proof.
  apply lock_free_run. unfold lock_free. uses_tac.
Qed.

(** C2. Every [stop()] returns a dictionary (no exception leaves it) and
    leaves a supervisor for which [status()] answers [stopped]: when the
    termination sequence completes the handle is cleared and the answer is
    [stopped]; when it raises, the exception is caught, the handle is
    still cleared and the answer is [error] with the text of the
    exception. *)
Theorem stop_fail_safe (w : World) :
  lock w = false ->
  exists r w',
    run stop w = (Done r, w') /\
    lock w' = false /\
    run get_status w' = (Done stopped_dict, w') /\
    (r = not_running_dict \/ process w' = None) /\
    (forall w1 d w2,
        run is_running w = (Done true, w1) ->
        run stop_sequence (entered CallStop w1) = (Done d, w2) ->
        r = stopped_dict /\ w' = set_lock false w2 /\ process w2 = None) /\
    (forall w1 e w2,
        run is_running w = (Done true, w1) ->
        run stop_sequence (entered CallStop w1) = (Raised e, w2) ->
        r = error_dict (exn_str e) /\ w' = set_lock false (set_process None w2)).
Proof.
  intros Hl. destruct (is_running_total w) as ([|] & w1 & Hr).
  - rewrite (stop_when_running w w1 Hl Hr).
    pose proof (stop_sequence_not_blocked (entered CallStop w1)) as Hnb.
    destruct (run stop_sequence (entered CallStop w1)) as [[d|e|] w2] eqn:Es;
      [| |contradiction Hnb; reflexivity].
    + destruct (stop_sequence_done _ _ _ Es) as [-> Hp].
      exists stopped_dict, (set_lock false w2).
      split; [reflexivity|]. split; [reflexivity|].
      split; [apply get_status_idle; unfold idle; simpl; rewrite Hp; exact I|].
      split; [right; exact Hp|].
      split; intros v1 x v2 H1 H2; rewrite Hr in H1; injection H1 as <-; rewrite Es in H2;
        [injection H2 as _ <-; auto|discriminate].
    + exists (error_dict (exn_str e)), (set_lock false (set_process None w2)).
      split; [reflexivity|]. split; [reflexivity|].
      split; [apply get_status_idle; exact I|].
      split; [right; reflexivity|].
      split; intros v1 x v2 H1 H2; rewrite Hr in H1; injection H1 as <-; rewrite Es in H2;
        [discriminate|injection H2 as <- <-; auto].
  - rewrite (stop_when_idle w w1 Hl Hr).
    destruct (is_running_false _ _ Hr) as [Hi Hp].
    exists not_running_dict, (emit (EvEnter CallStop) w1).
    split; [reflexivity|]. split.
    { simpl. rewrite run_is_running in Hr. destruct (process w) as [h|].
      - injection Hr as _ <-. destruct (poll_frame h w) as (_ & -> & _). assumption.
      - injection Hr as <-. assumption. }
    split; [apply get_status_idle; eapply idle_frame; [| |exact Hi]; reflexivity|].
    split; [left; reflexivity|].
    split; intros v1 x v2 H1; congruence.
Qed.


(** The liveness check changes the process table and the oracle only. *)
Lemma is_running_frame (w : World) :
  let w1 := (run is_running w).2 in
  process w1 = process w /\ lock w1 = lock w /\
  singbox_path w1 = singbox_path w /\ config_path w1 = config_path w /\
  consecutive_failures w1 = consecutive_failures w /\
  monitor_is_running w1 = monitor_is_running w /\
  files w1 = files w /\ trace w1 = trace w /\
  length (procs w1) = length (procs w).
Proof.
  rewrite run_is_running. destruct (process w) as [h|] eqn:E; simpl.
  - rewrite <- E. apply poll_frame.
  - rewrite E. tauto.
Qed.

(** C7. A [stop()] made while nothing runs (no handle, or the liveness
    check of the held one fails) answers [not_running], raises nothing, and
    leaves the attributes of the supervisor as they were; it terminates
    and kills nothing. *)
Theorem stop_not_running (w w1 : World) :
  lock w = false ->
  run is_running w = (Done false, w1) ->
  exists w',
    run stop w = (Done not_running_dict, w') /\
    process w' = process w /\ lock w' = false /\
    singbox_path w' = singbox_path w /\ config_path w' = config_path w /\
    length (procs w') = length (procs w) /\
    trace w' = (trace w ++ [EvEnter CallStop])%list.
Proof.
  intros Hl Hr. exists (emit (EvEnter CallStop) w1).
  rewrite (stop_when_idle w w1 Hl Hr).
  pose proof (is_running_frame w) as F. rewrite Hr in F. simpl in F.
  destruct F as (F1 & F2 & F3 & F4 & _ & _ & _ & F5 & F6).
  simpl. rewrite F1, F2, F3, F4, F5, F6. auto 10.
Qed.

Section SupervisorStart.
Variable j : string -> list string -> string.

(** C4, as the code has it. A [start] made while nothing runs, for which
    the derived executable path or the derived configuration path names no
    existing file, answers [error] with [sing-box not found: <path>]
    (executable missing) or [Config not found: <path>] (executable present,
    configuration missing), spawns nothing and leaves the handle as it was;
    [status()] then answers [stopped]. *)
Theorem start_missing_file (u a : string) (w w1 : World) :
  lock w = false ->
  run is_running w = (Done false, w1) ->
  exe_path j u a ∉ files w \/ cfg_path j u a ∉ files w ->
  exists w',
    run (start j u a) w =
      (Done (error_dict
               (if bool_decide (exe_path j u a ∈ files w)
                then "Config not found: " +:+ cfg_path j u a
                else "sing-box not found: " +:+ exe_path j u a)), w') /\
    process w' = process w /\ lock w' = false /\
    procs w' = procs w1 /\ length (procs w') = length (procs w) /\
    trace w' = (trace w ++ [EvEnter (CallStart u a)])%list /\
    run get_status w' = (Done stopped_dict, w').
Proof.
  intros Hl Hr Hmiss.
  pose proof (is_running_frame w) as F. rewrite Hr in F. simpl in F.
  destruct F as (F1 & F2 & _ & _ & _ & _ & F3 & F4 & F5).
  destruct (is_running_false _ _ Hr) as [Hi _].
  rewrite (start_when_idle j u a w w1 Hl Hr), run_start_sequence.
  change (files (entered (CallStart u a) w1)) with (files w1). rewrite F3.
  assert (Hidle : idle (set_lock false (with_paths j u a (entered (CallStart u a) w1)))).
  { eapply idle_frame; [| |exact Hi]; reflexivity. }
  destruct (bool_decide (exe_path j u a ∈ files w)) eqn:E1; simpl.
  - destruct (bool_decide (cfg_path j u a ∈ files w)) eqn:E2; simpl.
    + apply bool_decide_eq_true in E1, E2. tauto.
    + eexists. split; [reflexivity|].
      repeat (split; [simpl; congruence|]). apply get_status_idle, Hidle.
  - eexists. split; [reflexivity|].
    repeat (split; [simpl; congruence|]). apply get_status_idle, Hidle.
Qed.

Lemma str_take_prefix (n : nat) (s : string) :
  exists rest, s = str_take n s +:+ rest.
Proof.
  revert n. induction s as [|c s IH]; intros n; [exists ""; reflexivity|].
  simpl. destruct (is_continuation c).
  - destruct (IH n) as [rest Hrest]. exists rest.
    change (String c s = String c (str_take n s +:+ rest)). congruence.
  - destruct n as [|n]; [exists (String c s); reflexivity|].
    destruct (IH n) as [rest Hrest]. exists rest.
    change (String c s = String c (str_take n s +:+ rest)). congruence.
Qed.

Lemma continuation_byte (x : N) : is_continuation (ascii_of_N (128 + x mod 64)) = true.
Proof.
  unfold is_continuation.
  assert (H : (x mod 64 < 64)%N) by (apply N.mod_lt; discriminate).
  revert H. generalize (x mod 64)%N. intros r H.
  rewrite N_ascii_embedding by lia.
  apply andb_true_intro. split; [apply N.leb_le|apply N.ltb_lt]; lia.
Qed.

Lemma leading_byte (n : N) :
  (n < 128 \/ 192 <= n < 256)%N -> is_continuation (ascii_of_N n) = false.
Proof.
  intros H. unfold is_continuation. rewrite N_ascii_embedding by lia.
  apply andb_false_iff. rewrite N.leb_gt, N.ltb_ge. lia.
Qed.

Lemma leading_byte_of (base bound d cp : N) :
  (cp < d * bound)%N -> (192 <= base)%N -> (base + bound <= 256)%N ->
  is_continuation (ascii_of_N (base + cp / d)) = false.
Proof.
  intros Hcp Hb Hu. apply leading_byte. right.
  assert (H : (cp / d < bound)%N) by (apply N.Div0.div_lt_upper_bound; exact Hcp).
  revert H. generalize (cp / d)%N. intros q H. lia.
Qed.

(** The encoding of a code point is a leading byte followed by continuation
    bytes. *)
Lemma utf8_encode_shape (cp : N) :
  is_code_point cp ->
  exists c t,
    utf8_encode cp = String c t /\ is_continuation c = false /\
    forall n s, str_take n (t +:+ s) = t +:+ str_take n s.
Proof.
  unfold is_code_point, utf8_encode. intros Hcp.
  destruct (N.ltb_spec cp 128); [|destruct (N.ltb_spec cp 2048);
    [|destruct (N.ltb_spec cp 65536)]]; eexists _, _; (split; [reflexivity|]).
  - split; [apply leading_byte; lia|]. reflexivity.
  - split; [apply (leading_byte_of 192 32 64); lia|].
    intros n s. simpl. rewrite continuation_byte. reflexivity.
  - split; [apply (leading_byte_of 224 16 4096); lia|].
    intros n s. simpl. rewrite !continuation_byte. reflexivity.
  - split; [apply (leading_byte_of 240 5 262144); lia|].
    intros n s. simpl. rewrite !continuation_byte. reflexivity.
Qed.

Lemma str_take_0_utf8 (cps : list N) :
  Forall is_code_point cps -> str_take 0 (utf8 cps) = "".
Proof.
  intros [|cp cps' Hcp _]; [reflexivity|]. simpl.
  destruct (utf8_encode_shape cp Hcp) as (c & t & -> & Hc & _).
  simpl. rewrite Hc. reflexivity.
Qed.

(** On the encoding of a text, [str_take] is the slice of its code
    points. *)
Lemma str_take_utf8 (n : nat) (cps : list N) :
  Forall is_code_point cps -> str_take n (utf8 cps) = utf8 (take n cps).
Proof.
  intros H. revert n. induction H as [|cp cps Hcp Hcps IH]; intros n.
  - destruct n; reflexivity.
  - destruct n as [|n].
    + apply (str_take_0_utf8 (cp :: cps)). constructor; assumption.
    + simpl. destruct (utf8_encode_shape cp Hcp) as (c & t & -> & Hc & Ht).
      simpl. rewrite Hc, Ht, IH. reflexivity.
Qed.

(** The encodings of U+0041, U+044F, U+20AC and U+1F600, and slices of
    texts of one, two, three and four bytes per code point. *)
Example utf8_examples :
  utf8 [65%N] = String (ascii_of_N 65) "" /\
  utf8 [1103%N] = String (ascii_of_N 209) (String (ascii_of_N 143) "") /\
  utf8 [8364%N] =
    String (ascii_of_N 226) (String (ascii_of_N 130) (String (ascii_of_N 172) "")) /\
  utf8 [128512%N] =
    String (ascii_of_N 240) (String (ascii_of_N 159)
      (String (ascii_of_N 152) (String (ascii_of_N 128) ""))) /\
  str_take 2 "abc" = "ab" /\
  str_take 0 "abc" = "" /\
  str_take 5 "abc" = "abc" /\
  str_take 2 (utf8 [1103; 8364; 128512; 65]%N) = utf8 [1103; 8364]%N /\
  str_take 3 (utf8 [1103; 8364; 128512; 65]%N) = utf8 [1103; 8364; 128512]%N /\
  str_take 200 (utf8 (replicate 150 1103%N)) = utf8 (replicate 150 1103%N) /\
  str_take 200 (utf8 (replicate 250 1103%N)) = utf8 (replicate 200 1103%N).
Proof. repeat split; vm_compute; reflexivity. Qed.

(** C5. When [start] has spawned the process and the check after the grace
    interval finds that it has exited, [start] answers [error] with the
    message [Process exited immediately. Error: ] followed by the first 200
    characters (code points) of the captured stderr text, and [status()]
    then answers [stopped].  The text kept is a prefix of the stderr text;
    for the text with code points [cps] it is the text with the first 200
    of them, whatever the number of bytes each takes, and the whole text
    when there are at most 200. *)
Theorem start_immediate_exit (u a : string) (w w1 : World)
    (child c : Z) (err : string) (pq : list popen_answer) (lq : list (option Z)) :
  lock w = false ->
  run is_running w = (Done false, w1) ->
  exe_path j u a ∈ files w ->
  cfg_path j u a ∈ files w ->
  popen_q (oracle w1) = PopenSpawns child err :: pq ->
  poll_q (oracle w1) = Some c :: lq ->
  exists w',
    run (start j u a) w =
      (Done (error_dict ("Process exited immediately. Error: " +:+ str_take 200 err)), w') /\
    run get_status w' = (Done stopped_dict, w') /\
    (exists rest, err = str_take 200 err +:+ rest) /\
    (forall cps : list N,
        Forall is_code_point cps -> err = utf8 cps ->
        str_take 200 err = utf8 (take 200 cps) /\
        ((length cps <= 200)%nat -> str_take 200 err = err)).
Proof.
  intros Hl Hr He Hc Hpq Hlq.
  pose proof (is_running_frame w) as F. rewrite Hr in F. simpl in F.
  destruct F as (_ & _ & _ & _ & _ & _ & F3 & _).
  rewrite (start_when_idle j u a w w1 Hl Hr), run_start_sequence.
  change (files (entered (CallStart u a) w1)) with (files w1). rewrite F3.
  rewrite !bool_decide_eq_true_2 by assumption. simpl negb. cbv iota.
  change (oracle (entered (CallStart u a) w1)) with (oracle w1). rewrite Hpq.
  set (v := spawned j u a child err pq (entered (CallStart u a) w1)).
  set (h := length (procs (entered (CallStart u a) w1))).
  assert (Hh : procs v !! h = Some (mkProc child None (Some err))).
  { unfold v, spawned; simpl. apply list_lookup_middle. reflexivity. }
  assert (Hpoll : (poll h v).1 = Some c).
  { unfold poll. rewrite Hh. simpl. rewrite Hlq. reflexivity. }
  pose proof (poll_exited h v c Hpoll) as Hre.
  destruct (poll_frame h v) as (Hproc & _).
  cbv zeta. rewrite Hpoll.
  eexists. split; [reflexivity|].
  split; [apply get_status_idle; unfold idle; simpl; rewrite Hproc; exact Hre|].
  split; [apply str_take_prefix|].
  intros cps Hcps ->. rewrite (str_take_utf8 200 cps Hcps).
  split; [reflexivity|]. intros Hlen. rewrite take_ge by exact Hlen. reflexivity.
Qed.

End SupervisorStart.


(** ** Strings *)

Lemma append_cons (c : ascii) (s t : string) : String c s +:+ t = String c (s +:+ t).
Proof. reflexivity. Qed.

Lemma append_nil (t : string) : "" +:+ t = t.
Proof. reflexivity. Qed.

Lemma starts_with_spec (p s : string) :
  starts_with p s = true <-> exists suf, s = p +:+ suf.
Proof.
  revert s. induction p as [|a p IH]; intros s; simpl.
  - split; [intros _; exists s; reflexivity|reflexivity].
  - destruct s as [|b s].
    + split; [discriminate|]. intros [suf H]. rewrite append_cons in H. discriminate.
    + destruct (Ascii.eqb_spec a b) as [->|Hne].
      * rewrite IH. split; intros [suf H]; exists suf.
        -- rewrite append_cons. congruence.
        -- rewrite append_cons in H. congruence.
      * split; [discriminate|]. intros [suf H]. rewrite append_cons in H. congruence.
Qed.

Lemma contains_spec (p s : string) :
  contains p s = true <-> exists pre suf, s = pre +:+ p +:+ suf.
Proof.
  split.
  - induction s as [|c s IH]; simpl; rewrite orb_true_iff; intros [H|H];
      try discriminate.
    + apply starts_with_spec in H as [suf ->]. exists "", suf. reflexivity.
    + apply starts_with_spec in H as [suf ->]. exists "", suf. reflexivity.
    + destruct (IH H) as (pre & suf & ->). exists (String c pre), suf. reflexivity.
  - intros (pre & suf & ->). induction pre as [|c pre IH].
    + rewrite append_nil.
      assert (H : starts_with p (p +:+ suf) = true) by (apply starts_with_spec; eauto).
      destruct (p +:+ suf); simpl; rewrite H; reflexivity.
    + rewrite append_cons. simpl. rewrite IH. apply orb_true_r.
Qed.

Lemma lower_app (s t : string) : lower (s +:+ t) = lower s +:+ lower t.
Proof.
  induction s as [|c s IH]; [reflexivity|].
  rewrite append_cons. simpl. rewrite IH. reflexivity.
Qed.

Lemma lower_app_inv (s a b : string) :
  lower s = a +:+ b -> exists s1 s2, s = s1 +:+ s2 /\ lower s1 = a /\ lower s2 = b.
Proof.
  revert s. induction a as [|c a IH]; intros s H.
  - exists "", s. auto.
  - destruct s as [|d s]; [discriminate|]. rewrite append_cons in H.
    simpl in H. injection H as Hc Hs.
    destruct (IH s Hs) as (s1 & s2 & -> & <- & <-).
    exists (String d s1), s2. simpl. rewrite Hc. auto.
Qed.

Lemma lstrip_suffix (s : string) : exists pre, s = pre +:+ lstrip s.
Proof.
  induction s as [|c s [pre IH]]; simpl.
  - exists "". reflexivity.
  - destruct (is_space c).
    + exists (String c pre). rewrite append_cons. congruence.
    + exists "". reflexivity.
Qed.

Lemma rstrip_prefix (s : string) : exists suf, s = rstrip s +:+ suf.
Proof.
  induction s as [|c s [suf IH]]; simpl.
  - exists "". reflexivity.
  - destruct (rstrip s) as [|d r] eqn:E.
    + destruct (is_space c).
      * exists (String c s). reflexivity.
      * exists s. reflexivity.
    + exists suf. rewrite append_cons. congruence.
Qed.

(** What [strip] keeps is a contiguous part of the string. *)
Lemma strip_infix (s : string) : exists pre suf, s = pre +:+ strip s +:+ suf.
Proof.
  destruct (lstrip_suffix s) as [pre Hpre].
  destruct (rstrip_prefix (lstrip s)) as [suf Hsuf].
  exists pre, suf. unfold strip. congruence.
Qed.

(** The equality test of [_check_app_alive] adds nothing to its
    containment test. *)
Lemma stripped_pong_contained (data : string) :
  lower (strip data) = "pong" -> contains "pong" (lower data) = true.
Proof.
  intros H. destruct (strip_infix data) as (pre & suf & Hd).
  apply contains_spec. exists (lower pre), (lower suf).
  rewrite Hd at 1. rewrite !lower_app, H. reflexivity.
Qed.

Lemma contains_lower_token (token data : string) :
  contains token (lower data) = true <-> contains_token token data.
Proof.
  rewrite contains_spec. split.
  - intros (pre & suf & H).
    apply lower_app_inv in H as (s1 & s2 & -> & <- & H).
    apply lower_app_inv in H as (x & s3 & -> & <- & <-).
    exists s1, x, s3. auto.
  - intros (pre & x & suf & -> & <-). exists (lower pre), (lower suf).
    rewrite !lower_app. reflexivity.
Qed.

(** ** The health probe *)

Lemma run_check_app_alive (w : World) :
  run _check_app_alive w =
  match probe_q (oracle w) with
  | [] => (Done false, emit (EvProbe APP_PING_URL) w)
  | inl _ :: q =>
      (Done false,
       emit (EvProbe APP_PING_URL) (set_oracle (set_probe_q q (oracle w)) w))
  | inr data :: q =>
      (Done (String.eqb (lower (strip data)) "pong" || contains "pong" (lower data)),
       emit (EvProbe APP_PING_URL) (set_oracle (set_probe_q q (oracle w)) w))
  end.
Proof.
  unfold _check_app_alive. simpl.
  destruct (probe_q (oracle w)) as [|[e|data] q]; reflexivity.
Qed.

(** Which characters [lower] takes to the letters of [pong]. *)
Lemma lower_char_pong (c : ascii) :
  (lower_char c = "p"%char <-> c = "p"%char \/ c = "P"%char) /\
  (lower_char c = "o"%char <-> c = "o"%char \/ c = "O"%char) /\
  (lower_char c = "n"%char <-> c = "n"%char \/ c = "N"%char) /\
  (lower_char c = "g"%char <-> c = "g"%char \/ c = "G"%char).
Proof.
  destruct c as [[] [] [] [] [] [] [] []]; vm_compute;
    repeat split; try (intros H; discriminate H); try (intros [H|H]; discriminate H);
    auto.
Qed.

Lemma lower_pong (x : string) : lower x = "pong" <-> spells_pong x.
Proof.
  split.
  - destruct x as [|c1 [|c2 [|c3 [|c4 [|c5 x]]]]]; try discriminate.
    destruct (lower_char_pong c1) as (P1 & _ & _ & _).
    destruct (lower_char_pong c2) as (_ & P2 & _ & _).
    destruct (lower_char_pong c3) as (_ & _ & P3 & _).
    destruct (lower_char_pong c4) as (_ & _ & _ & P4).
    simpl. intros H. injection H as E1 E2 E3 E4.
    exists c1, c2, c3, c4. split; [reflexivity|].
    split; [apply P1|split; [apply P2|split; [apply P3|apply P4]]]; assumption.
  - intros (c1 & c2 & c3 & c4 & -> & H1 & H2 & H3 & H4).
    apply (proj1 (lower_char_pong c1)) in H1.
    apply (proj1 (proj2 (lower_char_pong c2))) in H2.
    apply (proj1 (proj2 (proj2 (lower_char_pong c3)))) in H3.
    apply (proj2 (proj2 (proj2 (lower_char_pong c4)))) in H4.
    simpl. rewrite H1, H2, H3, H4. reflexivity.
Qed.

(** The model of [str.lower], [str.strip] and [in] on sample texts. *)
Example lower_examples :
  lower "PONG" = "pong" /\ lower "PoNg" = "pong" /\
  lower "{status: Pong, up: 3}" = "{status: pong, up: 3}" /\
  lower "@[`{AZaz09" = "@[`{azaz09" /\
  strip (String (ascii_of_nat 9) "  PONG " +:+ String (ascii_of_nat 10) "") = "PONG" /\
  contains "pong" "ping pong" = true /\ contains "pong" "pon g" = false.
Proof. repeat split; vm_compute; reflexivity. Qed.

(** C8. The probe never raises.  It reports success exactly when the
    request returned a body that, lowercased, equals [pong] once stripped
    or contains [pong]; equivalently, when some part of the body is the
    token [pong] up to letter case, that is, one of its sixteen spellings
    [pong], [Pong], ..., [PONG].  A request that raises (network error,
    timeout, undecodable body) reports failure. *)
Theorem check_app_alive_pong (w : World) :
  exists b w',
    run _check_app_alive w = (Done b, w') /\
    (b = true <->
     exists data q,
       probe_q (oracle w) = inr data :: q /\
       (lower (strip data) = "pong" \/
        exists pre suf, lower data = pre +:+ "pong" +:+ suf)) /\
    (b = true <->
     exists data q,
       probe_q (oracle w) = inr data :: q /\ contains_token "pong" data) /\
    (b = true <->
     exists data q pre x suf,
       probe_q (oracle w) = inr data :: q /\
       data = pre +:+ x +:+ suf /\ spells_pong x) /\
    (forall e q, probe_q (oracle w) = inl e :: q -> b = false) /\
    (probe_q (oracle w) = [] -> b = false).
Proof.
  rewrite run_check_app_alive.
  destruct (probe_q (oracle w)) as [|[e|data] q] eqn:E.
  - eexists _, _. split; [reflexivity|].
    repeat split; try discriminate; intros (? & ? & H); decompose [ex and] H;
      discriminate.
  - eexists _, _. split; [reflexivity|].
    repeat split; try discriminate; intros (? & ? & H); decompose [ex and] H;
      discriminate.
  - eexists _, _. split; [reflexivity|].
    assert (Hb : String.eqb (lower (strip data)) "pong" || contains "pong" (lower data) = true
                 <-> contains "pong" (lower data) = true).
    { rewrite orb_true_iff, String.eqb_eq. split; [|tauto].
      intros [H|H]; [apply stripped_pong_contained|]; assumption. }
    split; [|split; [|split; [|split; [discriminate|discriminate]]]].
    + rewrite Hb, contains_spec. split.
      * intros H. exists data, q. auto.
      * intros (d & q' & Hd & [H|H]); injection Hd as <- <-; [|assumption].
        apply contains_spec, stripped_pong_contained, H.
    + rewrite Hb, contains_lower_token. split.
      * intros H. exists data, q. auto.
      * intros (d & q' & Hd & H). injection Hd as <- <-. assumption.
    + rewrite Hb, contains_lower_token. unfold contains_token. split.
      * intros (pre & x & suf & Hd & Hx). exists data, q, pre, x, suf.
        apply lower_pong in Hx. auto.
      * intros (d & q' & pre & x & suf & Hd & Hx & Hs). injection Hd as <- <-.
        exists pre, x, suf. apply lower_pong in Hs. auto.
Qed.


(** ** What an action leaves alone *)

Lemma count_events_snoc (f : event -> bool) (l : list event) (e : event) :
  count_events f (l ++ [e]) = (count_events f l + if f e then 1 else 0)%nat.
Proof.
  unfold count_events. rewrite List.filter_app, length_app. simpl.
  destruct (f e); reflexivity.
Qed.

Lemma reap_trace (h : nat) (c : Z) (w : World) : trace (reap h c w) = trace w.
Proof. unfold reap. destruct (procs w !! h); auto. Qed.

Lemma reap_failures (h : nat) (c : Z) (w : World) :
  consecutive_failures (reap h c w) = consecutive_failures w.
Proof. unfold reap. destruct (procs w !! h); auto. Qed.

Ltac perform_cases :=
  repeat match goal with
    | H : Some (poll ?h ?w) = Some _ |- _ =>
        let F := fresh "F" in
        let Hf := fresh "Hf" in
        let Ht := fresh "Ht" in
        injection H as H; pose proof (poll_frame h w) as F; rewrite H in F;
        simpl in F; clear H; destruct F as (_ & _ & _ & _ & Hf & _ & _ & Ht & _);
        rewrite ?Hf, ?Ht
    | H : Some _ = Some _ |- _ => injection H as <- <-
    | H : context [match ?x with _ => _ end] |- _ => destruct x; simpl in H
    end;
  simpl; rewrite ?reap_trace, ?reap_failures; simpl.

Lemma perform_stops {X : Type} (a : action X) (w w' : World) (x : X) :
  is_enter a = false -> perform a w = Some (x, w') -> stops w' = stops w.
Proof.
  unfold stops. destruct a; simpl; intros Ha H; try discriminate;
    perform_cases; rewrite ?count_events_snoc; simpl; auto; try discriminate.
Qed.

Lemma perform_probes {X : Type} (a : action X) (w w' : World) (x : X) :
  is_probe a = false -> perform a w = Some (x, w') -> probes w' = probes w.
Proof.
  unfold probes. destruct a; simpl; intros Ha H; try discriminate;
    perform_cases; rewrite ?count_events_snoc; simpl; auto; try discriminate.
Qed.

Lemma perform_failures {X : Type} (a : action X) (w w' : World) (x : X) :
  is_set_failures a = false -> perform a w = Some (x, w') ->
  consecutive_failures w' = consecutive_failures w.
Proof.
  destruct a; simpl; intros Ha H; try discriminate;
    perform_cases; auto; try discriminate.
Qed.


Lemma uses_weaken (ok1 ok2 : forall X : Type, action X -> bool) {R : Type} (p : prog R) :
  (forall X (a : action X), ok1 X a = true -> ok2 X a = true) ->
  uses ok1 p -> uses ok2 p.
Proof. intros Hok Hp. induction Hp; constructor; auto. Qed.

(** A quiet program leaves the counters of the monitor and the lock alone. *)
Lemma quiet_run {R : Type} (p : prog R) (w : World) :
  uses quiet p ->
  (run p w).1 <> Blocked /\
  lock (run p w).2 = lock w /\
  stops (run p w).2 = stops w /\
  probes (run p w).2 = probes w /\
  consecutive_failures (run p w).2 = consecutive_failures w.
Proof.
  intros Hp. split.
  { apply lock_free_run. eapply uses_weaken; [|exact Hp].
    unfold quiet. intros X a H. apply andb_true_iff in H. tauto. }
  apply (uses_run quiet
           (fun w w' => lock w' = lock w /\ stops w' = stops w /\
                        probes w' = probes w /\
                        consecutive_failures w' = consecutive_failures w)); auto.
  - intros w1 w2 w3 (-> & -> & -> & ->) (-> & -> & -> & ->). auto.
  - unfold quiet. intros X a v x v' Hq Hv.
    repeat (apply andb_true_iff in Hq as [Hq ?]).
    repeat match goal with H : negb _ = true |- _ => apply negb_true_iff in H end.
    split; [|split; [|split]].
    + destruct (lock_free_perform a v) as (x' & v'' & Hv' & Hl); [assumption|].
      congruence.
    + eapply perform_stops; eauto.
    + eapply perform_probes; eauto.
    + eapply perform_failures; eauto.
Qed.

Lemma stop_checked_quiet : uses quiet stop_checked.
Proof. uses_tac. Qed.

Lemma is_running_quiet : uses quiet is_running.
Proof. uses_tac. Qed.

Lemma run_stop (w : World) :
  lock w = false ->
  run stop w = run (release_after stop_checked) (entered CallStop w).
Proof. intros H. unfold stop. rewrite run_with_lock by assumption. reflexivity. Qed.

(** [stop] returns to a caller that finds the lock free. *)
Lemma stop_returns (w : World) :
  lock w = false -> exists r, (run stop w).1 = Done r.
Proof.
  intros Hl. destruct (is_running_total w) as ([|] & w1 & Hr).
  - rewrite (stop_when_running w w1 Hl Hr).
    pose proof (stop_sequence_not_blocked (entered CallStop w1)) as Hnb.
    destruct (run stop_sequence (entered CallStop w1)) as [[d|e|] w2]; simpl; eauto.
    contradiction Hnb. reflexivity.
  - rewrite (stop_when_idle w w1 Hl Hr). simpl. eauto.
Qed.

(** One [stop] enters once, probes nothing and keeps the failure counter. *)
Lemma stop_effect (w : World) :
  lock w = false ->
  exists r w',
    run stop w = (Done r, w') /\ lock w' = false /\
    stops w' = S (stops w) /\ probes w' = probes w /\
    consecutive_failures w' = consecutive_failures w.
Proof.
  intros Hl. destruct (stop_returns w Hl) as [r Hr].
  exists r, (run stop w).2. split; [destruct (run stop w); simpl in *; congruence|].
  rewrite run_stop, run_release_after in * by assumption.
  destruct (quiet_run stop_checked (entered CallStop w) stop_checked_quiet)
    as (_ & F1 & F2 & F3 & F4).
  destruct (run stop_checked (entered CallStop w)) as [[d|e|] w2]; simpl in *;
    try discriminate.
  unfold stops, probes in *. simpl in *. rewrite count_events_snoc in F2, F3.
  simpl in *. repeat split; auto; lia.
Qed.


(** ** The monitor loop *)

Lemma check_app_alive_effect (w : World) :
  exists b w',
    run _check_app_alive w = (Done b, w') /\ lock w' = lock w /\
    stops w' = stops w /\ probes w' = S (probes w) /\
    consecutive_failures w' = consecutive_failures w.
Proof.
  rewrite run_check_app_alive. unfold stops, probes.
  destruct (probe_q (oracle w)) as [|[e|data] q]; eexists _, _;
    (split; [reflexivity|]); simpl; rewrite !count_events_snoc; simpl;
    repeat split; lia.
Qed.

Opaque stop.

(** What one iteration of the loop does to the failure counter, and how
    often it probes and enters [stop]. *)
Lemma monitor_cycle_spec (w : World) :
  lock w = false ->
  exists w',
    run monitor_cycle w = (Done tt, w') /\ lock w' = false /\
    match probe_result w with
    | Some true =>
        consecutive_failures w' = 0 /\ stops w' = stops w /\
        probes w' = S (probes w)
    | Some false =>
        probes w' = S (probes w) /\
        if (max_failures <=? consecutive_failures w + 1)%Z
        then consecutive_failures w' = 0 /\ stops w' = S (stops w)
        else consecutive_failures w' = consecutive_failures w + 1 /\
             stops w' = stops w
    | None =>
        consecutive_failures w' = consecutive_failures w /\
        stops w' = stops w /\ probes w' = probes w
    end.
Proof.
  intros Hl. unfold monitor_cycle, probe_result.
  rewrite run_try_except, run_bind.
  destruct (quiet_run is_running w is_running_quiet) as (_ & L1 & S1 & P1 & C1).
  destruct (is_running_total w) as (b & w1 & Hr). rewrite Hr in *. simpl in L1, S1, P1, C1.
  cbv beta iota. destruct b.
  - rewrite run_bind, run_bind.
    destruct (check_app_alive_effect w1) as (alive & w2 & -> & L2 & S2 & P2 & C2).
    cbv beta iota. destruct alive.
    + simpl. destruct (0 <? consecutive_failures w2)%Z; simpl;
        eexists; (split; [reflexivity|]); unfold stops, probes in *; simpl;
        rewrite ?count_events_snoc; simpl; repeat split; try congruence; lia.
    + simpl. rewrite C2, C1.
      destruct (max_failures <=? consecutive_failures w + 1)%Z.
      * simpl. rewrite run_bind.
        match goal with |- context [run stop ?v] => 
          destruct (stop_effect v) as (r & w3 & -> & L3 & S3 & P3 & C3);
            [simpl; congruence|] end.
        simpl. eexists. split; [reflexivity|].
        unfold stops, probes in *. simpl in *.
        rewrite ?count_events_snoc in *. simpl in *.
        repeat split; try congruence; lia.
      * simpl. eexists. split; [reflexivity|].
        unfold stops, probes in *. simpl.
        repeat split; try congruence; lia.
  - simpl. eexists. split; [reflexivity|]. repeat split; congruence.
Qed.

Transparent stop.


(** After [stop] nothing runs. *)
Lemma stop_idle_after (w : World) :
  lock w = false ->
  exists r w',
    run stop w = (Done r, w') /\ lock w' = false /\ idle w' /\
    (r = not_running_dict \/ process w' = None).
Proof.
  intros Hl. destruct (is_running_total w) as ([|] & w1 & Hr).
  - rewrite (stop_when_running w w1 Hl Hr).
    pose proof (stop_sequence_not_blocked (entered CallStop w1)) as Hnb.
    destruct (run stop_sequence (entered CallStop w1)) as [[d|e|] w2] eqn:Es;
      [| |contradiction Hnb; reflexivity].
    + destruct (stop_sequence_done _ _ _ Es) as [-> Hp].
      exists stopped_dict, (set_lock false w2). split; [reflexivity|].
      split; [reflexivity|]. split; [unfold idle; simpl; rewrite Hp; exact I|].
      right. exact Hp.
    + exists (error_dict (exn_str e)), (set_lock false (set_process None w2)).
      split; [reflexivity|]. split; [reflexivity|]. split; [exact I|].
      right. reflexivity.
  - rewrite (stop_when_idle w w1 Hl Hr).
    destruct (is_running_false _ _ Hr) as [Hi Hp].
    pose proof (is_running_frame w) as F. rewrite Hr in F. cbn [snd] in F.
    destruct F as (_ & F2 & _).
    exists not_running_dict, (emit (EvEnter CallStop) w1). split; [reflexivity|].
    split; [simpl; congruence|].
    split; [eapply idle_frame; [| |exact Hi]; reflexivity|]. left. reflexivity.
Qed.

(** The probe of a cycle leaves the supervisor and the counter alone and
    adds the request to the trace. *)
Lemma probed_frame (w : World) :
  process (probed w) = process w /\ lock (probed w) = lock w /\
  consecutive_failures (probed w) = consecutive_failures w /\
  trace (probed w) = trace w ++ [EvProbe APP_PING_URL].
Proof.
  unfold probed. destruct (is_running_frame w) as (F1 & F2 & _ & _ & F5 & _ & _ & F8 & _).
  rewrite run_check_app_alive.
  destruct (probe_q (oracle (run is_running w).2)) as [|[e|data] q];
    cbn [snd process lock consecutive_failures trace emit set_oracle];
    rewrite F8; auto.
Qed.

(** One iteration of the loop, world by world. *)
Lemma monitor_cycle_run (w : World) :
  lock w = false ->
  exists w',
    run monitor_cycle w = (Done tt, w') /\
    match probe_result w with
    | Some true =>
        w' = set_consecutive_failures 0
               (if (0 <? consecutive_failures w)%Z
                then emit (EvLog LInfo MsgReconnected) (probed w) else probed w)
    | Some false =>
        if (max_failures <=? consecutive_failures w + 1)%Z
        then exists r v',
               run stop (before_stop w) = (Done r, v') /\
               lock v' = false /\ idle v' /\
               (r = not_running_dict \/ process v' = None) /\
               w' = set_consecutive_failures 0
                      (emit (EvLog LInfo (MsgTunnelStopped r)) v')
        else w' = set_consecutive_failures (consecutive_failures w + 1) (probed w)
    | None => w' = (run is_running w).2
    end.
Proof.
  intros Hl. unfold monitor_cycle, probe_result, before_stop.
  destruct (probed_frame w) as (_ & PL & PC & _). unfold probed in *.
  rewrite run_try_except, run_bind.
  destruct (is_running_total w) as (b & w1 & Hr). rewrite Hr in *. cbn [snd] in *.
  cbv beta iota. destruct b; [|simpl; eexists; split; reflexivity].
  rewrite run_bind, run_bind.
  destruct (check_app_alive_effect w1) as (alive & w2 & Hc & _).
  rewrite Hc in *. cbn [snd] in *. cbv beta iota. destruct alive.
  - cbn -[stop]. rewrite PC.
    destruct (0 <? consecutive_failures w)%Z; eexists; split; reflexivity.
  - cbn -[stop]. rewrite PC.
    destruct (max_failures <=? consecutive_failures w + 1)%Z;
      [|eexists; split; reflexivity].
    cbn -[stop]. rewrite run_bind.
    match goal with |- context [run stop ?v] =>
      destruct (stop_idle_after v) as (r & v' & Hs & Hl' & Hi & Hp);
        [simpl; congruence|] end.
    rewrite Hs. cbn -[stop]. eexists. split; [reflexivity|].
    exists r, v'. auto.
Qed.

(** What one iteration does, case by case. *)
Lemma monitor_cycle_facts (w : World) :
  lock w = false ->
  exists w',
    run monitor_cycle w = (Done tt, w') /\
    (probe_result w = Some true \/
     (probe_result w = Some false /\ consecutive_failures w + 1 < 3) ->
     consecutive_failures w' =
       (if probe_result w is Some true then 0 else consecutive_failures w + 1) /\
     stops w' = stops w /\ process w' = process w /\
     terminates w' = terminates w /\ kills w' = kills w) /\
    (probe_result w = Some false -> 3 <= consecutive_failures w + 1 ->
     consecutive_failures w' = 0 /\ stops w' = S (stops w) /\
     exists r v',
       run stop (before_stop w) = (Done r, v') /\
       w' = set_consecutive_failures 0 (emit (EvLog LInfo (MsgTunnelStopped r)) v') /\
       (r = not_running_dict \/ process w' = None) /\
       run get_status w' = (Done stopped_dict, w')).
Proof.
  intros Hl. destruct (monitor_cycle_run w Hl) as (w' & Hrun & Hw).
  exists w'. split; [exact Hrun|].
  destruct (probed_frame w) as (PP & PL & PC & PT).
  unfold max_failures in Hw. split.
  - intros [Hp|[Hp Hlt]]; rewrite Hp in Hw |- *.
    + subst w'. unfold stops, terminates, kills.
      destruct (0 <? consecutive_failures w)%Z; simpl; rewrite PP, PT;
        rewrite !count_events_snoc; simpl; repeat split; lia.
    + destruct (Z.leb_spec 3 (consecutive_failures w + 1)); [lia|].
      subst w'. unfold stops, terminates, kills. simpl. rewrite PP, PT.
      rewrite !count_events_snoc. simpl. repeat split; lia.
  - intros Hp Hge. rewrite Hp in Hw.
    destruct (Z.leb_spec 3 (consecutive_failures w + 1)); [|lia].
    destruct Hw as (r & v' & Hs & Hl' & Hi & Hr & ->).
    split; [reflexivity|]. split.
    + destruct (stop_effect (before_stop w)) as (r' & v'' & Hs' & _ & S' & _);
        [simpl; congruence|].
      rewrite Hs in Hs'. injection Hs' as _ <-.
      unfold stops in *. simpl in *. rewrite PT in S'.
      rewrite !count_events_snoc in *. simpl in *. lia.
    + exists r, v'. split; [exact Hs|]. split; [reflexivity|].
      split; [exact Hr|]. apply get_status_idle.
      eapply idle_frame; [| |exact Hi]; reflexivity.
Qed.

(** C6. With the threshold 3, one iteration of the monitor loop whose probe
    succeeds resets the failure counter to 0, and one whose probe fails
    without reaching the threshold increments it; neither calls [stop]:
    the handle of the supervisor is left as it was and [terminate] is not
    called.  When a failed probe makes the counter reach 3, the iteration
    calls [stop] exactly once: its end is the world [stop] left, with the
    answer of [stop] logged and the counter at 0 whatever that answer was,
    and [status] then answers [stopped].  Hence, from a counter at 0, two
    failed probes followed by a successful one call no [stop] and leave the
    counter at 0, and three failed probes call [stop] exactly once, in the
    third iteration, and leave the counter at 0.  The worlds [w2] and [w3]
    in which the second and third iteration begin are any worlds that carry
    the counter over. *)
Theorem monitor_threshold (w : World) :
  lock w = false ->
  exists w',
    run monitor_cycle w = (Done tt, w') /\
    (probe_result w = Some true ->
     consecutive_failures w' = 0 /\ stops w' = stops w) /\
    (probe_result w = Some false -> consecutive_failures w + 1 < 3 ->
     consecutive_failures w' = consecutive_failures w + 1 /\ stops w' = stops w) /\
    (probe_result w = Some false -> 3 <= consecutive_failures w + 1 ->
     consecutive_failures w' = 0 /\ stops w' = S (stops w)) /\
    (forall (w2 w3 : World) (third : bool),
        consecutive_failures w = 0 ->
        probe_result w = Some false ->
        lock w2 = false ->
        consecutive_failures w2 = consecutive_failures w' ->
        probe_result w2 = Some false ->
        lock w3 = false ->
        consecutive_failures w3 = consecutive_failures (cycle w2) ->
        probe_result w3 = Some third ->
        stops w' = stops w /\ stops (cycle w2) = stops w2 /\
        consecutive_failures (cycle w3) = 0 /\
        stops (cycle w3) = (if third then stops w3 else S (stops w3)) /\
        process w' = process w /\ process (cycle w2) = process w2 /\
        terminates w' = terminates w /\ terminates (cycle w2) = terminates w2 /\
        if third
        then process (cycle w3) = process w3 /\ terminates (cycle w3) = terminates w3
        else exists r v',
               run stop (before_stop w3) = (Done r, v') /\
               cycle w3 = set_consecutive_failures 0
                            (emit (EvLog LInfo (MsgTunnelStopped r)) v') /\
               run get_status (cycle w3) = (Done stopped_dict, cycle w3)) /\
    (probe_result w = Some true \/
     (probe_result w = Some false /\ consecutive_failures w + 1 < 3) ->
     process w' = process w /\ terminates w' = terminates w /\ kills w' = kills w) /\
    (probe_result w = Some false -> 3 <= consecutive_failures w + 1 ->
     exists r v',
       run stop (before_stop w) = (Done r, v') /\
       w' = set_consecutive_failures 0 (emit (EvLog LInfo (MsgTunnelStopped r)) v') /\
       (r = not_running_dict \/ process w' = None) /\
       run get_status w' = (Done stopped_dict, w')).
Proof.
  intros Hl. destruct (monitor_cycle_facts w Hl) as (w' & Hrun & Hquiet & Hstop).
  exists w'. split; [exact Hrun|].
  split; [|split; [|split; [|split; [|split]]]].
  - intros Hp. destruct Hquiet as (H1 & H2 & _); [left; exact Hp|].
    rewrite Hp in H1. auto.
  - intros Hp Hlt. destruct Hquiet as (H1 & H2 & _); [right; auto|].
    rewrite Hp in H1. auto.
  - intros Hp Hge. destruct (Hstop Hp Hge) as (H1 & H2 & _). auto.
  - intros w2 w3 third Hc Hp Hl2 Hc2 Hp2 Hl3 Hc3 Hp3.
    destruct Hquiet as (Q1 & Q2 & Q3 & Q4 & _); [right; split; [exact Hp|lia]|].
    rewrite Hp, Hc in Q1. simpl in Q1.
    destruct (monitor_cycle_facts w2 Hl2) as (w2' & Hrun2 & Hquiet2 & _).
    assert (E2 : cycle w2 = w2') by (unfold cycle; rewrite Hrun2; reflexivity).
    rewrite E2 in *.
    destruct Hquiet2 as (R1 & R2 & R3 & R4 & _); [right; split; [exact Hp2|lia]|].
    rewrite Hp2, Hc2, Q1 in R1. simpl in R1.
    destruct (monitor_cycle_facts w3 Hl3) as (w3' & Hrun3 & Hquiet3 & Hstop3).
    assert (E3 : cycle w3 = w3') by (unfold cycle; rewrite Hrun3; reflexivity).
    rewrite E3. rewrite Hc3, R1 in Hquiet3, Hstop3.
    do 2 (split; [assumption|]).
    destruct third.
    + destruct Hquiet3 as (T1 & T2 & T3 & T4 & _); [left; exact Hp3|].
      rewrite Hp3 in T1. auto 10.
    + destruct (Hstop3 Hp3) as (T1 & T2 & r & v' & T3 & T4 & _ & T5); [simpl; lia|].
      split; [exact T1|]. split; [exact T2|]. do 4 (split; [assumption|]).
      exists r, v'. auto.
  - intros Hp. destruct Hquiet as (_ & _ & H3 & H4 & H5); [exact Hp|]. auto.
  - intros Hp Hge. destruct (Hstop Hp Hge) as (_ & _ & H). exact H.
Qed.


Lemma keeps_failures_run {R : Type} (p : prog R) (w : World) :
  uses keeps_failures p -> consecutive_failures (run p w).2 = consecutive_failures w.
Proof.
  apply (uses_run keeps_failures
           (fun w w' => consecutive_failures w' = consecutive_failures w)); auto.
  - congruence.
  - unfold keeps_failures. intros X a v x v' H Hv. apply negb_true_iff in H.
    eapply perform_failures; eauto.
Qed.

(** C10. An iteration of the monitor loop that finds the tunnel not running
    sends no probe, enters no [stop] and leaves the failure counter as it
    was.  An iteration takes a positive counter back to 0 only after a
    successful probe or by entering [stop] at the threshold; [start], [stop]
    and [status] of the supervisor never change it; starting a monitor that
    is not running sets it to 0.  So failures counted before the tunnel was
    stopped are still counted when a tunnel runs again: with two of them
    carried over, a single failed probe enters [stop], as in the run
    [carry0] .. [carry7]. *)
Theorem monitor_skips_idle_tunnel (w w1 : World) :
  lock w = false ->
  run is_running w = (Done false, w1) ->
  exists w',
    run monitor_cycle w = (Done tt, w') /\
    consecutive_failures w' = consecutive_failures w /\
    probes w' = probes w /\ stops w' = stops w /\
    (forall v,
        lock v = false -> 0 < consecutive_failures v ->
        consecutive_failures (cycle v) = 0 ->
        probe_result v = Some true \/
        (probe_result v = Some false /\ max_failures <= consecutive_failures v + 1 /\
         stops (cycle v) = S (stops v))) /\
    (forall j u a v,
        consecutive_failures (run (start j u a) v).2 = consecutive_failures v) /\
    (forall v, consecutive_failures (run stop v).2 = consecutive_failures v) /\
    (forall v, consecutive_failures (run get_status v).2 = consecutive_failures v) /\
    (forall v,
        monitor_is_running v = false ->
        consecutive_failures (run monitor_start v).2 = 0) /\
    (forall v,
        lock v = false -> consecutive_failures v = 2 -> probe_result v = Some false ->
        stops (cycle v) = S (stops v) /\ consecutive_failures (cycle v) = 0) /\
    (consecutive_failures carry3 = 2 /\
     (run get_status carry4).1 = Done stopped_dict /\
     consecutive_failures carry5 = 2 /\ probes carry5 = probes carry4 /\
     (run get_status carry6).1 =
       Done [("status", VStr "running"); ("pid", VInt 102);
             ("singbox_path", VStr (exe_path win_join "bob" "app"));
             ("config_path", VStr (cfg_path win_join "bob" "app"))] /\
     consecutive_failures carry6 = 2 /\
     probes carry7 = S (probes carry6) /\ stops carry7 = S (stops carry6) /\
     (run get_status carry7).1 = Done stopped_dict).
Proof.
  intros Hl Hr. destruct (monitor_cycle_spec w Hl) as (w' & Hrun & _ & Hspec).
  exists w'. split; [exact Hrun|].
  unfold probe_result in Hspec. rewrite Hr in Hspec.
  destruct Hspec as (H1 & H2 & H3).
  repeat (split; [assumption|]).
  split; [|split; [|split; [|split; [|split; [|split]]]]].
  - intros v Hv Hne H0.
    destruct (monitor_cycle_spec v Hv) as (v' & Hrunv & _ & Hv').
    assert (E : cycle v = v') by (unfold cycle; rewrite Hrunv; reflexivity).
    rewrite E in *. destruct (probe_result v) as [[|]|].
    + left. reflexivity.
    + right. destruct Hv' as [_ Hv'].
      destruct (Z.leb_spec max_failures (consecutive_failures v + 1)).
      * tauto.
      * unfold max_failures in *. lia.
    + destruct Hv' as [Hv' _]. lia.
  - intros j u a v. apply keeps_failures_run. uses_tac.
  - intros v. apply keeps_failures_run. uses_tac.
  - intros v. apply keeps_failures_run. uses_tac.
  - intros v Hv. unfold monitor_start. simpl. rewrite Hv. reflexivity.
  - intros v Hv Hc Hp.
    destruct (monitor_cycle_spec v Hv) as (v' & Hrunv & _ & Hv').
    assert (E : cycle v = v') by (unfold cycle; rewrite Hrunv; reflexivity).
    rewrite E, Hp, Hc in *. simpl in Hv'. tauto.
  - vm_compute. repeat split; reflexivity.
Qed.


(** ** The control API *)



(** ** Interleaved calls *)

Lemma run_all_app {R : Type} (ps qs : list (prog R)) (w : World) :
  run_all (ps ++ qs) w =
  ((run_all ps w).1 ++ (run_all qs (run_all ps w).2).1,
   (run_all qs (run_all ps w).2).2).
Proof.
  revert w. induction ps as [|p ps IH]; intros w; simpl.
  - destruct (run_all qs w); reflexivity.
  - rewrite IH. reflexivity.
Qed.

Lemma hist_lookup_snoc (i k : nat) (o : outcome dict) (hist : history) :
  hist_lookup i (hist ++ [(k, o)]) =
  match hist_lookup i hist with
  | Some o' => Some o'
  | None => if decide (k = i) then Some o else None
  end.
Proof.
  induction hist as [|[k' o'] hist IH]; simpl; [reflexivity|].
  destruct (decide (k' = i)); auto.
Qed.

Lemma hist_lookup_None (i : nat) (hist : history) :
  hist_lookup i hist = None <-> i ∉ hist.*1.
Proof.
  induction hist as [|[k o] hist IH]; simpl.
  - split; [intros _; apply not_elem_of_nil|reflexivity].
  - rewrite not_elem_of_cons. destruct (decide (k = i)) as [->|Hne].
    + split; [discriminate|]. intros [? _]. congruence.
    + rewrite IH. split; [intros ?; split; auto|tauto].
Qed.

Lemma replay_snoc (bodies : list (prog dict)) (hist : history) (i : nat)
    (o : outcome dict) (b : prog dict) (w0 ws w' : World) :
  run_all (replay bodies hist) w0 = (hist.*2, ws) ->
  bodies !! i = Some b ->
  run (with_lock b) ws = (o, w') ->
  run_all (replay bodies (hist ++ [(i, o)])) w0 = ((hist ++ [(i, o)]).*2, w').
Proof.
  intros Hrun Hb Hw. unfold replay in *. rewrite !fmap_app, run_all_app, Hrun.
  cbn [fst snd fmap list_fmap run_all]. rewrite Hb.
  change (default (Ret []) (Some b)) with b. rewrite Hw. reflexivity.
Qed.

Section Serial.
Variable w0 : World.
Variable bodies : list (prog dict).
Hypothesis bodies_lock_free : Forall lock_free bodies.
Hypothesis lock_w0 : lock w0 = false.

Lemma serial_init : serial w0 bodies (w0, spawn ∘ with_lock <$> bodies).
Proof.
  exists [], None, w0. simpl.
  split; [reflexivity|]. split; [assumption|]. split; [constructor|].
  split; [constructor|]. split; [rewrite length_fmap; reflexivity|].
  split; [|reflexivity].
  intros i. unfold thread_at. rewrite list_lookup_fmap.
  destruct (bodies !! i); reflexivity.
Qed.

Lemma serial_step (i : nat) (c : config) :
  serial w0 bodies c -> serial w0 bodies (tstep i c).
Proof.
  intros (hist & cur & ws & Hrun & Hlws & Hhist & Hnd & Hlen & Hts & Hcur).
  destruct c as [w ts]. simpl in *. unfold tstep. simpl.
  rewrite Hts. unfold thread_at.
  destruct (bodies !! i) as [b|] eqn:Eb;
    [|exists hist, cur, ws; simpl; auto 10].
  destruct (hist_lookup i hist) as [o|] eqn:Eh.
  { (* thread [i] has completed *)
    destruct o; simpl; exists hist, cur, ws; simpl; auto 10. }
  destruct cur as [[k p]|].
  - destruct Hcur as (Hlw & Hp & Hk & bk & Ebk & Hsame).
    destruct (decide (k = i)) as [->|Hne].
    + (* thread [i] is in its body *)
      rewrite Eb in Ebk. injection Ebk as <-.
      destruct Hp as [r|e|X a f Ha Hf]; simpl.
      * (* it releases the lock after returning *)
        exists (hist ++ [(i, Done r)]), None, (set_lock false w). simpl.
        split. { eapply replay_snoc; eauto. }
        split; [reflexivity|].
        split. { apply Forall_app. split; [assumption|]. constructor; [|constructor].
                 simpl. split; [discriminate|]. eapply lookup_lt_Some; eauto. }
        split. { rewrite fmap_app. apply NoDup_app. split; [assumption|].
                 split; [|apply NoDup_singleton].
                 intros x Hx Hx'. apply list_elem_of_singleton in Hx'. subst x.
                 apply hist_lookup_None in Eh. auto. }
        split; [rewrite length_insert; assumption|].
        split; [|reflexivity].
        intros n. unfold thread_at. rewrite hist_lookup_snoc.
        destruct (decide (i = n)) as [->|Hn].
        -- rewrite list_lookup_insert_eq by (rewrite Hlen; eapply lookup_lt_Some; eauto).
           rewrite Eb, Eh. reflexivity.
        -- rewrite list_lookup_insert_ne by assumption. rewrite Hts. unfold thread_at.
           destruct (bodies !! n); [|reflexivity].
           destruct (hist_lookup n hist); [reflexivity|].
           destruct (decide (i = n)); [contradiction|reflexivity].
      * (* it releases the lock after raising *)
        exists (hist ++ [(i, Raised e)]), None, (set_lock false w). simpl.
        split. { eapply replay_snoc; eauto. }
        split; [reflexivity|].
        split. { apply Forall_app. split; [assumption|]. constructor; [|constructor].
                 simpl. split; [discriminate|]. eapply lookup_lt_Some; eauto. }
        split. { rewrite fmap_app. apply NoDup_app. split; [assumption|].
                 split; [|apply NoDup_singleton].
                 intros x Hx Hx'. apply list_elem_of_singleton in Hx'. subst x.
                 apply hist_lookup_None in Eh. auto. }
        split; [rewrite length_insert; assumption|].
        split; [|reflexivity].
        intros n. unfold thread_at. rewrite hist_lookup_snoc.
        destruct (decide (i = n)) as [->|Hn].
        -- rewrite list_lookup_insert_eq by (rewrite Hlen; eapply lookup_lt_Some; eauto).
           rewrite Eb, Eh. reflexivity.
        -- rewrite list_lookup_insert_ne by assumption. rewrite Hts. unfold thread_at.
           destruct (bodies !! n); [|reflexivity].
           destruct (hist_lookup n hist); [reflexivity|].
           destruct (decide (i = n)); [contradiction|reflexivity].
      * (* it performs the next action of its body *)
        apply negb_true_iff in Ha.
        destruct (lock_free_perform a w Ha) as (x & w' & Hperf & Hl'). rewrite Hperf.
        exists hist, (Some (i, f x)), ws. simpl.
        repeat (split; [assumption|]).
        split; [rewrite length_insert; assumption|].
        split.
        { intros n. unfold thread_at. destruct (decide (i = n)) as [->|Hn].
          - rewrite list_lookup_insert_eq by (rewrite Hlen; eapply lookup_lt_Some; eauto).
            rewrite Eb, Eh. destruct a; try discriminate; reflexivity.
          - rewrite list_lookup_insert_ne by assumption. rewrite Hts. unfold thread_at.
            destruct (bodies !! n); [|reflexivity].
            destruct (hist_lookup n hist); [reflexivity|].
            destruct (decide (i = n)); [contradiction|reflexivity]. }
        split; [congruence|]. split; [apply Hf|]. split; [assumption|].
        exists b. split; [assumption|]. rewrite <- Hsame. simpl. rewrite Hperf. reflexivity.
    + (* thread [i] waits for the lock, which thread [k] holds *)
      unfold with_lock. simpl. rewrite Hlw.
      exists hist, (Some (k, p)), ws. simpl. eauto 15.
  - (* thread [i] takes the free lock *)
    subst w. unfold with_lock. simpl. rewrite Hlws.
    exists hist, (Some (i, b)), ws. simpl.
    repeat (split; [assumption|]).
    split; [rewrite length_insert; assumption|].
    split.
    { intros n. unfold thread_at. destruct (decide (i = n)) as [->|Hn].
      - rewrite list_lookup_insert_eq by (rewrite Hlen; eapply lookup_lt_Some; eauto).
        rewrite Eb, Eh. reflexivity.
      - rewrite list_lookup_insert_ne by assumption. rewrite Hts. unfold thread_at.
        destruct (bodies !! n); [|reflexivity].
        destruct (hist_lookup n hist); reflexivity. }
    split; [reflexivity|]. split.
    { eapply Forall_lookup_1 in bodies_lock_free; eauto. }
    split; [assumption|]. exists b. split; [assumption|].
    simpl. rewrite Hlws. reflexivity.
Qed.

Lemma serial_exec (sched : list nat) (c : config) :
  serial w0 bodies c -> serial w0 bodies (exec sched c).
Proof.
  revert c. induction sched as [|i sched IH]; intros c Hc; simpl; [assumption|].
  apply IH, serial_step, Hc.
Qed.

End Serial.




Lemma release_after_unfinished {R : Type} (p : prog R) :
  exists X (a : action X) k, release_after p = Act a k.
Proof. destruct p; simpl; eauto. Qed.

Lemma hist_lookup_elem (k : nat) (o : outcome dict) (hist : history) :
  NoDup hist.*1 -> (k, o) ∈ hist -> hist_lookup k hist = Some o.
Proof.
  induction hist as [|[k' o'] hist IH]; simpl; intros Hnd Hin.
  - apply elem_of_nil in Hin. contradiction.
  - apply NoDup_cons in Hnd as [Hk' Hnd]. apply elem_of_cons in Hin as [Heq|Hin].
    + injection Heq as <- <-. destruct (decide (k = k)); [reflexivity|contradiction].
    + destruct (decide (k' = k)) as [->|]; [|auto].
      exfalso. apply Hk'. apply list_elem_of_fmap. exists (k, o). auto.
Qed.

Section SerialFacts.
Variable w0 : World.
Variable bodies : list (prog dict).


(** When every thread has finished, the outcomes and the world are those of
    running the calls one after the other, in the order in which they took
    the lock. *)
Lemma serial_finished (c : config) :
  serial w0 bodies c ->
  Forall (fun t => finished t = true) c.2 ->
  exists order : list nat,
    NoDup order /\
    (forall i, i ∈ order <-> (i < length bodies)%nat) /\
    run_all ((fun i => with_lock (default (Ret []) (bodies !! i))) <$> order) w0 =
      ((fun i => thread_outcome (c.2 !!! i)) <$> order, c.1).
Proof.
  intros (hist & cur & ws & Hrun & _ & Hhist & Hnd & Hlen & Hts & Hcur) Hfin.
  assert (Hdone : forall i b, bodies !! i = Some b ->
            exists o, hist_lookup i hist = Some o /\ cur = None).
  { intros i b Hb.
    assert (Hi : (i < length c.2)%nat) by (rewrite Hlen; eapply lookup_lt_Some; eauto).
    apply lookup_lt_is_Some in Hi as [t Ht].
    pose proof (Forall_lookup_1 _ _ _ _ Hfin Ht) as Hf.
    rewrite Hts in Ht. unfold thread_at in Ht. rewrite Hb in Ht.
    destruct (hist_lookup i hist) as [o|].
    - exists o. split; [reflexivity|].
      destruct cur as [[k p]|]; [|reflexivity].
      destruct Hcur as (_ & _ & Hk & bk & Hbk & _).
      assert (Hk' : (k < length c.2)%nat) by (rewrite Hlen; eapply lookup_lt_Some; eauto).
      apply lookup_lt_is_Some in Hk' as [t' Ht'].
      pose proof (Forall_lookup_1 _ _ _ _ Hfin Ht') as Hf'.
      rewrite Hts in Ht'. unfold thread_at in Ht'. rewrite Hbk, Hk in Ht'.
      destruct (decide (k = k)); [|contradiction]. injection Ht' as <-.
      unfold finished in Hf'. simpl in Hf'.
      destruct (release_after_unfinished p) as (X & a & f & E). rewrite E in Hf'.
      discriminate.
    - exfalso. destruct cur as [[k p]|].
      + destruct (decide (k = i)); injection Ht as <-; unfold finished in Hf; simpl in Hf.
        * destruct (release_after_unfinished p) as (X & a & f & E). rewrite E in Hf.
          discriminate.
        * discriminate.
      + injection Ht as <-. discriminate. }
  assert (Hnone : cur = None).
  { destruct cur as [[k p]|]; [|reflexivity].
    destruct Hcur as (_ & _ & _ & bk & Hbk & _).
    destruct (Hdone k bk Hbk) as (o & _ & ?). assumption. }
  subst cur. simpl in Hcur.
  exists hist.*1. split; [assumption|]. split.
  - intros i. split.
    + intros Hi. apply list_elem_of_fmap in Hi as ([k o] & -> & Hin).
      eapply Forall_forall in Hhist; eauto. simpl in Hhist. tauto.
    + intros Hi. apply lookup_lt_is_Some in Hi as [b Hb].
      destruct (Hdone i b Hb) as (o & Ho & _).
      destruct (decide (i ∈ hist.*1)) as [|Hn]; [assumption|].
      apply hist_lookup_None in Hn. congruence.
  - assert (Hre : (fun i => with_lock (default (Ret []) (bodies !! i))) <$> hist.*1
                  = replay bodies hist).
    { unfold replay. rewrite <- list_fmap_compose. reflexivity. }
    rewrite Hre, Hrun, Hcur.
    f_equal. rewrite <- list_fmap_compose. apply list_fmap_ext.
    intros n [k o] Hn. simpl.
    assert (Hin : (k, o) ∈ hist) by (eapply list_elem_of_lookup_2; eauto).
    pose proof (hist_lookup_elem _ _ _ Hnd Hin) as Hk.
    eapply Forall_forall in Hhist; eauto. simpl in Hhist. destruct Hhist as [Ho Hlt].
    apply lookup_lt_is_Some in Hlt as [b Hb].
    pose proof (Hts k) as Ht. unfold thread_at in Ht. rewrite Hb, Hk in Ht.
    rewrite (list_lookup_total_correct _ _ _ Ht).
    destruct o; try reflexivity. contradiction.
Qed.

End SerialFacts.


(** ** Sequences of [start] *)





Section Starts.
Variable j : string -> list string -> string.

Lemma start_lock (u a : string) (w : World) :
  lock w = false -> lock (run (start j u a) w).2 = false.
Proof.
  intros Hl. unfold start. rewrite run_with_lock, run_release_after by assumption.
  destruct (lock_free_run (start_body j u a) (set_lock true w)
              (start_body_lock_free j u a)) as [Hnb _].
  destruct (run (start_body j u a) (set_lock true w)) as [[d|e|] w'];
    simpl in *; congruence.
Qed.





Lemma settled_files (child : Z) (u a : string) (w : World) :
  settled child w -> files (run (start j u a) w).2 = files w.
Proof.
  intros (Hl & Hp & Hq & err & Hprocs).
  assert (Hr : run is_running w = (Done true, w)).
  { rewrite run_is_running, Hp. unfold poll. rewrite Hprocs. simpl. rewrite Hq.
    reflexivity. }
  rewrite (start_when_running j u a w w Hl Hr). reflexivity.
Qed.



End Starts.


(** ** Concurrent calls of [start] and [stop] *)

Lemma serial_length (w0 : World) (bodies : list (prog dict)) (c : config) :
  serial w0 bodies c -> length c.2 = length bodies.
Proof. intros (hist & cur & ws & _ & _ & _ & _ & Hlen & _). exact Hlen. Qed.

Lemma fmap_const_inv {A B C : Type} (f : A -> B) (x : B) (l : list A) (l' : list C) :
  f <$> l = (fun _ => x) <$> l' -> forall i, i ∈ l -> f i = x.
Proof.
  intros H i Hi.
  assert (Hin : f i ∈ (fun _ : C => x) <$> l').
  { rewrite <- H. apply list_elem_of_fmap. eauto. }
  apply list_elem_of_fmap in Hin as (y & -> & _). reflexivity.
Qed.

Lemma thread_outcome_done (t : thread) (r : dict) :
  thread_outcome t = Done r -> code t = Ret r.
Proof. unfold thread_outcome. destruct (code t); intros H; congruence. Qed.

Section Concurrent.
Variable j : string -> list string -> string.

Lemma call_body_lock_free (k : call) : lock_free (call_body j k).
Proof.
  destruct k; [apply start_body_lock_free|apply stop_body_lock_free].
Qed.

Lemma threads_bodies (calls : list call) :
  threads j calls = spawn ∘ with_lock <$> (call_body j <$> calls).
Proof.
  unfold threads. rewrite <- list_fmap_compose. apply list_fmap_ext.
  intros i [u a|] _; reflexivity.
Qed.

Lemma threads_serial (calls : list call) (sched : list nat) (w : World) :
  lock w = false ->
  serial w (call_body j <$> calls) (exec sched (w, threads j calls)).
Proof.
  intros Hl. apply serial_exec.
  - apply Forall_fmap, Forall_forall. intros k _. apply call_body_lock_free.
  - rewrite threads_bodies. apply serial_init. assumption.
Qed.

Lemma replay_calls (calls : list call) (order : list nat) :
  (forall i, i ∈ order -> (i < length calls)%nat) ->
  (fun i => with_lock (default (Ret []) ((call_body j <$> calls) !! i))) <$> order =
  call_prog j <$> ((fun i => calls !!! i) <$> order).
Proof.
  intros Hlt. rewrite <- list_fmap_compose. apply list_fmap_ext.
  intros n i Hn. simpl.
  assert (Hi : (i < length calls)%nat) by (eapply Hlt, list_elem_of_lookup_2; eauto).
  apply lookup_lt_is_Some in Hi as [k Hk].
  rewrite list_lookup_fmap, Hk, (list_lookup_total_correct _ _ _ Hk).
  destruct k; reflexivity.
Qed.



End Concurrent.


(** ** Concrete runs *)

Example two_starts_run :
  let c := exec two_starts_schedule (carry0, threads win_join two_starts) in
  (thread_outcome <$> c.2) =
    [Done (already_running_dict 101);
     Done (started_dict 101 (exe_path win_join "bob" "app") (cfg_path win_join "bob" "app"))]
  /\ live_count c.1 = 1%nat.
Proof. vm_compute. split; reflexivity. Qed.

Example race_run :
  (thread_outcome <$> (exec race_schedule (race_world, race_threads)).2) =
    [Done stopped_dict;
     Raised (Exn AttributeError "'NoneType' object has no attribute 'pid'")].
Proof. vm_compute. reflexivity. Qed.


(** ** Further properties of the supervisor *)

Lemma world_eta (w : World) :
  set_oracle (set_poll_q (poll_q (oracle w)) (oracle w)) w = w.
Proof. destruct w as [? ? ? ? ? ? ? ? [] ?]. reflexivity. Qed.

Lemma drop_polls_0 (w : World) : drop_polls 0 w = w.
Proof. unfold drop_polls. rewrite drop_0. apply world_eta. Qed.

Lemma drop_polls_drop_polls (n m : nat) (w : World) :
  drop_polls n (drop_polls m w) = drop_polls (m + n) w.
Proof. unfold drop_polls. simpl. rewrite drop_drop. reflexivity. Qed.

(** A poll that finds the process running takes one answer, if there is
    one, and changes nothing else. *)
Lemma poll_stays_alive (h : nat) (p : Proc) (w : World) :
  procs w !! h = Some p -> returncode p = None -> stays_alive 1 w ->
  poll h w = (None, drop_polls 1 w).
Proof.
  intros Hp Hr Ha. unfold poll, stays_alive, drop_polls in *. rewrite Hp, Hr.
  destruct (poll_q (oracle w)) as [|[c|] q] eqn:E; simpl in *.
  - rewrite <- E. rewrite world_eta. reflexivity.
  - apply Forall_cons in Ha as [Ha _]. discriminate.
  - rewrite drop_0. reflexivity.
Qed.

Lemma stays_alive_S (n : nat) (w : World) :
  stays_alive (S n) w -> stays_alive 1 w /\ stays_alive n (drop_polls 1 w).
Proof.
  unfold stays_alive, drop_polls. simpl.
  destruct (poll_q (oracle w)) as [|r q]; simpl.
  - rewrite !take_nil. auto.
  - intros H. apply Forall_cons in H as [H1 H2]. rewrite drop_0, take_0. auto.
Qed.

(** While the process stays alive, the polling loop of [stop] runs all its
    rounds and only takes answers from the environment. *)
Lemma wait_for_exit_alive (n : nat) (h : nat) (p : Proc) (w : World) :
  process w = Some h -> procs w !! h = Some p -> returncode p = None ->
  stays_alive n w ->
  run (wait_for_exit n) w = (Done tt, drop_polls n w).
Proof.
  revert w. induction n as [|n IH]; intros w Hh Hp Hr Ha.
  - simpl. rewrite drop_polls_0. reflexivity.
  - apply stays_alive_S in Ha as [Ha1 Ha]. simpl. rewrite Hh. simpl.
    rewrite (poll_stays_alive h p w Hp Hr Ha1). simpl.
    rewrite IH; try assumption; try reflexivity.
    rewrite drop_polls_drop_polls. reflexivity.
Qed.

(** When the environment reports the exit at the poll after [k] polls that
    found the process running, a loop of more than [k] rounds leaves at
    that poll. *)
Lemma wait_for_exit_exits (n k : nat) (h : nat) (p : Proc) (c : Z)
    (lq : list (option Z)) (w : World) :
  process w = Some h -> procs w !! h = Some p -> returncode p = None ->
  poll_q (oracle w) = replicate k None ++ Some c :: lq ->
  (k < n)%nat ->
  run (wait_for_exit n) w =
    (Done tt, reap h c (set_oracle (set_poll_q lq (oracle w)) w)).
Proof.
  revert k w. induction n as [|n IH]; intros k w Hh Hp Hr Hq Hk; [lia|].
  simpl. rewrite Hh. simpl. destruct k as [|k].
  - unfold poll. rewrite Hp, Hr, Hq. reflexivity.
  - unfold poll. rewrite Hp, Hr, Hq. simpl.
    rewrite (IH k); [reflexivity|assumption|assumption|assumption|reflexivity|lia].
Qed.

Lemma perform_terminate (h : nat) (w : World) :
  perform (Terminate h) w = Some (hd None (terminate_q (oracle w)), after_terminate h w).
Proof.
  unfold after_terminate. simpl.
  destruct w as [? ? ? ? ? ? ? ? [? ? tq ? ? ?] ?]. simpl.
  destruct tq; reflexivity.
Qed.

Lemma perform_kill (h : nat) (w : World) :
  perform (Kill h) w = Some (hd None (kill_q (oracle w)), after_kill h w).
Proof.
  unfold after_kill. simpl.
  destruct w as [? ? ? ? ? ? ? ? [? ? ? kq ? ?] ?]. simpl.
  destruct kq; reflexivity.
Qed.

(** The polling loop of [stop] returns and keeps the handle. *)
Lemma wait_for_exit_done (n : nat) (h : nat) (w : World) :
  process w = Some h ->
  exists w', run (wait_for_exit n) w = (Done tt, w') /\ process w' = Some h.
Proof.
  revert w. induction n as [|n IH]; intros w Hh; simpl; [eauto|].
  rewrite Hh. simpl. destruct (poll_frame h w) as (Hp & _).
  destruct (poll h w) as [[c|] w1]; simpl in *.
  - exists w1. split; [reflexivity|congruence].
  - apply IH. congruence.
Qed.

(** Every path through the [try] block of [stop], for a supervisor that
    holds a handle. *)
Lemma run_stop_sequence (h : nat) (w : World) :
  process w = Some h ->
  run stop_sequence w =
  match hd None (terminate_q (oracle w)) with
  | Some e => (Raised e, after_terminate h w)
  | None =>
      let w1 := (run (wait_for_exit 50) (after_terminate h w)).2 in
      match poll h w1 with
      | (Some _, w2) => (Done stopped_dict, set_process None w2)
      | (None, w2) =>
          match hd None (kill_q (oracle w2)) with
          | Some e => (Raised e, after_kill h w2)
          | None =>
              match perform (Wait h) (after_kill h w2) with
              | Some (inl e, w3) => (Raised e, w3)
              | Some (inr _, w3) => (Done stopped_dict, set_process None w3)
              | None => (Blocked, after_kill h w2)
              end
          end
      end
  end.
Proof.
  intros Hh. unfold stop_sequence.
  assert (Self : forall attr v, process v = Some h ->
            run (self_process attr) v = (Done h, v)).
  { intros attr v Hv. unfold self_process. simpl. rewrite Hv. reflexivity. }
  rewrite run_bind, Self by assumption. cbv beta iota.
  rewrite run_bind. unfold act_or_raise_unit at 1. cbn [run].
  rewrite perform_terminate.
  destruct (hd None (terminate_q (oracle w))) as [e|]; cbn [run]; [reflexivity|].
  rewrite run_bind.
  destruct (wait_for_exit_done 50 h (after_terminate h w)) as (w1 & Hw & Hh1);
    [exact Hh|].
  rewrite Hw. cbn [snd]. rewrite run_bind, Self by assumption. cbv beta iota.
  rewrite run_bind. unfold act at 1. cbn [run].
  change (perform (Poll h) w1) with (Some (poll h w1)). cbv beta iota.
  destruct (poll_frame h w1) as (Hp2 & _).
  destruct (poll h w1) as [[c|] w2]; cbn [fst snd run] in *.
  - rewrite run_bind. reflexivity.
  - assert (Hh2 : process w2 = Some h) by congruence.
    rewrite run_bind, run_bind, Self by assumption. cbv beta iota.
    rewrite run_bind. unfold act_or_raise_unit. cbn [run]. rewrite perform_kill.
    destruct (hd None (kill_q (oracle w2))) as [e|]; cbn [run]; [reflexivity|].
    rewrite run_bind, Self by exact Hh2. cbv beta iota.
    rewrite run_bind. unfold act_or_raise. cbn [run].
    destruct (perform (Wait h) (after_kill h w2)) as [[[e|c] w3]|]; reflexivity.
Qed.

(** What a passed liveness check tells about the supervisor. *)
Lemma is_running_true_frame (w w1 : World) :
  run is_running w = (Done true, w1) ->
  exists h p,
    process w = Some h /\ procs w !! h = Some p /\ returncode p = None /\
    process w1 = Some h /\ procs w1 = procs w /\ trace w1 = trace w /\
    lock w1 = lock w.
Proof.
  intros Hr. destruct (is_running_true _ _ Hr) as (h & p & Hp & Hh & Hc & -> & Hn).
  destruct (poll_alive h w Hn) as (F1 & F2 & F3 & F4 & _).
  exists h, p. rewrite F1, F2, F3, F4. auto 10.
Qed.

(** A graceful stop: [terminate] returns and the exit is seen at one of the
    polls (the [k+1]-th, [k <= 50]). *)
Lemma stop_sequence_graceful (h : nat) (p : Proc) (k : nat) (c : Z)
    (lq : list (option Z)) (w : World) :
  process w = Some h -> procs w !! h = Some p -> returncode p = None ->
  hd None (terminate_q (oracle w)) = None ->
  poll_q (oracle w) = replicate k None ++ Some c :: lq -> (k <= 50)%nat ->
  exists w',
    run stop_sequence w = (Done stopped_dict, w') /\
    process w' = None /\ lock w' = lock w /\
    procs w' = <[h := exited c p]> (procs w) /\
    trace w' = trace w ++ [EvTerminate h] /\
    poll_q (oracle w') = lq.
Proof.
  intros Hh Hp Hr Ht Hq Hk. rewrite (run_stop_sequence h w Hh), Ht. cbv zeta.
  assert (Hq' : poll_q (oracle (after_terminate h w)) =
                replicate k None ++ Some c :: lq) by exact Hq.
  destruct (decide (k < 50)%nat) as [Hlt|Hge].
  - rewrite (wait_for_exit_exits 50 k h p c lq (after_terminate h w) Hh Hp Hr Hq' Hlt).
    cbn [snd]. unfold poll, reap. cbn [procs after_terminate emit set_oracle].
    rewrite Hp. cbn [procs set_procs].
    rewrite list_lookup_insert_eq by (eapply lookup_lt_Some; eauto).
    cbn [returncode]. eexists. split; [reflexivity|]. simpl. auto 10.
  - assert (k = 50)%nat as -> by lia.
    rewrite (wait_for_exit_alive 50 h p (after_terminate h w) Hh Hp Hr).
    2:{ unfold stays_alive. rewrite Hq'. rewrite take_app_length'
          by (rewrite length_replicate; reflexivity).
        apply Forall_replicate. reflexivity. }
    cbn [snd]. unfold poll, drop_polls. cbn [procs after_terminate emit set_oracle].
    rewrite Hp, Hr. cbn [oracle set_oracle poll_q set_poll_q]. rewrite Hq'.
    rewrite drop_app_length' by (rewrite length_replicate; reflexivity).
    unfold reap. cbn [procs set_oracle emit after_terminate]. rewrite Hp.
    eexists. split; [reflexivity|]. simpl. auto 10.
Qed.

Lemma stays_alive_add (n m : nat) (w : World) :
  stays_alive (n + m) w -> stays_alive n w /\ stays_alive m (drop_polls n w).
Proof.
  unfold stays_alive, drop_polls. cbn [oracle set_oracle poll_q set_poll_q].
  generalize (poll_q (oracle w)) as l. induction n as [|n IH]; intros l H.
  - rewrite take_0, drop_0. split; [constructor|exact H].
  - destruct l as [|r l]; simpl in *.
    + rewrite take_nil. split; constructor.
    + apply Forall_cons in H as [H1 H2]. destruct (IH l H2) as [H3 H4].
      split; [constructor; assumption|assumption].
Qed.

(** Escalation: [terminate] returns, the process is alive at all fifty
    polls of the loop and at the check after it, [kill] returns and [wait]
    reports the exit. *)
Lemma stop_sequence_escalates (h : nat) (p : Proc) (c : Z) (w : World) :
  process w = Some h -> procs w !! h = Some p -> returncode p = None ->
  hd None (terminate_q (oracle w)) = None ->
  stays_alive 51 w ->
  hd None (kill_q (oracle w)) = None ->
  hd (inr 1) (wait_q (oracle w)) = inr c ->
  exists w',
    run stop_sequence w = (Done stopped_dict, w') /\
    process w' = None /\ lock w' = lock w /\
    procs w' = <[h := exited c p]> (procs w) /\
    trace w' = trace w ++ [EvTerminate h; EvKill h].
Proof.
  intros Hh Hp Hr Ht Ha Hk Hw. rewrite (run_stop_sequence h w Hh), Ht. cbv zeta.
  assert (Ha' : stays_alive (50 + 1) (after_terminate h w)) by exact Ha.
  apply stays_alive_add in Ha' as [Ha1 Ha2].
  rewrite (wait_for_exit_alive 50 h p (after_terminate h w) Hh Hp Hr Ha1).
  cbn [snd].
  rewrite (poll_stays_alive h p (drop_polls 50 (after_terminate h w)) Hp Hr Ha2).
  change (hd None (kill_q (oracle (drop_polls 1 (drop_polls 50 (after_terminate h w))))))
    with (hd None (kill_q (oracle w))).
  rewrite Hk. cbn [perform].
  change (procs (after_kill h (drop_polls 1 (drop_polls 50 (after_terminate h w)))))
    with (procs w).
  rewrite Hp. cbn [from_option]. rewrite Hr.
  change (wait_q (oracle (after_kill h (drop_polls 1 (drop_polls 50 (after_terminate h w))))))
    with (wait_q (oracle w)).
  unfold reap.
  destruct (wait_q (oracle w)) as [|[e|c'] q]; simpl in Hw; try discriminate;
    injection Hw as <-; cbn [procs after_kill emit set_oracle drop_polls after_terminate];
    rewrite Hp; (eexists; split; [reflexivity|]); simpl; rewrite <- ?app_assoc; auto 10.
Qed.

(** The polling loop only polls: it leaves the table as it was, or records
    the exit of the process. *)
Lemma wait_for_exit_procs (n : nat) (h : nat) (p : Proc) (w : World) :
  process w = Some h -> procs w !! h = Some p -> returncode p = None ->
  let w' := (run (wait_for_exit n) w).2 in
  trace w' = trace w /\ lock w' = lock w /\
  (procs w' = procs w \/ exists c, procs w' = <[h := exited c p]> (procs w)).
Proof.
  revert w. induction n as [|n IH]; intros w Hh Hp Hr; simpl; [auto|].
  rewrite Hh. simpl. unfold poll. rewrite Hp, Hr.
  destruct (poll_q (oracle w)) as [|[c|] q]; simpl.
  - apply IH; assumption.
  - unfold reap. simpl. rewrite Hp. simpl. eauto.
  - apply (IH (set_oracle (set_poll_q q (oracle w)) w)); assumption.
Qed.

(** [kill] and [wait] on a process whose exit has not been observed. *)
Lemma kill_wait_outcome (h : nat) (p : Proc) (w : World) :
  procs w !! h = Some p -> returncode p = None ->
  exists o w',
    (match hd None (kill_q (oracle w)) with
     | Some e => (Raised e, after_kill h w)
     | None =>
         match perform (Wait h) (after_kill h w) with
         | Some (inl e, w3) => (Raised e, w3)
         | Some (inr _, w3) => (Done stopped_dict, set_process None w3)
         | None => (Blocked, after_kill h w)
         end
     end) = (o, w') /\
    lock w' = lock w /\ trace w' = trace w ++ [EvKill h] /\
    ((o = Done stopped_dict /\ process w' = None /\
      exists c, procs w' = <[h := exited c p]> (procs w)) \/
     (exists e, o = Raised e /\ procs w' = procs w)).
Proof.
  intros Hp Hr. destruct (hd None (kill_q (oracle w))) as [e|].
  { eexists _, _. split; [reflexivity|]. simpl. eauto 10. }
  cbn [perform].
  change (procs (after_kill h w)) with (procs w). rewrite Hp. cbn [from_option].
  rewrite Hr. change (wait_q (oracle (after_kill h w))) with (wait_q (oracle w)).
  unfold reap.
  destruct (wait_q (oracle w)) as [|[e|c] q];
    cbn [procs after_kill emit set_oracle]; rewrite ?Hp;
    (eexists _, _; split; [reflexivity|]); simpl; eauto 10.
Qed.

(** The [try] block of [stop] on a process whose exit has not been observed:
    [terminate] is called once and [kill] at most once; it completes only
    after the exit has been observed, and when it raises the table still
    lists the process as running. *)
Lemma stop_sequence_outcome (h : nat) (p : Proc) (w : World) :
  process w = Some h -> procs w !! h = Some p -> returncode p = None ->
  exists o w',
    run stop_sequence w = (o, w') /\ lock w' = lock w /\
    (trace w' = trace w ++ [EvTerminate h] \/
     trace w' = trace w ++ [EvTerminate h; EvKill h]) /\
    ((o = Done stopped_dict /\ process w' = None /\
      exists c, procs w' = <[h := exited c p]> (procs w)) \/
     (exists e, o = Raised e /\ procs w' = procs w)).
Proof.
  intros Hh Hp Hr. rewrite (run_stop_sequence h w Hh).
  destruct (hd None (terminate_q (oracle w))) as [e|].
  { eexists _, _. split; [reflexivity|]. simpl. eauto 10. }
  cbv zeta.
  destruct (wait_for_exit_procs 50 h p (after_terminate h w) Hh Hp Hr)
    as (T1 & L1 & P1).
  set (w1 := (run (wait_for_exit 50) (after_terminate h w)).2) in *.
  cbn [trace lock procs after_terminate emit set_oracle] in T1, L1, P1.
  destruct P1 as [P1|[c P1]].
  - assert (Hp1 : procs w1 !! h = Some p) by (rewrite P1; exact Hp).
    unfold poll. rewrite Hp1, Hr.
    assert (Alive : forall v, procs v = procs w1 -> lock v = lock w1 ->
              trace v = trace w1 ->
              exists o w',
                (match hd None (kill_q (oracle v)) with
                 | Some e => (Raised e, after_kill h v)
                 | None =>
                     match perform (Wait h) (after_kill h v) with
                     | Some (inl e, w3) => (Raised e, w3)
                     | Some (inr _, w3) => (Done stopped_dict, set_process None w3)
                     | None => (Blocked, after_kill h v)
                     end
                 end) = (o, w') /\ lock w' = lock w /\
                (trace w' = trace w ++ [EvTerminate h] \/
                 trace w' = trace w ++ [EvTerminate h; EvKill h]) /\
                ((o = Done stopped_dict /\ process w' = None /\
                  exists c, procs w' = <[h := exited c p]> (procs w)) \/
                 (exists e, o = Raised e /\ procs w' = procs w))).
    { intros v Pv Lv Tv.
      destruct (kill_wait_outcome h p v) as (o & w' & -> & L & T & O);
        [rewrite Pv; exact Hp1|exact Hr|].
      exists o, w'. split; [reflexivity|]. split; [congruence|].
      split; [right; rewrite T, Tv, T1, <- app_assoc; reflexivity|].
      rewrite Pv, P1 in O. exact O. }
    destruct (poll_q (oracle w1)) as [|[c|] q] eqn:Eq.
    + apply Alive; reflexivity.
    + unfold reap. cbn [procs set_oracle]. rewrite Hp1.
      eexists _, _. split; [reflexivity|]. simpl. rewrite P1. eauto 10.
    + apply Alive; reflexivity.
  - assert (Hp1 : procs w1 !! h = Some (exited c p)).
    { rewrite P1. apply list_lookup_insert_eq. eapply lookup_lt_Some; eauto. }
    unfold poll. rewrite Hp1. cbn [returncode exited].
    eexists _, _. split; [reflexivity|]. simpl. eauto 10.
Qed.

(** X1. A graceful stop.  When [stop] finds the tunnel running, [terminate]
    returns and the exit is seen at one of the fifty polls of the loop or at
    the check after it, [stop] answers [stopped], clears the handle, records
    the exit code and releases the lock; [terminate] is the only signal
    sent, [kill] is not called. *)
Theorem stop_graceful (w w1 : World) (k : nat) (c : Z) (lq : list (option Z)) :
  lock w = false ->
  run is_running w = (Done true, w1) ->
  hd None (terminate_q (oracle w1)) = None ->
  poll_q (oracle w1) = replicate k None ++ Some c :: lq ->
  (k <= 50)%nat ->
  exists h p w',
    process w = Some h /\ procs w !! h = Some p /\
    run stop w = (Done stopped_dict, w') /\
    process w' = None /\ lock w' = false /\
    procs w' = <[h := exited c p]> (procs w) /\
    trace w' = trace w ++ [EvEnter CallStop; EvTerminate h] /\
    kills w' = kills w /\
    poll_q (oracle w') = lq.
Proof.
  intros Hl Hrun Ht Hq Hk.
  destruct (is_running_true_frame _ _ Hrun) as (h & p & Hh & Hp & Hr & Hh1 & P1 & T1 & L1).
  exists h, p. rewrite (stop_when_running w w1 Hl Hrun).
  destruct (stop_sequence_graceful h p k c lq (entered CallStop w1))
    as (w' & -> & F1 & F2 & F3 & F4 & F5); try assumption.
  { simpl. rewrite P1. exact Hp. }
  exists (set_lock false w'). simpl in *. rewrite F3, F4, P1, T1.
  unfold kills. cbn [trace set_lock]. rewrite F4. cbn [trace].
  rewrite !count_events_snoc. cbn [is_kill_event]. rewrite T1, <- app_assoc.
  repeat split; auto; lia.
Qed.

(** X2. Escalation.  When [stop] finds the tunnel running, [terminate]
    returns, the process is still alive at all fifty polls of the loop and
    at the check after it, [kill] returns and [wait] reports the exit, then
    [stop] has called [terminate] and [kill] once each, in this order,
    answers [stopped], clears the handle, records the exit code and
    releases the lock. *)
Theorem stop_escalates (w w1 : World) (c : Z) :
  lock w = false ->
  run is_running w = (Done true, w1) ->
  hd None (terminate_q (oracle w1)) = None ->
  stays_alive 51 w1 ->
  hd None (kill_q (oracle w1)) = None ->
  hd (inr 1) (wait_q (oracle w1)) = inr c ->
  exists h p w',
    process w = Some h /\ procs w !! h = Some p /\
    run stop w = (Done stopped_dict, w') /\
    process w' = None /\ lock w' = false /\
    procs w' = <[h := exited c p]> (procs w) /\
    trace w' = trace w ++ [EvEnter CallStop; EvTerminate h; EvKill h] /\
    kills w' = S (kills w).
Proof.
  intros Hl Hrun Ht Ha Hk Hw.
  destruct (is_running_true_frame _ _ Hrun) as (h & p & Hh & Hp & Hr & Hh1 & P1 & T1 & L1).
  exists h, p. rewrite (stop_when_running w w1 Hl Hrun).
  destruct (stop_sequence_escalates h p c (entered CallStop w1))
    as (w' & -> & F1 & F2 & F3 & F4); try assumption.
  { simpl. rewrite P1. exact Hp. }
  exists (set_lock false w'). simpl in *. rewrite F3, F4, P1, T1.
  unfold kills. cbn [trace set_lock]. rewrite F4. cbn [trace].
  replace ((trace w1 ++ [EvEnter CallStop]) ++ [EvTerminate h; EvKill h])
    with (((trace w1 ++ [EvEnter CallStop]) ++ [EvTerminate h]) ++ [EvKill h])
    by (rewrite <- !app_assoc; reflexivity).
  rewrite !count_events_snoc. cbn [is_kill_event]. rewrite T1, <- !app_assoc.
  repeat split; auto; lia.
Qed.

(** X3. What [stop] answers on a running tunnel, whatever the environment
    does.  It calls [terminate] once and [kill] at most once, always clears
    the handle and releases the lock.  It answers [stopped] only after the
    exit of the process has been observed; when it answers [error] (an
    exception of [terminate], [kill] or [wait]) the exit has not been
    observed: the process table is unchanged and still holds the process
    without an exit code, although the supervisor no longer holds its
    handle. *)
Theorem stop_answer_and_exit (w w1 : World) :
  lock w = false ->
  run is_running w = (Done true, w1) ->
  exists h p r w',
    process w = Some h /\ procs w !! h = Some p /\
    run stop w = (Done r, w') /\
    process w' = None /\ lock w' = false /\
    (trace w' = trace w ++ [EvEnter CallStop; EvTerminate h] \/
     trace w' = trace w ++ [EvEnter CallStop; EvTerminate h; EvKill h]) /\
    ((r = stopped_dict /\ exists c, procs w' = <[h := exited c p]> (procs w)) \/
     (exists e, r = error_dict (exn_str e) /\ procs w' = procs w /\
                procs w' !! h = Some p /\ returncode p = None)).
Proof.
  intros Hl Hrun.
  destruct (is_running_true_frame _ _ Hrun) as (h & p & Hh & Hp & Hr & Hh1 & P1 & T1 & L1).
  exists h, p. rewrite (stop_when_running w w1 Hl Hrun).
  destruct (stop_sequence_outcome h p (entered CallStop w1))
    as (o & w' & -> & F1 & F2 & F3); try assumption.
  { simpl. rewrite P1. exact Hp. }
  simpl in F1, F2, F3. rewrite P1, T1, <- !app_assoc in *. simpl in F2.
  destruct F3 as [(-> & F3 & c & F4)|(e & -> & F4)].
  - exists stopped_dict, (set_lock false w'). simpl. eauto 12.
  - exists (error_dict (exn_str e)), (set_lock false (set_process None w')).
    simpl. rewrite F4. eauto 15.
Qed.

(** The status of a running tunnel: the pid of the held process and the
    two stored paths. *)
Lemma get_status_running (w w1 : World) :
  run is_running w = (Done true, w1) ->
  exists h p,
    process w = Some h /\ procs w !! h = Some p /\ returncode p = None /\
    run get_status w =
      (Done (running_dict (pid p) (singbox_path w) (config_path w)), w1).
Proof.
  intros Hrun.
  destruct (is_running_true_frame _ _ Hrun) as (h & p & Hh & Hp & Hr & Hh1 & P1 & T1 & L1).
  exists h, p. repeat (split; [assumption|]).
  pose proof (is_running_frame w) as F. rewrite Hrun in F. cbn [snd] in F.
  destruct F as (_ & _ & F3 & F4 & _).
  unfold get_status. rewrite run_bind, Hrun. cbv beta iota.
  unfold self_process. simpl. rewrite Hh1. simpl. rewrite P1, Hp, F3, F4. reflexivity.
Qed.

(** X4. [status] for a single caller never raises and only polls: it leaves
    every attribute of the supervisor, the lock and the trace as they were.
    It answers [stopped], or, when the liveness check passes, [running]
    with the pid of the held process and the two stored paths. *)
Theorem get_status_snapshot (w : World) :
  exists d w',
    run get_status w = (Done d, w') /\
    process w' = process w /\ lock w' = lock w /\
    singbox_path w' = singbox_path w /\ config_path w' = config_path w /\
    consecutive_failures w' = consecutive_failures w /\
    trace w' = trace w /\ length (procs w') = length (procs w) /\
    ((d = stopped_dict /\ (run is_running w).1 = Done false) \/
     (exists h p,
         process w = Some h /\ procs w !! h = Some p /\ returncode p = None /\
         procs w' = procs w /\
         d = running_dict (pid p) (singbox_path w) (config_path w))).
Proof.
  pose proof (is_running_frame w) as F.
  destruct (is_running_total w) as ([|] & w1 & Hrun); rewrite Hrun in F; cbn [snd] in F.
  - destruct (get_status_running _ _ Hrun) as (h & p & Hh & Hp & Hr & ->).
    destruct (is_running_true_frame _ _ Hrun) as (h' & p' & _ & _ & _ & _ & P1 & _).
    exists (running_dict (pid p) (singbox_path w) (config_path w)), w1.
    split; [reflexivity|]. destruct F as (F1 & F2 & F3 & F4 & F5 & _ & _ & F8 & F9).
    repeat (split; [assumption|]). right. exists h, p. auto.
  - exists stopped_dict, w1. unfold get_status. rewrite run_bind, Hrun.
    split; [reflexivity|]. destruct F as (F1 & F2 & F3 & F4 & F5 & _ & _ & F8 & F9).
    repeat (split; [assumption|]). left. auto.
Qed.

Section StartPaths.
Variable j : string -> list string -> string.

(** [start] when [Popen] spawns a child that the check after the grace
    period finds alive. *)
Lemma start_when_spawned (u a : string) (w w1 : World) (child : Z) (err : string)
    (pq : list popen_answer) :
  lock w = false ->
  run is_running w = (Done false, w1) ->
  exe_path j u a ∈ files w ->
  cfg_path j u a ∈ files w ->
  popen_q (oracle w1) = PopenSpawns child err :: pq ->
  stays_alive 1 w1 ->
  run (start j u a) w =
    (Done (started_dict child (exe_path j u a) (cfg_path j u a)),
     set_lock false
       (drop_polls 1 (spawned j u a child err pq (entered (CallStart u a) w1)))).
Proof.
  intros Hl Hrun He Hc Hq Ha.
  pose proof (is_running_frame w) as F. rewrite Hrun in F. cbn [snd] in F.
  destruct F as (_ & _ & _ & _ & _ & _ & F7 & _).
  rewrite (start_when_idle j u a w w1 Hl Hrun), run_start_sequence.
  cbn [files entered emit set_lock]. rewrite F7.
  rewrite !bool_decide_eq_true_2 by assumption. cbn [negb].
  change (popen_q (oracle (entered (CallStart u a) w1))) with (popen_q (oracle w1)).
  rewrite Hq. cbv zeta.
  set (v := spawned j u a child err pq (entered (CallStart u a) w1)).
  set (h := length (procs (entered (CallStart u a) w1))).
  assert (Hh : procs v !! h = Some (mkProc child None (Some err))).
  { unfold v, spawned; simpl. apply list_lookup_middle. reflexivity. }
  rewrite (poll_stays_alive h _ v Hh eq_refl) by exact Ha.
  reflexivity.
Qed.

(** X5. A successful start.  When nothing runs, both files exist, [Popen]
    spawns a child and the check after the grace period finds it alive,
    [start] answers [started] with the pid of the child and the two derived
    paths, holds the handle of the new process, has spawned exactly
    [exe run -c cfg], and releases the lock.  As long as the liveness check
    passes, [status] then answers [running] with the same pid and paths. *)
Theorem start_spawns (u a : string) (w w1 : World) (child : Z) (err : string)
    (pq : list popen_answer) :
  lock w = false ->
  run is_running w = (Done false, w1) ->
  exe_path j u a ∈ files w ->
  cfg_path j u a ∈ files w ->
  popen_q (oracle w1) = PopenSpawns child err :: pq ->
  stays_alive 1 w1 ->
  exists w',
    run (start j u a) w =
      (Done (started_dict child (exe_path j u a) (cfg_path j u a)), w') /\
    process w' = Some (length (procs w)) /\ lock w' = false /\
    procs w' = procs w1 ++ [mkProc child None (Some err)] /\
    trace w' = trace w ++ [EvEnter (CallStart u a);
                           EvSpawn (length (procs w))
                             [exe_path j u a; "run"; "-c"; cfg_path j u a]] /\
    forall w2,
      run is_running w' = (Done true, w2) ->
      run get_status w' =
        (Done (running_dict child (Some (exe_path j u a)) (Some (cfg_path j u a))), w2).
Proof.
  intros Hl Hrun He Hc Hq Ha.
  pose proof (is_running_frame w) as F. rewrite Hrun in F. cbn [snd] in F.
  destruct F as (_ & _ & _ & _ & _ & _ & _ & F8 & F9).
  rewrite (start_when_spawned u a w w1 child err pq Hl Hrun He Hc Hq Ha).
  set (v := spawned j u a child err pq (entered (CallStart u a) w1)).
  exists (set_lock false (drop_polls 1 v)). split; [reflexivity|].
  split; [simpl; congruence|]. split; [reflexivity|]. split; [reflexivity|].
  split; [simpl; rewrite F8, <- app_assoc, F9; reflexivity|].
  intros w2 H2.
  destruct (get_status_running _ _ H2) as (h' & p' & Hh' & Hp' & _ & ->).
  change (process (set_lock false (drop_polls 1 v))) with (Some (length (procs w1))) in Hh'.
  injection Hh' as <-.
  change (procs (set_lock false (drop_polls 1 v)))
    with (procs w1 ++ [mkProc child None (Some err)]) in Hp'.
  rewrite list_lookup_middle in Hp' by reflexivity.
  injection Hp' as <-. reflexivity.
Qed.

(** X6. A failed spawn.  When nothing runs, both files exist and [Popen]
    raises, [start] catches the exception and answers [error] with its
    text; no process is added, the handle is left as it was, the lock is
    released and [status] answers [stopped]. *)
Theorem start_spawn_fails (u a : string) (w w1 : World) (e : exn) :
  lock w = false ->
  run is_running w = (Done false, w1) ->
  exe_path j u a ∈ files w ->
  cfg_path j u a ∈ files w ->
  hd (PopenRaises spawn_failed) (popen_q (oracle w1)) = PopenRaises e ->
  exists w',
    run (start j u a) w = (Done (error_dict (exn_str e)), w') /\
    process w' = process w /\ lock w' = false /\
    procs w' = procs w1 /\
    trace w' = trace w ++ [EvEnter (CallStart u a)] /\
    run get_status w' = (Done stopped_dict, w').
Proof.
  intros Hl Hrun He Hc Hq.
  pose proof (is_running_frame w) as F. rewrite Hrun in F. cbn [snd] in F.
  destruct F as (F1 & F2 & F3 & F4 & F5 & F6 & F7 & F8 & F9).
  destruct (is_running_false _ _ Hrun) as [Hi _].
  rewrite (start_when_idle j u a w w1 Hl Hrun), run_start_sequence.
  cbn [files entered emit set_lock]. rewrite F7.
  rewrite !bool_decide_eq_true_2 by assumption. cbn [negb].
  change (popen_q (oracle (entered (CallStart u a) w1))) with (popen_q (oracle w1)).
  destruct (popen_q (oracle w1)) as [|[e'|child err] q]; simpl in Hq;
    try discriminate; injection Hq as <-;
    (eexists; split; [reflexivity|]);
    (split; [exact F1|]); (split; [reflexivity|]); (split; [reflexivity|]);
    (split; [simpl; rewrite F8; reflexivity|]);
    apply get_status_idle; (apply (idle_frame w1); [reflexivity|reflexivity|exact Hi]).
Qed.

End StartPaths.

Section StartAnswers.
Variable j : string -> list string -> string.

(** X7. [start] always answers.  For a caller that finds the lock free,
    [start] returns a dictionary whose status is [already_running],
    [started] or [error]; no exception leaves it and the lock is released.
    It spawns at most one process, and when the status is [started] the
    supervisor holds the handle of the process just spawned. *)
Theorem start_answers (u a : string) (w : World) :
  lock w = false ->
  exists d w',
    run (start j u a) w = (Done d, w') /\ lock w' = false /\
    (exists s, dict_get "status" d = Some (VStr s) /\
               s ∈ ["already_running"; "started"; "error"]) /\
    (length (procs w) <= length (procs w') <= S (length (procs w)))%nat /\
    (dict_get "status" d = Some (VStr "started") ->
     process w' = Some (length (procs w)) /\
     length (procs w') = S (length (procs w))).
Proof.
  intros Hl. pose proof (is_running_frame w) as F.
  destruct (is_running_total w) as ([|] & w1 & Hrun); rewrite Hrun in F; cbn [snd] in F;
    destruct F as (F1 & F2 & F3 & F4 & F5 & F6 & F7 & F8 & F9).
  - rewrite (start_when_running j u a w w1 Hl Hrun).
    eexists _, _. split; [reflexivity|]. split; [simpl; congruence|].
    split; [exists "already_running"; split; [reflexivity|set_solver]|].
    split; [simpl; lia|]. simpl. discriminate.
  - rewrite (start_when_idle j u a w w1 Hl Hrun), run_start_sequence.
    destruct (negb _).
    { eexists _, _. split; [reflexivity|]. split; [reflexivity|].
      split; [exists "error"; split; [reflexivity|set_solver]|].
      split; [simpl; lia|]. simpl. discriminate. }
    destruct (negb _).
    { eexists _, _. split; [reflexivity|]. split; [reflexivity|].
      split; [exists "error"; split; [reflexivity|set_solver]|].
      split; [simpl; lia|]. simpl. discriminate. }
    destruct (popen_q _) as [|[e|child err] q].
    + eexists _, _. split; [reflexivity|]. split; [reflexivity|].
      split; [exists "error"; split; [reflexivity|set_solver]|].
      split; [simpl; lia|]. simpl. discriminate.
    + eexists _, _. split; [reflexivity|]. split; [reflexivity|].
      split; [exists "error"; split; [reflexivity|set_solver]|].
      split; [simpl; lia|]. simpl. discriminate.
    + cbv zeta.
      set (v := spawned j u a child err q (entered (CallStart u a) w1)).
      set (h := length (procs (entered (CallStart u a) w1))).
      destruct (poll_frame h v) as (G1 & _ & _ & _ & _ & _ & _ & _ & G9).
      assert (Lv : length (procs v) = S (length (procs w))).
      { unfold v, spawned. simpl. rewrite length_app. simpl. lia. }
      assert (Eh : h = length (procs w)) by (unfold h; simpl; congruence).
      destruct (poll h v) as [[c|] v']; cbn [fst snd] in *.
      * eexists _, _. split; [reflexivity|]. split; [reflexivity|].
        split; [exists "error"; split; [reflexivity|set_solver]|].
        split; [simpl; lia|]. simpl. discriminate.
      * eexists _, _. split; [reflexivity|]. split; [reflexivity|].
        split; [exists "started"; split; [reflexivity|set_solver]|].
        split; [simpl; lia|]. intros _. simpl. rewrite G1, <- Eh.
        split; [reflexivity|lia].
Qed.

End StartAnswers.

(** ** Further properties of the monitor *)

Lemma reap_flag (h : nat) (c : Z) (w : World) :
  monitor_is_running (reap h c w) = monitor_is_running w.
Proof. unfold reap. destruct (procs w !! h); auto. Qed.

Lemma perform_flag {X : Type} (a : action X) (w w' : World) (x : X) :
  is_set_flag a = false -> perform a w = Some (x, w') ->
  monitor_is_running w' = monitor_is_running w.
Proof.
  destruct a; simpl; intros Ha H; try discriminate;
    try (injection H as <- <-; reflexivity).
  - destruct (lock w); [discriminate|]. injection H as <- <-. reflexivity.
  - destruct (popen_q (oracle w)) as [|[e|c err] q]; injection H as <- <-; reflexivity.
  - injection H as H. destruct (poll_frame h w) as (_ & _ & _ & _ & _ & F & _).
    rewrite H in F. exact F.
  - destruct (terminate_q (oracle w)); injection H as <- <-; reflexivity.
  - destruct (kill_q (oracle w)); injection H as <- <-; reflexivity.
  - destruct (from_option returncode (Some 0) (procs w !! h));
      [injection H as <- <-; reflexivity|].
    destruct (wait_q (oracle w)) as [|[e|c] q]; injection H as <- <-;
      rewrite ?reap_flag; reflexivity.
  - destruct (probe_q (oracle w)); injection H as <- <-; reflexivity.
Qed.

(** An iteration of the loop leaves the flag of the monitor alone. *)
Lemma monitor_cycle_flag (w : World) :
  monitor_is_running (run monitor_cycle w).2 = monitor_is_running w.
Proof.
  apply (uses_run (fun X a => negb (is_set_flag a))
           (fun w w' => monitor_is_running w' = monitor_is_running w)); auto.
  - congruence.
  - intros X a v x v' H Hv. apply negb_true_iff in H. eapply perform_flag; eauto.
  - unfold monitor_cycle. uses_tac.
Qed.

(** One iteration keeps the counter below the threshold and enters [stop]
    only when three failed probes are behind it. *)
Lemma monitor_cycle_bounds (w : World) :
  lock w = false ->
  0 <= consecutive_failures w < max_failures ->
  exists w',
    run monitor_cycle w = (Done tt, w') /\ lock w' = false /\
    0 <= consecutive_failures w' < max_failures /\
    (stops w <= stops w')%nat /\ (probes w <= probes w')%nat /\
    max_failures * Z.of_nat (stops w') + consecutive_failures w' <=
    max_failures * Z.of_nat (stops w) + consecutive_failures w +
    (Z.of_nat (probes w') - Z.of_nat (probes w)).
Proof.
  intros Hl Hc. destruct (monitor_cycle_spec w Hl) as (w' & Hrun & Hl' & Hspec).
  exists w'. split; [exact Hrun|]. split; [exact Hl'|].
  unfold max_failures in *.
  destruct (probe_result w) as [[|]|].
  - destruct Hspec as (-> & -> & ->). lia.
  - destruct Hspec as (-> & Hspec).
    destruct (Z.leb_spec 3 (consecutive_failures w + 1));
      destruct Hspec as (-> & ->); lia.
  - destruct Hspec as (-> & -> & ->). lia.
Qed.

(** X8. The monitor loop, run on its own.  Any number of iterations run to
    their end without raising and leave the lock free and the flag of the
    monitor as it was; the failure counter stays within [0, 3); and the
    loop enters [stop] only with three failed probes behind it: three times
    the number of stops it has entered is at most the number of probes it
    has sent plus the failures counted before.  With the flag down the loop
    does nothing. *)
Theorem monitor_loop_invariant (n : nat) (w : World) :
  lock w = false ->
  0 <= consecutive_failures w < max_failures ->
  exists w',
    run (_monitor_loop n) w = (Done tt, w') /\ lock w' = false /\
    monitor_is_running w' = monitor_is_running w /\
    0 <= consecutive_failures w' < max_failures /\
    (stops w <= stops w')%nat /\ (probes w <= probes w')%nat /\
    max_failures * (Z.of_nat (stops w') - Z.of_nat (stops w)) <=
    (Z.of_nat (probes w') - Z.of_nat (probes w)) + consecutive_failures w /\
    (monitor_is_running w = false -> w' = w).
Proof.
  revert w. induction n as [|n IH]; intros w Hl Hc.
  - exists w. simpl. repeat split; auto; try lia.
  - cbn [_monitor_loop]. rewrite run_bind. cbn [run act perform].
    destruct (monitor_is_running w) eqn:Hf.
    + rewrite run_bind.
      destruct (monitor_cycle_bounds w Hl Hc) as (w1 & Hrun & Hl1 & Hc1 & S1 & P1 & B1).
      pose proof (monitor_cycle_flag w) as Hf1. rewrite Hrun in *. cbn [snd] in Hf1.
      destruct (IH w1 Hl1 Hc1) as (w' & Hrun' & Hl' & Hf' & Hc' & S' & P' & B' & _).
      exists w'. split; [exact Hrun'|]. split; [exact Hl'|].
      split; [congruence|]. split; [exact Hc'|].
      split; [lia|]. split; [lia|]. split; [|discriminate].
      unfold max_failures in *. lia.
    + exists w. simpl. repeat split; auto; try lia.
Qed.

(** X9. Starting the monitor is idempotent.  After [AppMonitor.start] the
    flag is up, and a second [start] changes nothing: it starts no second
    thread and does not reset the failure counter.  A [start] that finds
    the flag down resets the counter to 0 and starts exactly one thread. *)
Theorem monitor_start_idempotent (w : World) :
  exists w1,
    run monitor_start w = (Done tt, w1) /\
    monitor_is_running w1 = true /\
    run monitor_start w1 = (Done tt, w1) /\
    (monitor_is_running w = true -> w1 = w) /\
    (monitor_is_running w = false ->
     consecutive_failures w1 = 0 /\ thread_starts w1 = S (thread_starts w)).
Proof.
  unfold monitor_start. cbn [run bind act perform].
  destruct (monitor_is_running w) eqn:Hf.
  - exists w. simpl. rewrite Hf. repeat split; auto; discriminate.
  - eexists. split; [reflexivity|]. simpl. split; [reflexivity|].
    split; [reflexivity|]. split; [discriminate|]. intros _.
    split; [reflexivity|]. unfold thread_starts. simpl.
    rewrite !count_events_snoc. simpl. lia.
Qed.

(** ** Further properties of the control API *)

Lemma perform_responses {X : Type} (a : action X) (w w' : World) (x : X) :
  is_respond a = false -> perform a w = Some (x, w') -> responses w' = responses w.
Proof.
  unfold responses. destruct a; simpl; intros Ha H; try discriminate;
    perform_cases; rewrite ?count_events_snoc; simpl; auto; try discriminate.
Qed.

Lemma no_response_run {R : Type} (p : prog R) (w : World) :
  uses no_response p -> responses (run p w).2 = responses w.
Proof.
  apply (uses_run no_response (fun w w' => responses w' = responses w)); auto.
  - congruence.
  - unfold no_response. intros X a v x v' H Hv. apply negb_true_iff in H.
    eapply perform_responses; eauto.
Qed.

Lemma get_status_done (w : World) :
  exists d w',
    run get_status w = (Done d, w') /\ lock w' = lock w /\
    responses w' = responses w.
Proof.
  pose proof (no_response_run get_status w) as Hn.
  pose proof (is_running_frame w) as F.
  destruct (is_running_total w) as ([|] & w1 & Hrun); rewrite Hrun in F; cbn [snd] in F;
    destruct F as (_ & F2 & _).
  - destruct (get_status_running _ _ Hrun) as (h & p & _ & _ & _ & Hs).
    rewrite Hs in *. eexists _, _. split; [reflexivity|]. split; [exact F2|].
    apply Hn. uses_tac.
  - unfold get_status in *. rewrite run_bind, Hrun in *. cbn [run] in *.
    eexists _, _. split; [reflexivity|]. split; [exact F2|].
    apply Hn. uses_tac.
Qed.


Section ControlAPI.
Variable j : string -> list string -> string.

Lemma start_sequence_lock_free (u a : string) : lock_free (start_sequence j u a).
Proof. unfold lock_free. uses_tac. Qed.

Lemma start_done (u a : string) (w : World) :
  lock w = false ->
  exists d w',
    run (start j u a) w = (Done d, w') /\ lock w' = false /\
    responses w' = responses w.
Proof.
  intros Hl. pose proof (no_response_run (start j u a) w) as Hn.
  pose proof (start_lock j u a w Hl) as Hl'.
  assert (Hd : exists d, (run (start j u a) w).1 = Done d).
  { destruct (is_running_total w) as ([|] & w1 & Hrun).
    - rewrite (start_when_running j u a w w1 Hl Hrun). simpl. eauto.
    - rewrite (start_when_idle j u a w w1 Hl Hrun).
      destruct (lock_free_run (start_sequence j u a) (entered (CallStart u a) w1)
                  (start_sequence_lock_free u a)) as [Hnb _].
      destruct (run (start_sequence j u a) (entered (CallStart u a) w1))
        as [[d|e|] w2]; simpl in *; eauto. contradiction. }
  destruct Hd as [d Hd]. destruct (run (start j u a) w) as [o w'].
  simpl in *. subst o. exists d, w'. split; [reflexivity|]. split; [exact Hl'|].
  apply Hn. uses_tac.
Qed.

End ControlAPI.

Section Request.
Variable j : string -> list string -> string.
Variable urlparse : string -> exn + (string * string).
Variable parse_qs : string -> exn + gmap string (list string).



(** When parsing succeeds and both writes succeed, the whole handler does
    what [do_GET] does from the parsed path and parameters. *)
Lemma do_GET_request_parsed (target path : string) (q : gmap string (list string))
    (w : World) :
  parsed urlparse parse_qs target = inr (path, q) ->
  run (do_GET_request j urlparse parse_qs None None target) w = run (do_GET j path q) w.
Proof.
  unfold parsed, do_GET_request, do_GET. intros H.
  rewrite !run_try_except, run_bind.
  destruct (urlparse target) as [e|[path' query]]; [discriminate|].
  cbn [raise_or_return run fst snd] in *. rewrite run_bind.
  destruct (parse_qs query) as [e|q']; [discriminate|].
  injection H as -> ->. reflexivity.
Qed.


End Request.

Section ControlRoutes.
Variable j : string -> list string -> string.


(** X11. [/start] with both parameters.  When [username] and [appname] are
    present and not empty, [do_GET] calls [start] with the first value of
    each and answers 200 with the dictionary [start] returned, whatever its
    status. *)
Theorem do_GET_start_delegates (q : gmap string (list string)) (w : World)
    (u a : string) (us as_ : list string) :
  lock w = false ->
  q !! "username" = Some (u :: us) ->
  q !! "appname" = Some (a :: as_) ->
  u <> "" -> a <> "" ->
  exists d w1,
    run (start j u a) w = (Done d, w1) /\
    run (do_GET j "/start" q) w = (Done tt, emit (EvRespond 200 d) w1).
Proof.
  intros Hl Hu Ha Nu Na. destruct (start_done j u a w Hl) as (d & w1 & Hrun & _).
  exists d, w1. split; [exact Hrun|].
  unfold do_GET. rewrite run_try_except. cbn [String.eqb Ascii.eqb Bool.eqb].
  unfold query_get. rewrite Hu, Ha. cbn [fmap list_fmap first_item].
  rewrite run_bind. cbn [run]. rewrite run_bind. cbn [run].
  unfold falsy. rewrite (proj2 (String.eqb_neq u "") Nu), (proj2 (String.eqb_neq a "") Na).
  cbn [orb default]. rewrite run_bind.
  unfold id. rewrite Hrun. reflexivity.
Qed.

End ControlRoutes.

Section Unlocked.
Variable j : string -> list string -> string.
Variable urlparse : string -> exn + (string * string).
Variable parse_qs : string -> exn + gmap string (list string).

Ltac known_path :=
  match goal with
  | H : _ ∉ _ |- _ => exfalso; apply H; rewrite !elem_of_cons; auto 10
  end.

(** Once the target is parsed, the handler is the [if]/[elif] chain in its
    [try] block. *)
Lemma do_GET_request_routes (first second : option exn) (target path : string)
    (q : gmap string (list string)) :
  parsed urlparse parse_qs target = inr (path, q) ->
  do_GET_request j urlparse parse_qs first second target =
  try_except (do_GET_routes j first path q)
    (fun e => send_json_response second 500 [("error", VStr (exn_str e))]).
Proof.
  unfold parsed, do_GET_request. intros H.
  destruct (urlparse target) as [e|[path' query]]; [discriminate|].
  cbn [raise_or_return bind fst snd] in *.
  destruct (parse_qs query) as [e|q']; [discriminate|].
  injection H as -> ->. reflexivity.
Qed.

(** X12. Requests that take no lock.  For [/ping] and for an unknown path
    the handler performs no action but the writing of responses, whether
    the writes succeed or fail: it touches neither the lock nor the
    supervisor, whatever other threads do; when the write succeeds the
    answer is 200 [{status: ok}] for [/ping] and 404 for an unknown path,
    and the comparison of the path is exact.  [/status] takes no lock
    either and never waits.  Handled with no other thread running, it
    answers 200 with what [status] returned, whether or not the lock is
    held; but interleaved with a [stop] that clears the handle between its
    liveness check and its read of the pid, as under
    [status_race_schedule], it answers 500 with the text of the
    [AttributeError].  [/stop] made while the lock is held waits for
    it. *)
Theorem do_GET_without_lock (first second : option exn) (target : string)
    (q : gmap string (list string)) (w : World) :
  (parsed urlparse parse_qs target = inr ("/ping", q) ->
   uses only_responds (do_GET_request j urlparse parse_qs first second target) /\
   (first = None ->
    run (do_GET_request j urlparse parse_qs first second target) w =
      (Done tt, emit (EvRespond 200 [("status", VStr "ok")]) w))) /\
  (forall path,
      path ∉ ["/start"; "/stop"; "/status"; "/ping"] ->
      parsed urlparse parse_qs target = inr (path, q) ->
      uses only_responds (do_GET_request j urlparse parse_qs first second target) /\
      (first = None ->
       run (do_GET_request j urlparse parse_qs first second target) w =
         (Done tt, emit (EvRespond 404 not_found) w))) /\
  (parsed urlparse parse_qs target = inr ("/status", q) ->
   lock_free (do_GET_request j urlparse parse_qs first second target) /\
   (first = None ->
    exists d w1,
      run get_status w = (Done d, w1) /\
      run (do_GET_request j urlparse parse_qs first second target) w =
        (Done tt, emit (EvRespond 200 d) w1))) /\
  (let c := exec status_race_schedule (race_world, [spawn stop; status_request j]) in
   (thread_outcome <$> c.2) = [Done stopped_dict; Done []] /\
   last (trace c.1) =
     Some (EvRespond 500
             [("error", VStr "'NoneType' object has no attribute 'pid'")])) /\
  (parsed urlparse parse_qs target = inr ("/stop", q) ->
   lock w = true ->
   run (do_GET_request j urlparse parse_qs first second target) w = (Blocked, w)).
Proof.
  split; [|split; [|split; [|split]]].
  - intros Hp. rewrite (do_GET_request_routes first second _ _ _ Hp).
    unfold do_GET_routes. cbn [String.eqb Ascii.eqb Bool.eqb]. split.
    + destruct first, second; repeat constructor.
    + intros ->. reflexivity.
  - intros path Hpath Hp. rewrite (do_GET_request_routes first second _ _ _ Hp).
    unfold do_GET_routes.
    destruct (String.eqb_spec path "/start") as [->|_]; [known_path|].
    destruct (String.eqb_spec path "/stop") as [->|_]; [known_path|].
    destruct (String.eqb_spec path "/status") as [->|_]; [known_path|].
    destruct (String.eqb_spec path "/ping") as [->|_]; [known_path|].
    split.
    + destruct first, second; repeat constructor.
    + intros ->. reflexivity.
  - intros Hp. rewrite (do_GET_request_routes first second _ _ _ Hp).
    unfold do_GET_routes. cbn [String.eqb Ascii.eqb Bool.eqb]. split.
    + unfold lock_free. destruct first, second; unfold send_json_response; uses_tac.
    + intros ->. destruct (get_status_done w) as (d & w1 & Hrun & _). exists d, w1.
      split; [exact Hrun|]. rewrite run_try_except, run_bind, Hrun. reflexivity.
  - vm_compute. split; reflexivity.
  - intros Hp Hl. rewrite (do_GET_request_routes first second _ _ _ Hp).
    unfold do_GET_routes. cbn [String.eqb Ascii.eqb Bool.eqb].
    rewrite run_try_except, run_bind.
    unfold stop, with_lock. cbn [run perform]. rewrite Hl. reflexivity.
Qed.

End Unlocked.


Section Orphan.
Variable j : string -> list string -> string.

(** X13. What the fail-safe of [stop] costs.  When [terminate] raises on a
    running tunnel, [stop] answers [error] with the text of the exception
    and forgets the process without its exit having been observed; [status]
    then answers [stopped].  A [start] that follows finds nothing running
    and, with both files present and [Popen] spawning a child that is alive
    after the grace period, answers [started]: the process table then holds
    one more process without an exit code than before the [stop], at least
    two in all. *)
Theorem stop_error_then_start (u a : string) (w w1 : World) (e : exn) (child : Z)
    (err : string) (pq : list popen_answer) :
  lock w = false ->
  run is_running w = (Done true, w1) ->
  hd None (terminate_q (oracle w1)) = Some e ->
  exe_path j u a ∈ files w ->
  cfg_path j u a ∈ files w ->
  popen_q (oracle w1) = PopenSpawns child err :: pq ->
  stays_alive 1 w1 ->
  exists w2 w3,
    run stop w = (Done (error_dict (exn_str e)), w2) /\
    run get_status w2 = (Done stopped_dict, w2) /\
    run (start j u a) w2 =
      (Done (started_dict child (exe_path j u a) (cfg_path j u a)), w3) /\
    procs w3 = procs w ++ [mkProc child None (Some err)] /\
    live_count w3 = S (live_count w) /\ (2 <= live_count w3)%nat.
Proof.
  intros Hl Hrun Ht He Hc Hq Ha.
  destruct (is_running_true_frame _ _ Hrun) as (h & p & Hh & Hp & Hr & Hh1 & P1 & T1 & L1).
  pose proof (is_running_frame w) as F. rewrite Hrun in F. cbn [snd] in F.
  destruct F as (_ & _ & _ & _ & _ & _ & F7 & _).
  rewrite (stop_when_running w w1 Hl Hrun).
  rewrite (run_stop_sequence h (entered CallStop w1) Hh1).
  change (terminate_q (oracle (entered CallStop w1))) with (terminate_q (oracle w1)).
  rewrite Ht.
  set (w2 := set_lock false (set_process None (after_terminate h (entered CallStop w1)))).
  assert (Hidle : run is_running w2 = (Done false, w2)) by reflexivity.
  exists w2. eexists. split; [reflexivity|].
  split; [apply get_status_idle; exact I|].
  rewrite (start_when_spawned j u a w2 w2 child err pq eq_refl Hidle);
    [|simpl; congruence|simpl; congruence|exact Hq|exact Ha].
  split; [reflexivity|].
  cbn [procs set_lock drop_polls set_oracle spawned set_process emit set_procs
       with_paths set_config_path set_singbox_path entered after_terminate w2].
  rewrite P1. split; [reflexivity|].
  assert (Hlive : live_count
            (set_lock false
               (drop_polls 1
                  (spawned j u a child err pq (entered (CallStart u a) w2)))) =
          S (live_count w)).
  { unfold live_count. simpl. rewrite P1, filter_app, length_app.
    rewrite filter_cons_True by reflexivity. simpl. lia. }
  split; [exact Hlive|]. rewrite Hlive.
  assert (1 <= live_count w)%nat; [|lia].
  unfold live_count.
  apply list_elem_of_lookup_2 in Hp.
  assert (Hin : p ∈ filter live (procs w)) by (apply list_elem_of_filter; auto).
  destruct (filter live (procs w)); [inversion Hin|simpl; lia].
Qed.

End Orphan.

(** ** The monitor, run on its own *)

Lemma perform_error_logs {X : Type} (a : action X) (w w' : World) (x : X) :
  is_error_log a = false -> perform a w = Some (x, w') -> error_logs w' = error_logs w.
Proof.
  unfold error_logs. destruct a; simpl; intros Ha H; try discriminate;
    perform_cases; rewrite ?count_events_snoc; simpl; auto; try discriminate.
Qed.

Lemma no_error_log_run {R : Type} (p : prog R) (w : World) :
  uses no_error_log p -> error_logs (run p w).2 = error_logs w.
Proof.
  apply (uses_run no_error_log (fun w w' => error_logs w' = error_logs w)); auto.
  - congruence.
  - unfold no_error_log. intros X a v x v' H Hv. apply negb_true_iff in H.
    eapply perform_error_logs; eauto.
Qed.

(** Run on its own, an iteration of the loop does not enter its [except]
    block. *)
Lemma monitor_cycle_no_error (w : World) :
  lock w = false -> error_logs (run monitor_cycle w).2 = error_logs w.
Proof.
  intros Hl. unfold monitor_cycle. rewrite run_try_except.
  match goal with |- context [run ?b w] => set (body := b) end.
  assert (Hd : (run body w).1 = Done tt).
  { unfold body. rewrite run_bind.
    pose proof (is_running_frame w) as F.
    destruct (is_running_total w) as (b & w1 & Hr). rewrite Hr in *.
    cbn [snd] in F. destruct F as (_ & L1 & _).
    cbv beta iota. destruct b; [|reflexivity].
    rewrite run_bind, run_bind.
    destruct (check_app_alive_effect w1) as (alive & w2 & -> & L2 & _).
    cbv beta iota. destruct alive.
    - cbn -[stop]. destruct (0 <? consecutive_failures w2)%Z; reflexivity.
    - cbn -[stop].
      destruct (max_failures <=? consecutive_failures w2 + 1)%Z; [|reflexivity].
      cbn -[stop]. rewrite run_bind.
      match goal with |- context [run stop ?v] =>
        destruct (stop_effect v) as (r & w3 & -> & _); [simpl; congruence|] end.
      reflexivity. }
  assert (Hu : uses no_error_log body) by (unfold body; uses_tac).
  pose proof (no_error_log_run body w Hu) as He.
  destruct (run body w) as [o w']. simpl in *. subst o. exact He.
Qed.

(** X14. Run on its own, the monitor loop never enters its [except] block:
    any number of iterations run to their end and log no monitor error.
    The block is only reached when another thread interferes. *)
Theorem monitor_loop_logs_no_error (n : nat) (w : World) :
  lock w = false ->
  exists w',
    run (_monitor_loop n) w = (Done tt, w') /\ lock w' = false /\
    error_logs w' = error_logs w.
Proof.
  revert w. induction n as [|n IH]; intros w Hl.
  - exists w. auto.
  - cbn [_monitor_loop]. rewrite run_bind. cbn [run act perform].
    destruct (monitor_is_running w); [|exists w; auto].
    rewrite run_bind.
    destruct (monitor_cycle_spec w Hl) as (w1 & Hrun & Hl1 & _).
    pose proof (monitor_cycle_no_error w Hl) as He. rewrite Hrun in *. cbn [snd] in He.
    destruct (IH w1 Hl1) as (w' & Hrun' & Hl' & He').
    exists w'. split; [exact Hrun'|]. split; [exact Hl'|]. congruence.
Qed.

(** ** Concurrent calls of [stop] *)

(** After [stop] nothing runs; [terminate] and [kill] were called at most
    once each. *)
Lemma stop_leaves_idle (w : World) :
  lock w = false ->
  exists r w',
    run stop w = (Done r, w') /\ lock w' = false /\ idle w' /\
    (terminates w <= terminates w' <= S (terminates w))%nat /\
    (kills w <= kills w' <= S (kills w))%nat.
Proof.
  intros Hl. pose proof (is_running_frame w) as F.
  destruct (is_running_total w) as ([|] & w1 & Hrun); rewrite Hrun in F; cbn [snd] in F;
    destruct F as (_ & L1 & _ & _ & _ & _ & _ & T1 & _).
  - destruct (is_running_true_frame _ _ Hrun) as (h & p & Hh & Hp & Hr & Hh1 & P1 & _).
    rewrite (stop_when_running w w1 Hl Hrun).
    destruct (stop_sequence_outcome h p (entered CallStop w1))
      as (o & w' & -> & F1 & F2 & F3); try assumption.
    { simpl. rewrite P1. exact Hp. }
    assert (Hcount : (terminates w <= terminates w' <= S (terminates w))%nat /\
                     (kills w <= kills w' <= S (kills w))%nat).
    { unfold terminates, kills. cbn [trace entered emit set_lock] in F2.
      replace (trace w1 ++ [EvEnter CallStop]) with (trace w ++ [EvEnter CallStop]) in F2
        by (rewrite T1; reflexivity).
      destruct F2 as [-> | ->].
      - rewrite !count_events_snoc. simpl. lia.
      - replace ((trace w ++ [EvEnter CallStop]) ++ [EvTerminate h; EvKill h])
          with (((trace w ++ [EvEnter CallStop]) ++ [EvTerminate h]) ++ [EvKill h])
          by (rewrite <- !app_assoc; reflexivity).
        rewrite !count_events_snoc. simpl. lia. }
    destruct F3 as [(-> & F3 & _)|(e & -> & _)].
    + exists stopped_dict, (set_lock false w'). split; [reflexivity|].
      split; [reflexivity|]. split; [unfold idle; simpl; rewrite F3; exact I|].
      exact Hcount.
    + exists (error_dict (exn_str e)), (set_lock false (set_process None w')).
      split; [reflexivity|]. split; [reflexivity|]. split; [exact I|]. exact Hcount.
  - rewrite (stop_when_idle w w1 Hl Hrun).
    destruct (is_running_false _ _ Hrun) as [Hi _].
    exists not_running_dict, (emit (EvEnter CallStop) w1). split; [reflexivity|].
    split; [simpl; congruence|].
    split; [apply (idle_frame w1); [reflexivity|reflexivity|exact Hi]|].
    unfold terminates, kills. simpl. rewrite T1, !count_events_snoc. simpl. lia.
Qed.

Section ConcurrentStops.
Variable j : string -> list string -> string.

(** When nothing runs, calls of [stop] one after the other all answer
    [not_running] and send no signal. *)
Lemma run_all_stops_idle (calls : list call) (w : World) :
  Forall (fun k => k = CallStop) calls ->
  lock w = false -> idle w ->
  let r := run_all (call_prog j <$> calls) w in
  r.1 = (fun _ => Done not_running_dict) <$> calls /\
  terminates r.2 = terminates w /\ kills r.2 = kills w.
Proof.
  intros Hs. revert w. induction Hs as [|k calls -> Hs IH]; intros w Hl Hi.
  - simpl. auto.
  - rewrite !fmap_cons. cbn [run_all call_prog fst snd].
    rewrite (stop_when_idle w w Hl (is_running_idle w Hi)). cbn [fst snd].
    destruct (IH (emit (EvEnter CallStop) w)) as (H1 & H2 & H3);
      [exact Hl|apply (idle_frame w); [reflexivity|reflexivity|exact Hi]|].
    rewrite H1, H2, H3. unfold terminates, kills. simpl.
    rewrite !count_events_snoc. simpl. split; [reflexivity|]. lia.
Qed.

Lemma ordered_stops (calls : list call) (order : list nat) :
  Forall (fun k => k = CallStop) calls ->
  (forall i, i ∈ order -> (i < length calls)%nat) ->
  Forall (fun k => k = CallStop) ((fun i => calls !!! i) <$> order).
Proof.
  intros Hs Hlt. apply Forall_fmap, Forall_forall. intros i Hi. simpl.
  apply Hlt, lookup_lt_is_Some in Hi as [k Hk].
  rewrite (list_lookup_total_correct _ _ _ Hk).
  eapply Forall_lookup_1 in Hs; eauto.
Qed.

(** X15. Concurrent calls of [stop].  Whatever the schedule, when threads
    that all call [stop] have returned, [terminate] and [kill] have been
    called at most once each, and every thread but the one that took the
    lock first was answered [not_running]. *)
Theorem concurrent_stops (calls : list call) (sched : list nat) (w : World) :
  lock w = false ->
  Forall (fun k => k = CallStop) calls ->
  let c := exec sched (w, threads j calls) in
  Forall (fun t => finished t = true) c.2 ->
  (terminates c.1 <= S (terminates w))%nat /\
  (kills c.1 <= S (kills w))%nat /\
  exists first : nat,
    forall i t, c.2 !! i = Some t -> i <> first -> code t = Ret not_running_dict.
Proof.
  intros Hl Hstops c Hfin.
  pose proof (threads_serial j calls sched w Hl) as Hser. fold c in Hser.
  destruct (serial_finished _ _ _ Hser Hfin) as (order & Hnd & Hord & Hrun).
  rewrite length_fmap in Hord.
  rewrite replay_calls in Hrun by (intros i Hi; apply Hord, Hi).
  pose proof (ordered_stops calls order Hstops (fun i Hi => proj1 (Hord i) Hi)) as Hos.
  assert (Hin : forall i t, c.2 !! i = Some t -> i ∈ order).
  { intros i t Hit. apply Hord.
    rewrite <- (length_fmap (call_body j)), <- (serial_length _ _ _ Hser).
    eapply lookup_lt_Some; eauto. }
  destruct order as [|i0 rest].
  { cbn [fmap list_fmap run_all] in Hrun. injection Hrun as <-.
    split; [lia|]. split; [lia|]. exists 0%nat. intros i t Hit _.
    apply Hin in Hit. apply elem_of_nil in Hit. destruct Hit. }
  rewrite !fmap_cons in Hrun, Hos.
  apply Forall_cons in Hos as [Hk0 Hos]. rewrite Hk0 in Hrun.
  repeat rewrite fmap_cons in Hrun. cbn [run_all call_prog fst snd] in Hrun.
  destruct (stop_leaves_idle w Hl) as (r & w1 & Hstop & Hl1 & Hi1 & Ht1 & Hk1).
  rewrite Hstop in Hrun. cbn [fst snd] in Hrun.
  destruct (run_all_stops_idle _ w1 Hos Hl1 Hi1) as (Hrest & Ht & Hk).
  pose proof (f_equal fst Hrun) as Houts. pose proof (f_equal snd Hrun) as Hw.
  cbn [fst snd] in Houts, Hw. rewrite Hrest in Houts.
  injection Houts as _ Hothers.
  rewrite <- Hw, Ht, Hk. split; [lia|]. split; [lia|].
  exists i0. intros i t Hit Hneq.
  apply thread_outcome_done. rewrite <- (list_lookup_total_correct _ _ _ Hit).
  pose proof (Hin i t Hit) as Hi.
  apply elem_of_cons in Hi as [?|Hi]; [contradiction|].
  symmetry in Hothers. exact (fmap_const_inv _ _ _ _ Hothers i Hi).
Qed.

End ConcurrentStops.


(** ** Where the specification and the code part *)


(** C4, counterexample. While the tunnel of [carry1] runs, a [start] for a
    user whose executable does not exist answers [already_running], not
    [error], and [status()] afterwards answers [running]. *)
Lemma start_missing_file_while_running :
  bool_decide (exe_path win_join "eve" "app" ∈ files carry1) = false /\
  (run (start win_join "eve" "app") carry1).1 = Done (already_running_dict 101) /\
  (run get_status (run (start win_join "eve" "app") carry1).2).1 =
    Done [("status", VStr "running"); ("pid", VInt 101);
          ("singbox_path", VStr (exe_path win_join "bob" "app"));
          ("config_path", VStr (cfg_path win_join "bob" "app"))].
Proof. repeat split; vm_compute; reflexivity. Qed.

(** ** The theorems at concrete inputs *)


Lemma stop_fail_safe_witness :
  lock carry1 = false /\
  exists r w',
    run stop carry1 = (Done r, w') /\ lock w' = false /\
    run get_status w' = (Done stopped_dict, w').
Proof.
  split; [reflexivity|].
  destruct (stop_fail_safe carry1 eq_refl) as (r & w' & H1 & H2 & H3 & _).
  exists r, w'. auto.
Defined.

Lemma start_already_running_witness :
  lock carry1 = false /\
  run is_running carry1 = (Done true, carry1) /\
  exists h p w',
    process carry1 = Some h /\ procs carry1 !! h = Some p /\
    run (start win_join "eve" "app") carry1 = (Done (already_running_dict (pid p)), w') /\
    procs w' = procs carry1.
Proof.
  split; [reflexivity|]. split; [vm_compute; reflexivity|].
  destruct (start_already_running win_join "eve" "app" carry1 carry1 eq_refl eq_refl)
    as (h & p & w' & H1 & H2 & H3 & _ & _ & _ & _ & H4 & _).
  exists h, p, w'. auto.
Defined.

Lemma start_missing_file_witness :
  lock (fresh [] quiet_oracle) = false /\
  run is_running (fresh [] quiet_oracle) = (Done false, fresh [] quiet_oracle) /\
  (exe_path win_join "eve" "app" ∉ files (fresh [] quiet_oracle)) /\
  exists w',
    run (start win_join "eve" "app") (fresh [] quiet_oracle) =
      (Done (error_dict ("sing-box not found: " +:+ exe_path win_join "eve" "app")), w') /\
    run get_status w' = (Done stopped_dict, w').
Proof.
  split; [reflexivity|]. split; [reflexivity|]. split; [apply not_elem_of_nil|].
  destruct (start_missing_file win_join "eve" "app" (fresh [] quiet_oracle)
              (fresh [] quiet_oracle) eq_refl eq_refl
              (or_introl (not_elem_of_nil _)))
    as (w' & H1 & _ & _ & _ & _ & _ & H2).
  exists w'. split; [exact H1|exact H2].
Defined.

Lemma start_immediate_exit_witness :
  lock dying_world = false /\
  run is_running dying_world = (Done false, dying_world) /\
  (exists w',
      run (start win_join "bob" "app") dying_world =
        (Done (error_dict ("Process exited immediately. Error: " +:+
                           "FATAL: bad config")), w') /\
      run get_status w' = (Done stopped_dict, w')) /\
  lock cyrillic_world = false /\
  run is_running cyrillic_world = (Done false, cyrillic_world) /\
  (exists w',
      run (start win_join "bob" "app") cyrillic_world =
        (Done (error_dict ("Process exited immediately. Error: " +:+
                           utf8 (replicate 200 1103%N))), w') /\
      run get_status w' = (Done stopped_dict, w')).
Proof.
  assert (He : exe_path win_join "bob" "app" ∈ bob_files)
    by (apply elem_of_cons; left; reflexivity).
  assert (Hc : cfg_path win_join "bob" "app" ∈ bob_files)
    by (apply elem_of_cons; right; apply elem_of_cons; left; reflexivity).
  split; [reflexivity|]. split; [reflexivity|]. split.
  { destruct (start_immediate_exit win_join "bob" "app" dying_world dying_world
                77 1 "FATAL: bad config" [] [] eq_refl eq_refl He Hc eq_refl eq_refl)
      as (w' & H1 & H2 & _).
    exists w'. split; [exact H1|exact H2]. }
  split; [reflexivity|]. split; [reflexivity|].
  destruct (start_immediate_exit win_join "bob" "app" cyrillic_world cyrillic_world
              78 1 (utf8 (replicate 250 1103%N)) [] [] eq_refl eq_refl He Hc
              eq_refl eq_refl)
    as (w' & H1 & H2 & _ & H3).
  assert (Hcps : Forall is_code_point (replicate 250 1103%N))
    by (apply Forall_replicate; reflexivity).
  destruct (H3 _ Hcps eq_refl) as [H4 _].
  exists w'. split; [|exact H2].
  rewrite H1, H4. reflexivity.
Defined.

Lemma monitor_threshold_witness :
  lock carry1 = false /\
  probe_result carry1 = Some false /\
  (exists w',
      run monitor_cycle carry1 = (Done tt, w') /\
      consecutive_failures w' = consecutive_failures carry1 + 1 /\
      stops w' = stops carry1 /\ process w' = process carry1) /\
  lock carry3 = false /\
  probe_result carry3 = Some false /\
  consecutive_failures carry3 = 2 /\
  (exists w' r v',
      run monitor_cycle carry3 = (Done tt, w') /\
      consecutive_failures w' = 0 /\ stops w' = S (stops carry3) /\
      run stop (before_stop carry3) = (Done r, v') /\
      w' = set_consecutive_failures 0 (emit (EvLog LInfo (MsgTunnelStopped r)) v') /\
      run get_status w' = (Done stopped_dict, w')).
Proof.
  assert (P1 : probe_result carry1 = Some false) by (vm_compute; reflexivity).
  assert (P3 : probe_result carry3 = Some false) by (vm_compute; reflexivity).
  assert (C1 : consecutive_failures carry1 + 1 < 3) by (vm_compute; reflexivity).
  assert (C3 : 3 <= consecutive_failures carry3 + 1) by (vm_compute; discriminate).
  split; [reflexivity|]. split; [exact P1|]. split.
  { destruct (monitor_threshold carry1 eq_refl) as (w' & H1 & _ & H2 & _ & _ & H3 & _).
    exists w'. split; [exact H1|].
    destruct (H2 P1 C1) as [H4 H5].
    destruct H3 as (H6 & _); [right; split; [exact P1|exact C1]|]. auto. }
  split; [vm_compute; reflexivity|]. split; [exact P3|].
  split; [vm_compute; reflexivity|].
  destruct (monitor_threshold carry3) as (w' & H1 & _ & _ & H2 & _ & _ & H3);
    [vm_compute; reflexivity|].
  destruct (H2 P3 C3) as [H4 H5].
  destruct (H3 P3 C3) as (r & v' & H6 & H7 & _ & H8).
  exists w', r, v'. auto 10.
Defined.

Lemma stop_not_running_witness :
  lock (fresh [] quiet_oracle) = false /\
  run is_running (fresh [] quiet_oracle) = (Done false, fresh [] quiet_oracle) /\
  exists w',
    run stop (fresh [] quiet_oracle) = (Done not_running_dict, w') /\
    process w' = None.
Proof.
  split; [reflexivity|]. split; [reflexivity|].
  destruct (stop_not_running (fresh [] quiet_oracle) (fresh [] quiet_oracle)
              eq_refl eq_refl) as (w' & H1 & H2 & _).
  exists w'. auto.
Defined.



Lemma monitor_skips_idle_tunnel_witness :
  lock carry4 = false /\
  (run is_running carry4).1 = Done false /\
  exists w',
    run monitor_cycle carry4 = (Done tt, w') /\
    consecutive_failures w' = consecutive_failures carry4 /\
    probes w' = probes carry4.
Proof.
  split; [reflexivity|]. split; [vm_compute; reflexivity|].
  destruct (monitor_skips_idle_tunnel carry4 (run is_running carry4).2 eq_refl)
    as (w' & H1 & H2 & H3 & _).
  { vm_compute. reflexivity. }
  exists w'. auto.
Defined.


Lemma check_app_alive_pong_witness :
  (exists w', run _check_app_alive (answering "PONG") = (Done true, w')) /\
  (exists w', run _check_app_alive (answering "{status: Pong}") = (Done true, w')) /\
  (exists w', run _check_app_alive (answering "ping") = (Done false, w')).
Proof.
  split; [|split].
  - destruct (check_app_alive_pong (answering "PONG"))
      as (b & w' & Hrun & _ & _ & Hb & _).
    exists w'. rewrite Hrun. f_equal. f_equal. apply Hb.
    exists "PONG", [], "", "PONG", "". split; [reflexivity|]. split; [reflexivity|].
    exists "P"%char, "O"%char, "N"%char, "G"%char. auto 10.
  - destruct (check_app_alive_pong (answering "{status: Pong}"))
      as (b & w' & Hrun & _ & _ & Hb & _).
    exists w'. rewrite Hrun. f_equal. f_equal. apply Hb.
    exists "{status: Pong}", [], "{status: ", "Pong", "}".
    split; [reflexivity|]. split; [reflexivity|].
    exists "P"%char, "o"%char, "n"%char, "g"%char. auto 10.
  - destruct (check_app_alive_pong (answering "ping"))
      as (b & w' & Hrun & _ & _ & _ & _ & _).
    exists w'. rewrite Hrun. vm_compute in Hrun. injection Hrun as <- _. reflexivity.
Defined.

(** ** The further theorems at concrete inputs *)

Lemma stop_graceful_witness :
  lock exiting_world = false /\
  run is_running exiting_world = (Done true, exiting_world_checked) /\
  exists w',
    run stop exiting_world = (Done stopped_dict, w') /\
    process w' = None /\ kills w' = kills exiting_world.
Proof.
  split; [reflexivity|].
  assert (Hr : run is_running exiting_world = (Done true, exiting_world_checked))
    by (vm_compute; reflexivity).
  split; [exact Hr|].
  assert (Ht : hd None (terminate_q (oracle exiting_world_checked)) = None)
    by (vm_compute; reflexivity).
  assert (Hq : poll_q (oracle exiting_world_checked) = replicate 1 None ++ [Some 0])
    by (vm_compute; reflexivity).
  destruct (stop_graceful exiting_world exiting_world_checked 1 0 [] eq_refl Hr Ht Hq)
    as (h & p & w' & _ & _ & H1 & H2 & _ & _ & _ & H3 & _); [lia|].
  exists w'. auto.
Defined.

Lemma stop_escalates_witness :
  lock carry1 = false /\
  run is_running carry1 = (Done true, carry1) /\
  stays_alive 51 carry1 /\
  exists w',
    run stop carry1 = (Done stopped_dict, w') /\
    process w' = None /\ kills w' = S (kills carry1).
Proof.
  split; [reflexivity|]. split; [reflexivity|].
  assert (Ha : stays_alive 51 carry1) by (vm_compute; constructor).
  split; [exact Ha|].
  destruct (stop_escalates carry1 carry1 1 eq_refl eq_refl eq_refl Ha eq_refl eq_refl)
    as (h & p & w' & _ & _ & H1 & H2 & _ & _ & _ & H3).
  exists w'. auto.
Defined.

Lemma stop_answer_and_exit_witness :
  lock denied_world = false /\
  run is_running denied_world = (Done true, denied_world) /\
  exists r w',
    run stop denied_world = (Done r, w') /\ process w' = None /\ lock w' = false.
Proof.
  split; [reflexivity|]. split; [reflexivity|].
  destruct (stop_answer_and_exit denied_world denied_world eq_refl eq_refl)
    as (h & p & r & w' & _ & _ & H1 & H2 & H3 & _).
  exists r, w'. auto.
Defined.

Lemma start_spawns_witness :
  lock carry0 = false /\
  run is_running carry0 = (Done false, carry0) /\
  stays_alive 1 carry0 /\
  exists w',
    run (start win_join "bob" "app") carry0 =
      (Done (started_dict 101 (exe_path win_join "bob" "app")
               (cfg_path win_join "bob" "app")), w') /\
    process w' = Some 0%nat.
Proof.
  split; [reflexivity|]. split; [reflexivity|].
  assert (Ha : stays_alive 1 carry0) by (vm_compute; constructor).
  split; [exact Ha|].
  assert (He : exe_path win_join "bob" "app" ∈ files carry0)
    by (apply elem_of_cons; left; reflexivity).
  assert (Hc : cfg_path win_join "bob" "app" ∈ files carry0)
    by (apply elem_of_cons; right; apply elem_of_cons; left; reflexivity).
  destruct (start_spawns win_join "bob" "app" carry0 carry0 101 "" [PopenSpawns 102 ""]
              eq_refl eq_refl He Hc eq_refl Ha)
    as (w' & H1 & H2 & _).
  exists w'. auto.
Defined.

Lemma start_spawn_fails_witness :
  lock (fresh bob_files quiet_oracle) = false /\
  run is_running (fresh bob_files quiet_oracle) =
    (Done false, fresh bob_files quiet_oracle) /\
  exists w',
    run (start win_join "bob" "app") (fresh bob_files quiet_oracle) =
      (Done (error_dict "spawn failed"), w') /\
    process w' = None /\
    run get_status w' = (Done stopped_dict, w').
Proof.
  split; [reflexivity|]. split; [reflexivity|].
  assert (He : exe_path win_join "bob" "app" ∈ files (fresh bob_files quiet_oracle))
    by (apply elem_of_cons; left; reflexivity).
  assert (Hc : cfg_path win_join "bob" "app" ∈ files (fresh bob_files quiet_oracle))
    by (apply elem_of_cons; right; apply elem_of_cons; left; reflexivity).
  destruct (start_spawn_fails win_join "bob" "app" (fresh bob_files quiet_oracle)
              (fresh bob_files quiet_oracle) spawn_failed eq_refl eq_refl He Hc eq_refl)
    as (w' & H1 & H2 & _ & _ & _ & H3).
  exists w'. auto.
Defined.

Lemma start_answers_witness :
  lock carry0 = false /\
  exists d w',
    run (start win_join "bob" "app") carry0 = (Done d, w') /\ lock w' = false.
Proof.
  split; [reflexivity|].
  destruct (start_answers win_join "bob" "app" carry0 eq_refl)
    as (d & w' & H1 & H2 & _).
  exists d, w'. auto.
Defined.

Lemma monitor_loop_invariant_witness :
  lock watched = false /\
  0 <= consecutive_failures watched < max_failures /\
  exists w',
    run (_monitor_loop 4) watched = (Done tt, w') /\
    monitor_is_running w' = monitor_is_running watched /\
    0 <= consecutive_failures w' < max_failures.
Proof.
  split; [reflexivity|].
  assert (Hc : 0 <= consecutive_failures watched < max_failures)
    by (vm_compute; split; [discriminate|reflexivity]).
  split; [exact Hc|].
  destruct (monitor_loop_invariant 4 watched eq_refl Hc)
    as (w' & H1 & _ & H2 & H3 & _).
  exists w'. auto.
Defined.


Lemma do_GET_start_delegates_witness :
  lock carry0 = false /\
  both_parameters !! "username" = Some ["bob"; "eve"] /\
  both_parameters !! "appname" = Some ["app"] /\
  exists d w1,
    run (start win_join "bob" "app") carry0 = (Done d, w1) /\
    run (do_GET win_join "/start" both_parameters) carry0 =
      (Done tt, emit (EvRespond 200 d) w1).
Proof.
  split; [reflexivity|].
  assert (Hu : both_parameters !! "username" = Some ["bob"; "eve"]) by reflexivity.
  assert (Ha : both_parameters !! "appname" = Some ["app"]) by reflexivity.
  split; [exact Hu|]. split; [exact Ha|].
  apply (do_GET_start_delegates win_join both_parameters carry0 "bob" "app" ["eve"] []
           eq_refl Hu Ha); discriminate.
Defined.

Lemma do_GET_without_lock_witness :
  parsed urlparse_path parse_qs_empty "/ping" = inr ("/ping", ∅) /\
  run (do_GET_request win_join urlparse_path parse_qs_empty None None "/ping") race_world =
    (Done tt, emit (EvRespond 200 [("status", VStr "ok")]) race_world) /\
  parsed urlparse_path parse_qs_empty "/stop" = inr ("/stop", ∅) /\
  run (do_GET_request win_join urlparse_path parse_qs_empty None None "/stop")
    (set_lock true race_world) =
    (Blocked, set_lock true race_world).
Proof.
  split; [reflexivity|]. split.
  - destruct (do_GET_without_lock win_join urlparse_path parse_qs_empty None None
                "/ping" ∅ race_world) as (H & _).
    destruct (H eq_refl) as [_ H1]. exact (H1 eq_refl).
  - split; [reflexivity|].
    destruct (do_GET_without_lock win_join urlparse_path parse_qs_empty None None
                "/stop" ∅ (set_lock true race_world)) as (_ & _ & _ & _ & H).
    exact (H eq_refl eq_refl).
Defined.

Lemma stop_error_then_start_witness :
  lock denied_world = false /\
  run is_running denied_world = (Done true, denied_world) /\
  exists w2 w3,
    run stop denied_world = (Done (error_dict "[WinError 5] Access is denied"), w2) /\
    run (start win_join "bob" "app") w2 =
      (Done (started_dict 102 (exe_path win_join "bob" "app")
               (cfg_path win_join "bob" "app")), w3) /\
    live_count w3 = 2%nat.
Proof.
  split; [reflexivity|]. split; [reflexivity|].
  assert (He : exe_path win_join "bob" "app" ∈ files denied_world)
    by (apply elem_of_cons; left; reflexivity).
  assert (Hc : cfg_path win_join "bob" "app" ∈ files denied_world)
    by (apply elem_of_cons; right; apply elem_of_cons; left; reflexivity).
  assert (Ha : stays_alive 1 denied_world) by (vm_compute; constructor).
  destruct (stop_error_then_start win_join "bob" "app" denied_world denied_world
              access_denied 102 "" [] eq_refl eq_refl eq_refl He Hc eq_refl Ha)
    as (w2 & w3 & H1 & _ & H2 & _ & H3 & _).
  exists w2, w3. split; [exact H1|]. split; [exact H2|].
  rewrite H3. vm_compute. reflexivity.
Defined.

Lemma monitor_loop_logs_no_error_witness :
  lock watched = false /\
  exists w',
    run (_monitor_loop 4) watched = (Done tt, w') /\
    error_logs w' = error_logs watched.
Proof.
  split; [reflexivity|].
  destruct (monitor_loop_logs_no_error 4 watched eq_refl) as (w' & H1 & _ & H2).
  exists w'. auto.
Defined.

Lemma concurrent_stops_witness :
  lock exiting_world = false /\
  Forall (fun t => finished t = true)
    (exec two_stops_schedule (exiting_world, threads win_join two_stops)).2 /\
  (terminates (exec two_stops_schedule (exiting_world, threads win_join two_stops)).1
   <= S (terminates exiting_world))%nat.
Proof.
  split; [reflexivity|].
  assert (Hf : Forall (fun t => finished t = true)
                 (exec two_stops_schedule (exiting_world, threads win_join two_stops)).2)
    by (vm_compute; repeat constructor).
  split; [exact Hf|].
  assert (Hs : Forall (fun k => k = CallStop) two_stops) by (repeat constructor).
  destruct (concurrent_stops win_join two_stops two_stops_schedule exiting_world
              eq_refl Hs Hf) as (H & _).
  exact H.
Defined.
